(** * Marome Investments finance backend: the aggregation-and-ranking engine

    A shallow embedding of [src/server.js] and the properties its
    specification states about it.

    Conventions of the embedding.
    - A JavaScript number is an IEEE-754 binary64 value: Rocq's primitive
      [float], whose operations are the processor's (round to nearest, ties
      to even), with [NaN], the infinities and both zeros.
    - A JavaScript string is a [string] of one-byte characters; the case
      mappings and white space are the ASCII ones.
    - [Date.now()] returns an integral number of milliseconds: a [Z].
    - A provider response is given with the shape the provider documents;
      whatever makes the code inside a [try] block throw (a failed request,
      a response without the expected members) is one outcome, because the
      [catch] treats them alike.
    - An asynchronous function is the function from what its requests
      return to what it resolves with; [sleep] only delays. *)

From Stdlib Require Import ZArith List String Ascii Bool Lia Floats.
From Stdlib Require Import DecimalString Sorting.Sorted Sorting.Permutation.
Import ListNotations.

Set Warnings "-inexact-float,-register-all".
Local Open Scope string_scope.
Local Open Scope Z_scope.

(* ================================================================== *)
(** * Part I. The model                                                *)
(* ================================================================== *)

(* ------------------------------------------------------------------ *)
(** ** JavaScript numbers *)

Abbreviation number := float.

(** [x > y], [x >= y], [x < y], [x <= y] and [x === y] on numbers: every
    comparison with [NaN] is false, and [+0 === -0]. *)
Definition gt (x y : number) : bool := (y <? x)%float.
Definition ge (x y : number) : bool := (y <=? x)%float.
Definition lt (x y : number) : bool := (x <? y)%float.
Definition le (x y : number) : bool := (x <=? y)%float.
Definition strict_eq (x y : number) : bool := (x =? y)%float.

(** The global [isNaN] and [Math.abs] on a number. *)
Definition isNaN (x : number) : bool := is_nan x.
Definition Math_abs (x : number) : number := abs x.

(** [ToNumber(undefined)] is [NaN]: an absent operand of an arithmetic
    operator or a comparison. *)
Definition num_of (o : option number) : number :=
  match o with Some x => x | None => nan end.

(** The value of a [spec_float] and the classes of a number. *)
Definition SFfinite (X : spec_float) : bool :=
  match X with S754_zero _ | S754_finite _ _ _ => true | _ => false end.

(** A key that orders the numbers other than [NaN] as [<] does: pairs are
    compared first by class and sign, then by exponent, then by mantissa. *)
Definition SFkey (X : spec_float) : Z * Z * Z :=
  match X with
  | S754_nan => (0, 0, 0)
  | S754_zero _ => (0, 0, 0)
  | S754_infinity s => (if s then -2 else 2, 0, 0)
  | S754_finite s m e => if s then (-1, - e, - Zpos m) else (1, e, Zpos m)
  end.

Definition lexlt (a b : Z * Z * Z) : Prop :=
  let '(a1, a2, a3) := a in
  let '(b1, b2, b3) := b in
  a1 < b1 \/ (a1 = b1 /\ (a2 < b2 \/ (a2 = b2 /\ a3 < b3))).

Definition lexle (a b : Z * Z * Z) : Prop := lexlt a b \/ a = b.

(* ------------------------------------------------------------------ *)
(** ** Strings and the conversions between strings and numbers *)

Definition is_digit (c : ascii) : bool :=
  let n := nat_of_ascii c in (48 <=? n)%nat && (n <=? 57)%nat.

Definition digit_val (c : ascii) : Z := Z.of_nat (nat_of_ascii c) - 48.

Definition is_space (c : ascii) : bool :=
  let n := nat_of_ascii c in
  ((9 <=? n)%nat && (n <=? 13)%nat) || (n =? 32)%nat.

Fixpoint trim_start (s : string) : string :=
  match s with
  | String c s' => if is_space c then trim_start s' else s
  | EmptyString => s
  end.

(** The longest run of decimal digits at the head of [s]: the value it adds
    to [acc], how many digits it has, and what follows it. *)
Fixpoint take_digits (s : string) (acc : Z) (n : nat) : Z * nat * string :=
  match s with
  | String c s' =>
      if is_digit c then take_digits s' (10 * acc + digit_val c) (S n)
      else (acc, n, s)
  | EmptyString => (acc, n, s)
  end.

(** The number nearest to [m * 10 ^ e10] (ties to even), with the sign
    [neg]: what a decimal literal denotes. *)
Definition round_decimal (neg : bool) (m : Z) (e10 : Z) : number :=
  SF2Prim
    match m with
    | Z0 => S754_zero neg
    | Zpos p =>
        if 0 <=? e10 then binary_round prec emax neg (p * Z.to_pos (10 ^ e10)) 0
        else SFdiv prec emax (S754_finite neg p 0)
                   (S754_finite false (Z.to_pos (10 ^ (- e10))) 0)
    | Zneg _ => S754_nan
    end.

(** The exponent part [e[+-]digits] at the head of [s], when there is one. *)
Definition take_exponent (s : string) : Z :=
  match s with
  | String c s' =>
      if (c =? "e")%char || (c =? "E")%char then
        let '(neg, s'') :=
          match s' with
          | String "+" r => (false, r)
          | String "-" r => (true, r)
          | _ => (false, s')
          end in
        let '(v, n, _) := take_digits s'' 0 0 in
        match n with O => 0 | S _ => if neg then - v else v end
      else 0
  | EmptyString => 0
  end.

(** [parseFloat(s)]: leading white space is dropped, the longest prefix that
    is a decimal literal is read, and [NaN] is the result when there is none. *)
Definition parseFloat (s : string) : number :=
  let s := trim_start s in
  let '(neg, s) :=
    match s with
    | String "+" r => (false, r)
    | String "-" r => (true, r)
    | _ => (false, s)
    end in
  if prefix "Infinity" s then (if neg then neg_infinity else infinity)
  else
    let '(i, ni, r1) := take_digits s 0 0 in
    match r1 with
    | String "." r =>
        let '(m, nf, r2) := take_digits r i 0 in
        match ni, nf with
        | O, O => nan
        | _, _ => round_decimal neg m (take_exponent r2 - Z.of_nat nf)
        end
    | _ =>
        match ni with
        | O => nan
        | S _ => round_decimal neg i (take_exponent r1)
        end
    end.

(** The decimal digits of a natural number. *)
Definition digits_of (n : Z) : string :=
  NilZero.string_of_uint (N.to_uint (Z.to_N n)).

Fixpoint zeros (n : nat) : string :=
  match n with O => "" | S n' => String "0" (zeros n') end.

(** The digits of [n] with a point before the last [f] of them. *)
Definition fixed_digits (n : Z) (f : nat) : string :=
  let m := digits_of n in
  match f with
  | O => m
  | S _ =>
      let m := zeros (S f - String.length m) ++ m in
      let k := String.length m in
      substring 0 (k - f) m ++ "." ++ substring (k - f) f m
  end.

(** [Number::toString] for a number [x] whose value is the integer
    [v >= 10^21]: the fewest digits [s] such that [s * 10^(n-k)] reads back
    as [x], the candidate nearest to [v] first, in exponential notation. *)
Definition reads_back (v : Z) (x : spec_float) : bool :=
  match binary_round prec emax false (Z.to_pos v) 0, x with
  | S754_finite _ m e, S754_finite _ m' e' => Pos.eqb m m' && (e =? e')
  | _, _ => false
  end.

Fixpoint shortest_digits (fuel : nat) (k : Z) (v n : Z) (x : spec_float) : Z :=
  match fuel with
  | O => v
  | S fuel' =>
      let scale := 10 ^ (n - k) in
      let lo := v / scale in
      let hi := lo + 1 in
      let dlo := v - lo * scale in
      let dhi := hi * scale - v in
      let lo_first := (dlo <? dhi) || ((dlo =? dhi) && Z.even lo) in
      let '(c1, c2) := if lo_first then (lo, hi) else (hi, lo) in
      if reads_back (c1 * scale) x then c1
      else if reads_back (c2 * scale) x then c2
      else shortest_digits fuel' (k + 1) v n x
  end.

Definition exponential_string (v : Z) (x : spec_float) : string :=
  let n := Z.of_nat (String.length (digits_of v)) in
  let s := shortest_digits 17 1 v n x in
  (* the candidate 10 of one digit is the digit 1 one place higher *)
  let '(s, n) := if s =? 10 then (1, n + 1) else (s, n) in
  let ds := digits_of s in
  match ds with
  | String d EmptyString => String d "e+" ++ digits_of (n - 1)
  | String d r => String d ("." ++ r) ++ "e+" ++ digits_of (n - 1)
  | EmptyString => ""
  end.

(** [x.toFixed(f)]. *)
Definition toFixed (x : number) (f : nat) : string :=
  match Prim2SF x with
  | S754_nan => "NaN"
  | S754_infinity s => if s then "-Infinity" else "Infinity"
  | S754_zero _ => fixed_digits 0 f
  | S754_finite s m e =>
      let sign := if s then "-" else "" in
      let p10 := 10 ^ Z.of_nat f in
      if (0 <=? e) && (10 ^ 21 <=? Zpos m * 2 ^ e) then
        sign ++ exponential_string (Zpos m * 2 ^ e) (Prim2SF x)
      else
        (* the integer nearest to [|x| * 10^f], the larger of two *)
        let n :=
          if 0 <=? e then Zpos m * 2 ^ e * p10
          else (2 * Zpos m * p10 + 2 ^ (- e)) / 2 ^ (1 - e) in
        sign ++ fixed_digits n f
  end.

(** [s.includes(t)], [s.split(sep)] for a separator of one character,
    [s.toLowerCase()], [s.toUpperCase()] and [s.padStart(2, "0")]. *)
Fixpoint includes (s t : string) : bool :=
  prefix t s ||
  match s with
  | String _ s' => includes s' t
  | EmptyString => false
  end.

Fixpoint split (sep : ascii) (s : string) : list string :=
  match s with
  | EmptyString => [""]
  | String c s' =>
      let r := split sep s' in
      if (c =? sep)%char then "" :: r
      else match r with
           | h :: t => String c h :: t
           | [] => [String c ""]
           end
  end.

Definition lower_char (c : ascii) : ascii :=
  let n := nat_of_ascii c in
  if (65 <=? n)%nat && (n <=? 90)%nat then ascii_of_nat (n + 32) else c.

Definition upper_char (c : ascii) : ascii :=
  let n := nat_of_ascii c in
  if (97 <=? n)%nat && (n <=? 122)%nat then ascii_of_nat (n - 32) else c.

Fixpoint map_string (f : ascii -> ascii) (s : string) : string :=
  match s with
  | EmptyString => EmptyString
  | String c s' => String (f c) (map_string f s')
  end.

Definition toLowerCase : string -> string := map_string lower_char.
Definition toUpperCase : string -> string := map_string upper_char.

Definition padStart2 (s : string) : string :=
  zeros (2 - String.length s) ++ s.

(** A string as a condition: only the empty string is falsy. *)
Definition truthy (s : string) : bool := negb (s =? "")%string.

(** [a || b] on strings that may be absent. *)
Definition or_else (a : option string) (b : option string) : option string :=
  match a with
  | Some s => if truthy s then a else b
  | None => b
  end.

(* ------------------------------------------------------------------ *)
(** ** JSON values, as [res.json] sends them *)

Inductive json :=
| JNull
| JBool (b : bool)
| JNumber (x : number)
| JString (s : string)
| JArray (l : list json)
| JObject (members : list (string * json)).

(** [JSON.stringify] writes a number that is not finite as [null], and both
    zeros as [0]. *)
Definition json_of_number (x : number) : json :=
  if is_finite x then (if is_zero x then JNumber 0 else JNumber x) else JNull.

Definition json_keys (j : json) : list string :=
  match j with
  | JObject members => map fst members
  | _ => []
  end.

Definition json_member (k : string) (j : json) : option json :=
  match j with
  | JObject members =>
      match find (fun kv => (fst kv =? k)%string) members with
      | Some kv => Some (snd kv)
      | None => None
      end
  | _ => None
  end.

(** A member of a provider's JSON object that holds a number or a string. *)
Inductive scalar :=
| Missing
| Num (x : number)
| Str (s : string).

(** [parseFloat(v)] converts [v] to a string first: a number reads back as
    itself (and [-0] as [0]), an absent member as [NaN]. *)
Definition parseFloat_of (v : scalar) : number :=
  match v with
  | Missing => nan
  | Num x => if is_zero x then 0%float else x
  | Str s => parseFloat s
  end.

(* ------------------------------------------------------------------ *)
(** ** Arrays, [Map]s and objects *)

(** [l.at(i)]: a negative index counts from the end, and an index out of
    range gives [undefined]. *)
Definition at_ {A} (l : list A) (i : Z) : option A :=
  let n := Z.of_nat (List.length l) in
  let k := if i <? 0 then n + i else i in
  if (k <? 0) || (n <=? k) then None else nth_error l (Z.to_nat k).

(** [Array.prototype.sort] with a comparison function: [before x y] says
    that the function's result on [(x, y)] is negative ([NaN] counts as
    [+0]).  The sort is stable; for a consistent comparison function every
    engine returns what this insertion sort returns. *)
Fixpoint insert_by {A} (before : A -> A -> bool) (x : A) (l : list A) : list A :=
  match l with
  | [] => [x]
  | y :: l' => if before x y then x :: l else y :: insert_by before x l'
  end.

Definition array_sort {A} (before : A -> A -> bool) (l : list A) : list A :=
  fold_left (fun acc x => insert_by before x acc) l [].

(** [l.slice(0, n)]. *)
Definition slice0 {A} (n : nat) (l : list A) : list A := firstn n l.

(** A [Map] with string keys, and an object used as one: the entries in
    insertion order.  Writing an existing key keeps its place. *)
Fixpoint map_get {V} (k : string) (m : list (string * V)) : option V :=
  match m with
  | [] => None
  | (k', v) :: m' => if (k' =? k)%string then Some v else map_get k m'
  end.

Definition map_has {V} (k : string) (m : list (string * V)) : bool :=
  match map_get k m with Some _ => true | None => false end.

Fixpoint map_set {V} (k : string) (v : V) (m : list (string * V)) : list (string * V) :=
  match m with
  | [] => [(k, v)]
  | (k', v') :: m' =>
      if (k' =? k)%string then (k, v) :: m' else (k', v') :: map_set k v m'
  end.

Definition map_values {V} (m : list (string * V)) : list V := map snd m.
Definition Object_keys {V} (m : list (string * V)) : list string := map fst m.

(** [o[k] = v] on a plain object: the assignment to [__proto__] of a value
    that is no object goes to the inherited setter and adds no property. *)
Definition obj_set {V} (k : string) (v : V) (o : list (string * V)) : list (string * V) :=
  if (k =? "__proto__")%string then o else map_set k v o.

(* ------------------------------------------------------------------ *)
(** ** Mover records: [formatMover] *)

Module Mover.
Record t := mk {
  name : string;
  symbol : string;
  performance : string;
  rawChange : number;
  type : string;
  trend : string
}.
End Mover.

(** The template [`${pct >= 0 ? "+" : ""}${pct.toFixed(2)}%`]. *)
Definition signed_percent (pct : number) : string :=
  (if ge pct 0 then "+" else "") ++ toFixed pct 2 ++ "%".

Definition trend_of (pct : number) : string :=
  if ge pct 0 then "positive" else "negative".

Definition formatMover (name symbol : string) (pct : number) (type : string) : Mover.t :=
  {| Mover.name := name;
     Mover.symbol := symbol;
     Mover.performance := signed_percent pct;
     Mover.rawChange := pct;
     Mover.type := type;
     Mover.trend := trend_of pct |}.

(** The percentage change [((current - previous) / previous) * 100]. *)
Definition percent_change (current previous : number) : number :=
  ((current - previous) / previous * 100)%float.

(* ------------------------------------------------------------------ *)
(** ** Constants of the server *)

Definition MOVERS_CACHE_TTL : Z := 2 * 60 * 1000.
Definition GENERIC_TTL : Z := 60 * 1000.
Definition HEATMAP_TTL : Z := 5 * 60 * 1000.
Definition CALENDAR_TTL : Z := 6 * 60 * 60 * 1000.

Definition FOREX_PAIRS : list string :=
  ["EUR/USD"; "GBP/USD"; "USD/JPY"; "USD/ZAR"; "EUR/ZAR"; "GBP/ZAR"; "AUD/USD"; "USD/CHF"].

Definition EODHD_COMMODITIES : list (string * string) :=
  [("Gold", "GLD.US"); ("Silver", "SLV.US"); ("Platinum", "PPLT.US"); ("Crude Oil", "USO.US")].

Definition INDEX_SYMBOLS : list (string * string) :=
  [("S&P 500", "^GSPC"); ("NASDAQ 100", "^NDX"); ("Dow Jones", "^DJI"); ("JSE Top 40", "^J200.JO")].

Definition YAHOO_FOREX_SYMBOLS : list (string * string) :=
  [("EUR/USD", "EURUSD=X"); ("GBP/USD", "GBPUSD=X"); ("USD/JPY", "USDJPY=X");
   ("USD/ZAR", "USDZAR=X"); ("EUR/ZAR", "EURZAR=X"); ("GBP/ZAR", "GBPZAR=X");
   ("AUD/USD", "AUDUSD=X"); ("USD/CHF", "USDCHF=X")].

Definition YAHOO_HEATMAP_SYMBOLS : list (string * string) :=
  [("EUR/USD", "EURUSD=X"); ("GBP/USD", "GBPUSD=X"); ("USD/JPY", "USDJPY=X");
   ("USD/ZAR", "USDZAR=X"); ("EUR/ZAR", "EURZAR=X"); ("GBP/ZAR", "GBPZAR=X");
   ("AUD/USD", "AUDUSD=X"); ("USD/CHF", "USDCHF=X");
   ("Gold", "GC=F"); ("Silver", "SI=F"); ("Crude Oil", "CL=F")].

(** The symbols of [fetchEodCryptoMovers], and those of [/api/crypto] and of
    the crypto heatmap. *)
Definition cryptoMoverSymbols : list (string * string) :=
  [("BTC", "BTC-USD"); ("ETH", "ETH-USD"); ("XRP", "XRP-USD"); ("SOL", "SOL-USD");
   ("ADA", "ADA-USD")].

Definition cryptoSymbols : list (string * string) :=
  [("BTC", "BTC-USD"); ("ETH", "ETH-USD"); ("XRP", "XRP-USD"); ("SOL", "SOL-USD");
   ("ADA", "ADA-USD"); ("DOGE", "DOGE-USD"); ("AVAX", "AVAX-USD"); ("BNB", "BNB-USD");
   ("LTC", "LTC-USD")].

(* ------------------------------------------------------------------ *)
(** ** What the providers answer *)

(** A request made inside a [try] block: it throws, or it returns data. *)
Inductive fetched (A : Type) :=
| Threw
| Got (data : A).
Arguments Threw {A}.
Arguments Got {A} data.

(** A Yahoo chart: [r.data.chart?.result?.[0]] is absent, or it carries
    [indicators.quote[0].close], an array of numbers and [null]s. *)
Inductive chart :=
| NoResult
| Result (close : list (option number)).

(** [close.filter(n => typeof n === "number")]. *)
Fixpoint numbers (close : list (option number)) : list number :=
  match close with
  | [] => []
  | Some x :: r => x :: numbers r
  | None :: r => numbers r
  end.

(** An EODHD real-time quote. *)
Record quote := { close : scalar; previousClose : scalar }.

(** An entry of EODHD's top-movers screener, and the screener's answer. *)
Record stock_item := {
  stock_code : string;
  stock_name : option string;
  change_percent : scalar
}.

Inductive screener :=
| NotAnArray
| Entries (l : list stock_item).

(** An event of the Financial Modeling Prep calendar: text members may be
    absent, and so may the three figures, which are passed on as they are. *)
Module Fmp.
Record t := mk {
  event : option string;
  country : option string;
  date : option string;
  impact : option string;
  currency : option string;
  actual : option json;
  estimate : option json;
  previous : option json
}.
End Fmp.

Inductive calendar_feed :=
| NotAList
| EventList (l : list Fmp.t).

(** The providers as one request cycle sees them.  [yahoo symbol interval
    range] is the chart request; [twelvedata] answers one request for all
    pairs with, per pair, the member [percent_change] ([Missing] when the
    pair or the member is absent); [EODHD_KEY] says whether the key is set. *)
Record providers := {
  yahoo : string -> string -> string -> fetched chart;
  eodhd_real_time : string -> fetched (option quote);
  eodhd_top : string -> fetched screener;
  twelvedata : fetched (string -> scalar);
  fmp : fetched calendar_feed;
  EODHD_KEY : bool
}.

(** The runtime's [Date]: [new Date(s)] as a time value ([None] for an
    invalid date), [toISOString] and the local hours and minutes of a time
    value.  How a date string that is not in the ISO format is read, and
    the time zone, are the engine's. *)
Record dates := {
  parseDate : string -> option Z;
  toISOString : Z -> string;
  getHours : Z -> Z;
  getMinutes : Z -> Z
}.

(** One request: [Date.now()] at the cache check, the providers, [Date.now()]
    when the result of the cycle is stored, local midnight of that day. *)
Record request := {
  now : Z;
  world : providers;
  stored_at : Z;
  runtime : dates;
  todayMidnight : Z
}.

(* ------------------------------------------------------------------ *)
(** ** The percent-change computation of the commodity quotes *)

(** Lines 325-335 and 499-503: [None] is the [continue] that skips the
    symbol. *)
Definition commodityChange (close previousClose : number) : option number :=
  if isNaN close || isNaN previousClose || strict_eq previousClose 0 then None
  else
    let pct := percent_change close previousClose in
    if isNaN pct then None else Some pct.

(* ------------------------------------------------------------------ *)
(** ** The asset-class mover fetchers *)

(** One turn of a loop over chart symbols (crypto movers, index movers). *)
Definition chartMover (type : string) (p : providers) (entry : string * string)
  : list Mover.t :=
  let '(name, symbol) := entry in
  match yahoo p symbol "1d" "5d" with
  | Threw => []
  | Got NoResult => []
  | Got (Result close) =>
      let closes := numbers close in
      if Z.of_nat (List.length closes) <? 2 then []
      else
        let currentPrice := num_of (at_ closes (-1)) in
        let previousPrice := num_of (at_ closes (-2)) in
        [formatMover name symbol (percent_change currentPrice previousPrice) type]
  end.

Definition fetchEodCryptoMovers (p : providers) : list Mover.t :=
  flat_map (chartMover "Crypto" p) cryptoMoverSymbols.

Definition commodityMover (p : providers) (entry : string * string) : list Mover.t :=
  let '(name, symbol) := entry in
  match eodhd_real_time p symbol with
  | Threw => []
  | Got None => []
  | Got (Some q) =>
      match commodityChange (parseFloat_of (close q)) (parseFloat_of (previousClose q)) with
      | None => []
      | Some pct => [formatMover name name pct "Commodity"]
      end
  end.

Definition fetchCommodityMovers (p : providers) : list Mover.t :=
  flat_map (commodityMover p) EODHD_COMMODITIES.

Record stocks := { items : list Mover.t }.

(** [it.name || it.code] and [parseFloat(it.change_percent ?? 0)]. *)
Definition stockMover (it : stock_item) : Mover.t :=
  let name :=
    match stock_name it with
    | Some n => if truthy n then n else stock_code it
    | None => stock_code it
    end in
  let pct :=
    match change_percent it with
    | Missing => parseFloat_of (Num 0)
    | v => parseFloat_of v
    end in
  formatMover name (stock_code it) pct "Stock".

Definition fetchSide (p : providers) (side : string) : stocks :=
  match eodhd_top p side with
  | Threw => {| items := [] |}
  | Got NotAnArray => {| items := [] |}
  | Got (Entries l) => {| items := map stockMover l |}
  end.

Definition fetchEodTopStocks (p : providers) : stocks :=
  if negb (EODHD_KEY p) then {| items := [] |}
  else
    let g := fetchSide p "most_gainer_stocks" in
    let l := fetchSide p "most_loser_stocks" in
    {| items := items g ++ items l |}.

(** [!d?.percent_change]: absent, the empty string, zero and [NaN] are falsy. *)
Definition scalar_truthy (v : scalar) : bool :=
  match v with
  | Missing => false
  | Num x => negb (is_zero x || is_nan x)
  | Str s => truthy s
  end.

Definition forexMover (data : string -> scalar) (pair : string) : list Mover.t :=
  let percent_change := data pair in
  if negb (scalar_truthy percent_change) then []
  else [formatMover pair pair (parseFloat_of percent_change) "Forex"].

Definition fetchForexMovers (p : providers) : list Mover.t :=
  match twelvedata p with
  | Threw => []
  | Got data => flat_map (forexMover data) FOREX_PAIRS
  end.

(* ------------------------------------------------------------------ *)
(** ** The aggregator: [GET /api/all-movers] *)

(** An entry of [Promise.allSettled]: only a fulfilled one has a [value]. *)
Inductive settled (A : Type) :=
| Fulfilled (value : A)
| Rejected.
Arguments Fulfilled {A} value.
Arguments Rejected {A}.

Definition settled_value {A} (r : settled (list A)) : list A :=
  match r with
  | Fulfilled value => value
  | Rejected => []
  end.

(** Lines 587-592: what each settled fetcher adds to [combined]. *)
Definition joinMovers (stocksRes : settled stocks)
  (cryptoRes fxRes comRes : settled (list Mover.t)) : list Mover.t :=
  (match stocksRes with
   | Fulfilled value => items value
   | Rejected => []
   end)
  ++ settled_value cryptoRes ++ settled_value fxRes ++ settled_value comRes.

(** Lines 594-610: the index movers, fetched one after the other. *)
Definition indexMovers (p : providers) : list Mover.t :=
  flat_map (chartMover "Index" p) INDEX_SYMBOLS.

Definition combinedMovers (p : providers) : list Mover.t :=
  joinMovers (Fulfilled (fetchEodTopStocks p)) (Fulfilled (fetchEodCryptoMovers p))
             (Fulfilled (fetchForexMovers p)) (Fulfilled (fetchCommodityMovers p))
  ++ indexMovers p.

(** Lines 612-621: the deduplication into a [Map] keyed by symbol. *)
Definition dedupStep (map : list (string * Mover.t)) (item : Mover.t)
  : list (string * Mover.t) :=
  if negb (map_has (Mover.symbol item) map)
     || gt (Math_abs (Mover.rawChange item))
           (Math_abs (num_of (option_map Mover.rawChange (map_get (Mover.symbol item) map))))
  then map_set (Mover.symbol item) item map
  else map.

Definition dedupMovers (combined : list Mover.t) : list (string * Mover.t) :=
  fold_left dedupStep combined [].

(** Lines 623-625: the comparison function of the ranking, the sort and the
    truncation. *)
Definition byMagnitude (a b : Mover.t) : number :=
  (Math_abs (Mover.rawChange b) - Math_abs (Mover.rawChange a))%float.

Definition negative (v : number) : bool :=
  lt (if isNaN v then 0%float else v) 0.

Definition rankMovers (deduped : list Mover.t) : list Mover.t :=
  slice0 10 (array_sort (fun a b => negative (byMagnitude a b)) deduped).

Definition allMovers (p : providers) : list Mover.t :=
  rankMovers (map_values (dedupMovers (combinedMovers p))).

(* ------------------------------------------------------------------ *)
(** ** The heatmap builder: [GET /api/forex-heatmap], [GET /api/crypto-heatmap] *)

Definition timeframes : list (string * (string * string)) :=
  [("1h", ("5m", "1d")); ("4h", ("15m", "5d")); ("1d", ("1d", "5d")); ("1w", ("1d", "1mo"))].

(** Lines 671-675: the three assignments run in this order. *)
Definition compareIndex (tf : string) (length : Z) : Z :=
  let compareIndex := -2 in
  let compareIndex := if (tf =? "1h")%string && (13 <=? length) then -13 else compareIndex in
  let compareIndex := if (tf =? "4h")%string && (17 <=? length) then -17 else compareIndex in
  let compareIndex := if (tf =? "1w")%string && (8 <=? length) then -8 else compareIndex in
  compareIndex.

(** Lines 660-689: [pct], which stays [null] ([None]) unless it is computed. *)
Definition cellOfCloses (tf : string) (closes : list number) : option number :=
  let length := Z.of_nat (List.length closes) in
  if 2 <=? length then
    let compareIndex := compareIndex tf length in
    if Z.abs compareIndex <=? length then
      let current := num_of (at_ closes (-1)) in
      let previous := num_of (at_ closes compareIndex) in
      Some (percent_change current previous)
    else None
  else None.

Definition heatmapCell (p : providers) (symbol tf interval range : string) : option number :=
  match yahoo p symbol interval range with
  | Threw => None
  | Got NoResult => None
  | Got (Result close) => cellOfCloses tf (numbers close)
  end.

Definition heatmapRow (p : providers) (symbol : string) : list (string * option number) :=
  map (fun '(tf, (interval, range)) => (tf, heatmapCell p symbol tf interval range)) timeframes.

Definition heatmap := list (string * list (string * option number)).

Definition buildHeatmap (p : providers) (symbols : list (string * string)) : heatmap :=
  map (fun '(label, symbol) => (label, heatmapRow p symbol)) symbols.

Definition forexHeatmap (p : providers) : heatmap := buildHeatmap p YAHOO_HEATMAP_SYMBOLS.
Definition cryptoHeatmap (p : providers) : heatmap := buildHeatmap p cryptoSymbols.

(** The body [res.json(results)] sends. *)
Definition cell_json (pct : option number) : json :=
  match pct with
  | None => JNull
  | Some x => json_of_number x
  end.

Definition row_json (tfResults : list (string * option number)) : json :=
  JObject (map (fun '(tf, pct) => (tf, cell_json pct)) tfResults).

Definition heatmap_json (results : heatmap) : json :=
  JObject (map (fun '(label, tfResults) => (label, row_json tfResults)) results).

(* ------------------------------------------------------------------ *)
(** ** The per-class endpoints: indices, forex, crypto, commodities *)

Module Index.
Record t := mk {
  name : string; symbol : string; change : string; latest : string; rawChange : number
}.
End Index.

Module Forex.
Record t := mk {
  pair : string; name : string; change : string; trend : string;
  price : number; rawChange : number
}.
End Forex.

Module Crypto.
Record t := mk {
  name : string; symbol : string; price : string; change : string; trend : string;
  rawChange : number
}.
End Crypto.

Module Commodity.
Record t := mk {
  name : string; symbol : string; change : string; trend : string; price : string;
  rawChange : number
}.
End Commodity.

(** The last two closes of the daily chart of [symbol], when the loop body
    reaches them. *)
Definition dailyCloses (p : providers) (symbol : string) : option (number * number) :=
  match yahoo p symbol "1d" "5d" with
  | Threw => None
  | Got NoResult => None
  | Got (Result close) =>
      let closes := numbers close in
      if Z.of_nat (List.length closes) <? 2 then None
      else Some (num_of (at_ closes (-1)), num_of (at_ closes (-2)))
  end.

Definition indexEntry (p : providers) (entry : string * string) : list Index.t :=
  let '(name, symbol) := entry in
  match dailyCloses p symbol with
  | None => []
  | Some (last, prev) =>
      let pct := percent_change last prev in
      [Index.mk name symbol (signed_percent pct) (toFixed last 2) pct]
  end.

Definition fetchIndices (p : providers) : list Index.t :=
  flat_map (indexEntry p) INDEX_SYMBOLS.

Definition forexEntry (p : providers) (entry : string * string) : list Forex.t :=
  let '(pair_, symbol) := entry in
  match dailyCloses p symbol with
  | None => []
  | Some (last, prev) =>
      let pct := percent_change last prev in
      [Forex.mk pair_ pair_ (signed_percent pct) (trend_of pct) last pct]
  end.

Definition fetchForex (p : providers) : list Forex.t :=
  flat_map (forexEntry p) YAHOO_FOREX_SYMBOLS.

Definition cryptoEntry (p : providers) (entry : string * string) : list Crypto.t :=
  let '(name, symbol) := entry in
  match dailyCloses p symbol with
  | None => []
  | Some (currentPrice, previousPrice) =>
      let pct := percent_change currentPrice previousPrice in
      [Crypto.mk name symbol (toFixed currentPrice 2) (signed_percent pct) (trend_of pct) pct]
  end.

Definition fetchCrypto (p : providers) : list Crypto.t :=
  flat_map (cryptoEntry p) cryptoSymbols.

(** Lines 312-366; the display price is ten times the ETF's, but for oil. *)
Definition commodityEntry (p : providers) (entry : string * string) : list Commodity.t :=
  let '(name, symbol) := entry in
  match eodhd_real_time p symbol with
  | Threw => []
  | Got None => []
  | Got (Some q) =>
      let close := parseFloat_of (close q) in
      match commodityChange close (parseFloat_of (previousClose q)) with
      | None => []
      | Some pct =>
          let displayPrice :=
            if (name =? "Gold")%string then (close * 10)%float
            else if (name =? "Silver")%string then (close * 10)%float
            else if (name =? "Platinum")%string then (close * 10)%float
            else close in
          [Commodity.mk name name (signed_percent pct) (trend_of pct)
                        (toFixed displayPrice 2) pct]
      end
  end.

Definition fetchCommodities (p : providers) : list Commodity.t :=
  array_sort
    (fun a b => negative (Math_abs (Commodity.rawChange b) - Math_abs (Commodity.rawChange a))%float)
    (flat_map (commodityEntry p) EODHD_COMMODITIES).

(* ------------------------------------------------------------------ *)
(** ** The economic calendar: [GET /api/economic-calendar] *)

Module CalendarEvent.
Record t := mk {
  date : string;
  time : string;
  country : string;
  event : string;
  actual : json;
  forecast : json;
  previous : json;
  importance : string;
  currency : string;
  rawDateTime : Z
}.
End CalendarEvent.

Definition text (o : option string) : string :=
  match o with Some s => s | None => "" end.

Definition present (o : option string) : bool := truthy (text o).

(** [new Date(event.date)] as a time value; [NaN] is [None]. *)
Definition eventTime (rt : dates) (e : Fmp.t) : option Z :=
  match Fmp.date e with
  | Some d => parseDate rt d
  | None => None
  end.

(** Lines 823-827. *)
Definition upcoming (rt : dates) (todayMidnight : Z) (e : Fmp.t) : bool :=
  if negb (present (Fmp.event e)) || negb (present (Fmp.country e))
     || negb (present (Fmp.date e))
  then false
  else match eventTime rt e with
       | Some eventDate => todayMidnight <=? eventDate
       | None => false
       end.

Definition highKeywords : list string :=
  ["gdp"; "interest rate"; "nfp"; "non-farm"; "payroll";
   "cpi"; "unemployment"; "inflation"; "fed"; "fomc";
   "central bank"; "rate decision"; "ppi"; "retail sales"].

Definition mediumKeywords : list string :=
  ["pmi"; "trade balance"; "consumer confidence";
   "manufacturing"; "industrial production"; "sentiment"].

(** Lines 835-859. *)
Definition importanceOf (e : Fmp.t) : string :=
  let impact := toLowerCase (if present (Fmp.impact e) then text (Fmp.impact e) else "") in
  if (impact =? "high")%string then "High"
  else if (impact =? "medium")%string then "Medium"
  else if (impact =? "low")%string then "Low"
  else
    let eventName :=
      toLowerCase (if present (Fmp.event e) then text (Fmp.event e) else "") in
    if existsb (fun k => includes eventName k) highKeywords then "High"
    else if existsb (fun k => includes eventName k) mediumKeywords then "Medium"
    else "Low".

(** [v !== null && v !== undefined ? v : null]. *)
Definition or_null (v : option json) : json :=
  match v with
  | Some JNull => JNull
  | Some j => j
  | None => JNull
  end.

(** Lines 828-873: the event is one that passed the first filter, so its
    text members are there and its date is valid. *)
Definition toEvent (rt : dates) (e : Fmp.t) : CalendarEvent.t :=
  let dateTime := match eventTime rt e with Some t => t | None => 0 end in
  let dateOnly := hd "" (split "T" (toISOString rt dateTime)) in
  let hours := padStart2 (digits_of (getHours rt dateTime)) in
  let minutes := padStart2 (digits_of (getMinutes rt dateTime)) in
  {| CalendarEvent.date := dateOnly;
     CalendarEvent.time := hours ++ ":" ++ minutes;
     CalendarEvent.country := text (Fmp.country e);
     CalendarEvent.event := text (Fmp.event e);
     CalendarEvent.actual := or_null (Fmp.actual e);
     CalendarEvent.forecast := or_null (Fmp.estimate e);
     CalendarEvent.previous := or_null (Fmp.previous e);
     CalendarEvent.importance := importanceOf e;
     CalendarEvent.currency :=
       if present (Fmp.currency e) then text (Fmp.currency e) else text (Fmp.country e);
     CalendarEvent.rawDateTime := dateTime |}.

Definition majorCountries : list string :=
  ["US"; "GB"; "UK"; "EU"; "JP"; "CN"; "CA"; "AU"; "NZ"; "CH"; "ZA";
   "DE"; "FR"; "IT"; "ES"; "BR"; "MX"; "IN";
   "United States"; "United Kingdom"; "Euro Area"; "Germany";
   "France"; "Japan"; "China"; "Canada"; "Australia"; "South Africa"].

(** Lines 874-885. *)
Definition majorCountry (ev : CalendarEvent.t) : bool :=
  let countryUpper := toUpperCase (CalendarEvent.country ev) in
  existsb (fun c => includes countryUpper (toUpperCase c)
                    || includes (toUpperCase c) countryUpper)
          majorCountries.

(** The comparison function [(a, b) => a.rawDateTime - b.rawDateTime]: time
    values are integers of at most 8.64e15 in magnitude, and the difference
    of two of them has the sign of their exact difference. *)
Definition earlier (a b : CalendarEvent.t) : bool :=
  CalendarEvent.rawDateTime a - CalendarEvent.rawDateTime b <? 0.

(** Lines 822-887. *)
Definition calendarEvents (rt : dates) (todayMidnight : Z) (data : list Fmp.t)
  : list CalendarEvent.t :=
  slice0 100
    (array_sort earlier
       (filter majorCountry (map (toEvent rt) (filter (upcoming rt todayMidnight) data)))).

(** An event as [res.json] sends it: a [Date] is written by [toISOString]. *)
Definition event_json (rt : dates) (ev : CalendarEvent.t) : json :=
  JObject
    [("date", JString (CalendarEvent.date ev));
     ("time", JString (CalendarEvent.time ev));
     ("country", JString (CalendarEvent.country ev));
     ("event", JString (CalendarEvent.event ev));
     ("actual", CalendarEvent.actual ev);
     ("forecast", CalendarEvent.forecast ev);
     ("previous", CalendarEvent.previous ev);
     ("importance", JString (CalendarEvent.importance ev));
     ("currency", JString (CalendarEvent.currency ev));
     ("rawDateTime", JString (toISOString rt (CalendarEvent.rawDateTime ev)))].

Definition calendar_json (rt : dates) (events : list CalendarEvent.t) : json :=
  JArray (map (event_json rt) events).

(* ------------------------------------------------------------------ *)
(** ** The cache layer and the cached handlers *)

(** The sixteen module-level variables of lines 41-56. *)
Record caches := {
  moversCache : option (list Mover.t);             moversCacheTimestamp : Z;
  indicesCache : option (list Index.t);            indicesCacheTime : Z;
  forexCache : option (list Forex.t);              forexCacheTime : Z;
  heatmapCache : option heatmap;                   heatmapCacheTime : Z;
  cryptoCache : option (list Crypto.t);            cryptoCacheTime : Z;
  commoditiesCache : option (list Commodity.t);    commoditiesCacheTime : Z;
  cryptoHeatmapCache : option heatmap;             cryptoHeatmapCacheTime : Z;
  calendarCache : option (list CalendarEvent.t);   calendarCacheTime : Z
}.

Definition emptyCaches : caches :=
  {| moversCache := None; moversCacheTimestamp := 0;
     indicesCache := None; indicesCacheTime := 0;
     forexCache := None; forexCacheTime := 0;
     heatmapCache := None; heatmapCacheTime := 0;
     cryptoCache := None; cryptoCacheTime := 0;
     commoditiesCache := None; commoditiesCacheTime := 0;
     cryptoHeatmapCache := None; cryptoHeatmapCacheTime := 0;
     calendarCache := None; calendarCacheTime := 0 |}.

(** The two assignments that store a result, per endpoint. *)
Definition storeMovers (v : list Mover.t) (t : Z) (c : caches) : caches :=
  {| moversCache := Some v; moversCacheTimestamp := t;
     indicesCache := indicesCache c; indicesCacheTime := indicesCacheTime c;
     forexCache := forexCache c; forexCacheTime := forexCacheTime c;
     heatmapCache := heatmapCache c; heatmapCacheTime := heatmapCacheTime c;
     cryptoCache := cryptoCache c; cryptoCacheTime := cryptoCacheTime c;
     commoditiesCache := commoditiesCache c; commoditiesCacheTime := commoditiesCacheTime c;
     cryptoHeatmapCache := cryptoHeatmapCache c; cryptoHeatmapCacheTime := cryptoHeatmapCacheTime c;
     calendarCache := calendarCache c; calendarCacheTime := calendarCacheTime c |}.

Definition storeIndices (v : list Index.t) (t : Z) (c : caches) : caches :=
  {| moversCache := moversCache c; moversCacheTimestamp := moversCacheTimestamp c;
     indicesCache := Some v; indicesCacheTime := t;
     forexCache := forexCache c; forexCacheTime := forexCacheTime c;
     heatmapCache := heatmapCache c; heatmapCacheTime := heatmapCacheTime c;
     cryptoCache := cryptoCache c; cryptoCacheTime := cryptoCacheTime c;
     commoditiesCache := commoditiesCache c; commoditiesCacheTime := commoditiesCacheTime c;
     cryptoHeatmapCache := cryptoHeatmapCache c; cryptoHeatmapCacheTime := cryptoHeatmapCacheTime c;
     calendarCache := calendarCache c; calendarCacheTime := calendarCacheTime c |}.

Definition storeForex (v : list Forex.t) (t : Z) (c : caches) : caches :=
  {| moversCache := moversCache c; moversCacheTimestamp := moversCacheTimestamp c;
     indicesCache := indicesCache c; indicesCacheTime := indicesCacheTime c;
     forexCache := Some v; forexCacheTime := t;
     heatmapCache := heatmapCache c; heatmapCacheTime := heatmapCacheTime c;
     cryptoCache := cryptoCache c; cryptoCacheTime := cryptoCacheTime c;
     commoditiesCache := commoditiesCache c; commoditiesCacheTime := commoditiesCacheTime c;
     cryptoHeatmapCache := cryptoHeatmapCache c; cryptoHeatmapCacheTime := cryptoHeatmapCacheTime c;
     calendarCache := calendarCache c; calendarCacheTime := calendarCacheTime c |}.

Definition storeHeatmap (v : heatmap) (t : Z) (c : caches) : caches :=
  {| moversCache := moversCache c; moversCacheTimestamp := moversCacheTimestamp c;
     indicesCache := indicesCache c; indicesCacheTime := indicesCacheTime c;
     forexCache := forexCache c; forexCacheTime := forexCacheTime c;
     heatmapCache := Some v; heatmapCacheTime := t;
     cryptoCache := cryptoCache c; cryptoCacheTime := cryptoCacheTime c;
     commoditiesCache := commoditiesCache c; commoditiesCacheTime := commoditiesCacheTime c;
     cryptoHeatmapCache := cryptoHeatmapCache c; cryptoHeatmapCacheTime := cryptoHeatmapCacheTime c;
     calendarCache := calendarCache c; calendarCacheTime := calendarCacheTime c |}.

Definition storeCrypto (v : list Crypto.t) (t : Z) (c : caches) : caches :=
  {| moversCache := moversCache c; moversCacheTimestamp := moversCacheTimestamp c;
     indicesCache := indicesCache c; indicesCacheTime := indicesCacheTime c;
     forexCache := forexCache c; forexCacheTime := forexCacheTime c;
     heatmapCache := heatmapCache c; heatmapCacheTime := heatmapCacheTime c;
     cryptoCache := Some v; cryptoCacheTime := t;
     commoditiesCache := commoditiesCache c; commoditiesCacheTime := commoditiesCacheTime c;
     cryptoHeatmapCache := cryptoHeatmapCache c; cryptoHeatmapCacheTime := cryptoHeatmapCacheTime c;
     calendarCache := calendarCache c; calendarCacheTime := calendarCacheTime c |}.

Definition storeCommodities (v : list Commodity.t) (t : Z) (c : caches) : caches :=
  {| moversCache := moversCache c; moversCacheTimestamp := moversCacheTimestamp c;
     indicesCache := indicesCache c; indicesCacheTime := indicesCacheTime c;
     forexCache := forexCache c; forexCacheTime := forexCacheTime c;
     heatmapCache := heatmapCache c; heatmapCacheTime := heatmapCacheTime c;
     cryptoCache := cryptoCache c; cryptoCacheTime := cryptoCacheTime c;
     commoditiesCache := Some v; commoditiesCacheTime := t;
     cryptoHeatmapCache := cryptoHeatmapCache c; cryptoHeatmapCacheTime := cryptoHeatmapCacheTime c;
     calendarCache := calendarCache c; calendarCacheTime := calendarCacheTime c |}.

Definition storeCryptoHeatmap (v : heatmap) (t : Z) (c : caches) : caches :=
  {| moversCache := moversCache c; moversCacheTimestamp := moversCacheTimestamp c;
     indicesCache := indicesCache c; indicesCacheTime := indicesCacheTime c;
     forexCache := forexCache c; forexCacheTime := forexCacheTime c;
     heatmapCache := heatmapCache c; heatmapCacheTime := heatmapCacheTime c;
     cryptoCache := cryptoCache c; cryptoCacheTime := cryptoCacheTime c;
     commoditiesCache := commoditiesCache c; commoditiesCacheTime := commoditiesCacheTime c;
     cryptoHeatmapCache := Some v; cryptoHeatmapCacheTime := t;
     calendarCache := calendarCache c; calendarCacheTime := calendarCacheTime c |}.

Definition storeCalendar (v : list CalendarEvent.t) (t : Z) (c : caches) : caches :=
  {| moversCache := moversCache c; moversCacheTimestamp := moversCacheTimestamp c;
     indicesCache := indicesCache c; indicesCacheTime := indicesCacheTime c;
     forexCache := forexCache c; forexCacheTime := forexCacheTime c;
     heatmapCache := heatmapCache c; heatmapCacheTime := heatmapCacheTime c;
     cryptoCache := cryptoCache c; cryptoCacheTime := cryptoCacheTime c;
     commoditiesCache := commoditiesCache c; commoditiesCacheTime := commoditiesCacheTime c;
     cryptoHeatmapCache := cryptoHeatmapCache c; cryptoHeatmapCacheTime := cryptoHeatmapCacheTime c;
     calendarCache := Some v; calendarCacheTime := t |}.

(** What a handler sends: [res.json(body)], or status 500 with a message. *)
Inductive response (P : Type) :=
| Ok (body : P)
| Error500 (message : string).
Arguments Ok {P} body.
Arguments Error500 {P} message.

(** A handled request: the response, the caches it leaves, and whether the
    provider cycle ran. *)
Record handled (P : Type) := {
  sent : response P;
  left : caches;
  fetched_again : bool
}.
Arguments sent {P} h.
Arguments left {P} h.
Arguments fetched_again {P} h.

(** The guard [cache && Date.now() - cacheTime < TTL]: the cached value when
    the guard holds.  A stored value is an array or an object, hence truthy. *)
Definition reusable {P} (cache : option P) (cacheTime TTL now : Z) : option P :=
  match cache with
  | Some v => if now - cacheTime <? TTL then Some v else None
  | None => None
  end.

Definition fromCache {P} (v : P) (c : caches) : handled P :=
  {| sent := Ok v; left := c; fetched_again := false |}.

Definition allMoversHandler (r : request) (c : caches) : handled (list Mover.t) :=
  match reusable (moversCache c) (moversCacheTimestamp c) MOVERS_CACHE_TTL (now r) with
  | Some cached => fromCache cached c
  | None =>
      let sorted := allMovers (world r) in
      {| sent := Ok sorted; left := storeMovers sorted (stored_at r) c; fetched_again := true |}
  end.

Definition indicesHandler (r : request) (c : caches) : handled (list Index.t) :=
  match reusable (indicesCache c) (indicesCacheTime c) GENERIC_TTL (now r) with
  | Some cached => fromCache cached c
  | None =>
      let results := fetchIndices (world r) in
      {| sent := Ok results; left := storeIndices results (stored_at r) c; fetched_again := true |}
  end.

Definition forexHandler (r : request) (c : caches) : handled (list Forex.t) :=
  match reusable (forexCache c) (forexCacheTime c) GENERIC_TTL (now r) with
  | Some cached => fromCache cached c
  | None =>
      let results := fetchForex (world r) in
      {| sent := Ok results; left := storeForex results (stored_at r) c; fetched_again := true |}
  end.

Definition commoditiesHandler (r : request) (c : caches) : handled (list Commodity.t) :=
  match reusable (commoditiesCache c) (commoditiesCacheTime c) GENERIC_TTL (now r) with
  | Some cached => fromCache cached c
  | None =>
      let results := fetchCommodities (world r) in
      {| sent := Ok results; left := storeCommodities results (stored_at r) c;
         fetched_again := true |}
  end.

Definition cryptoHandler (r : request) (c : caches) : handled (list Crypto.t) :=
  match reusable (cryptoCache c) (cryptoCacheTime c) GENERIC_TTL (now r) with
  | Some cached => fromCache cached c
  | None =>
      let results := fetchCrypto (world r) in
      {| sent := Ok results; left := storeCrypto results (stored_at r) c; fetched_again := true |}
  end.

Definition forexHeatmapHandler (r : request) (c : caches) : handled heatmap :=
  match reusable (heatmapCache c) (heatmapCacheTime c) HEATMAP_TTL (now r) with
  | Some cached => fromCache cached c
  | None =>
      let results := forexHeatmap (world r) in
      {| sent := Ok results; left := storeHeatmap results (stored_at r) c; fetched_again := true |}
  end.

Definition cryptoHeatmapHandler (r : request) (c : caches) : handled heatmap :=
  match reusable (cryptoHeatmapCache c) (cryptoHeatmapCacheTime c) HEATMAP_TTL (now r) with
  | Some cached => fromCache cached c
  | None =>
      let results := cryptoHeatmap (world r) in
      {| sent := Ok results; left := storeCryptoHeatmap results (stored_at r) c;
         fetched_again := true |}
  end.

(** Lines 791-924: a failed request is answered with status 500, a feed that
    is no array or is empty with [[]], and neither is stored. *)
Definition calendarHandler (r : request) (c : caches) : handled (list CalendarEvent.t) :=
  match reusable (calendarCache c) (calendarCacheTime c) CALENDAR_TTL (now r) with
  | Some cached => fromCache cached c
  | None =>
      match fmp (world r) with
      | Threw =>
          {| sent := Error500 "Failed to fetch economic calendar"; left := c;
             fetched_again := true |}
      | Got NotAList => {| sent := Ok []; left := c; fetched_again := true |}
      | Got (EventList []) => {| sent := Ok []; left := c; fetched_again := true |}
      | Got (EventList data) =>
          let events := calendarEvents (runtime r) (todayMidnight r) data in
          {| sent := Ok events; left := storeCalendar events (stored_at r) c;
             fetched_again := true |}
      end
  end.

(** The cached endpoints, what each one caches, and its handler. *)
Inductive endpoint :=
| Indices | ForexQuotes | Commodities | CryptoQuotes
| AllMovers | ForexHeatmap | CryptoHeatmap | EconomicCalendar.

Definition payload (e : endpoint) : Type :=
  match e with
  | Indices => list Index.t
  | ForexQuotes => list Forex.t
  | Commodities => list Commodity.t
  | CryptoQuotes => list Crypto.t
  | AllMovers => list Mover.t
  | ForexHeatmap => heatmap
  | CryptoHeatmap => heatmap
  | EconomicCalendar => list CalendarEvent.t
  end.

Definition handle (e : endpoint) : request -> caches -> handled (payload e) :=
  match e with
  | Indices => indicesHandler
  | ForexQuotes => forexHandler
  | Commodities => commoditiesHandler
  | CryptoQuotes => cryptoHandler
  | AllMovers => allMoversHandler
  | ForexHeatmap => forexHeatmapHandler
  | CryptoHeatmap => cryptoHeatmapHandler
  | EconomicCalendar => calendarHandler
  end.

(** The entry of an endpoint: the cached payload and when it was written. *)
Definition entry (e : endpoint) (c : caches) : option (payload e) * Z :=
  match e with
  | Indices => (indicesCache c, indicesCacheTime c)
  | ForexQuotes => (forexCache c, forexCacheTime c)
  | Commodities => (commoditiesCache c, commoditiesCacheTime c)
  | CryptoQuotes => (cryptoCache c, cryptoCacheTime c)
  | AllMovers => (moversCache c, moversCacheTimestamp c)
  | ForexHeatmap => (heatmapCache c, heatmapCacheTime c)
  | CryptoHeatmap => (cryptoHeatmapCache c, cryptoHeatmapCacheTime c)
  | EconomicCalendar => (calendarCache c, calendarCacheTime c)
  end.

(** The specification's time-to-live per endpoint class, in milliseconds:
    60 s for the per-class quotes, 120 s for the combined movers, 5 min for
    the heatmaps, 6 h for the calendar. *)
Definition spec_TTL (e : endpoint) : Z :=
  match e with
  | Indices | ForexQuotes | Commodities | CryptoQuotes => 60 * 1000
  | AllMovers => 120 * 1000
  | ForexHeatmap | CryptoHeatmap => 5 * 60 * 1000
  | EconomicCalendar => 6 * 3600 * 1000
  end.

(* ------------------------------------------------------------------ *)
(** ** Currency strength: [GET /api/forex-strength] *)

Definition currencyTable : list (string * number) :=
  [("USD", 0%float); ("EUR", 0%float); ("GBP", 0%float); ("JPY", 0%float);
   ("AUD", 0%float); ("CHF", 0%float); ("ZAR", 0%float)].

(** [o[k]] read as a number: a missing property is [undefined], hence [NaN]. *)
Definition prop (o : list (string * number)) (k : string) : number :=
  num_of (map_get k o).

(** [const [base, quote] = item.pair.split("/")], as property keys. *)
Definition baseOf (pair_ : string) : string := nth 0 (split "/" pair_) "undefined".
Definition quoteOf (pair_ : string) : string := nth 1 (split "/" pair_) "undefined".

(** Lines 252-266: one turn of [data.forEach] on [(pairCount, strength)]. *)
Definition strengthStep (st : list (string * number) * list (string * number))
  (item : Forex.t) : list (string * number) * list (string * number) :=
  let '(pairCount, strength) := st in
  let pct := parseFloat (Forex.change item) in
  let base := baseOf (Forex.pair item) in
  let quote := quoteOf (Forex.pair item) in
  let pairCount := obj_set base (prop pairCount base + 1)%float pairCount in
  let pairCount := obj_set quote (prop pairCount quote + 1)%float pairCount in
  if gt pct 0 then
    let strength := obj_set base (prop strength base + pct)%float strength in
    let strength := obj_set quote (prop strength quote - pct)%float strength in
    (pairCount, strength)
  else if lt pct 0 then
    let strength := obj_set base (prop strength base + pct)%float strength in
    let strength := obj_set quote (prop strength quote - pct)%float strength in
    (pairCount, strength)
  else (pairCount, strength).

(** Lines 268-275. *)
Definition averageOf (pairCount strength : list (string * number)) (currency : string)
  : number :=
  if gt (prop pairCount currency) 0
  then (prop strength currency / prop pairCount currency)%float
  else 0%float.

(** Lines 280-283. *)
Definition classify (avg : number) : string :=
  if ge avg 0.3 then "Strong"
  else if le avg (-0.3) then "Weak"
  else "Neutral".

(** The handler: [data] is the body of [/api/forex], or [[]] when the request
    to it failed. *)
Definition forexStrength (forexBody : fetched (list Forex.t)) : list (string * string) :=
  let data := match forexBody with Got d => d | Threw => [] end in
  let '(pairCount, strength) := fold_left strengthStep data (currencyTable, currencyTable) in
  let avgStrength :=
    map (fun currency => (currency, averageOf pairCount strength currency))
        (Object_keys strength) in
  map (fun '(currency, avg) => (currency, classify avg)) avgStrength.

(** The derivation in the specification's words, for one currency: the sum,
    in the order of the records, of the pair's change where the currency is
    the base and of its opposite where it is the quote; the count of the
    places it takes in the pairs; the average of the one over the other, 0
    when the currency is in no pair. *)
Definition contribute (currency : string) (sum : number) (item : Forex.t) : number :=
  let pct := parseFloat (Forex.change item) in
  let sum := if (baseOf (Forex.pair item) =? currency)%string then (sum + pct)%float else sum in
  if (quoteOf (Forex.pair item) =? currency)%string then (sum - pct)%float else sum.

Definition spec_contributions (currency : string) (data : list Forex.t) : number :=
  fold_left (contribute currency) data 0%float.

Definition count_pair (currency : string) (n : number) (item : Forex.t) : number :=
  let n := if (baseOf (Forex.pair item) =? currency)%string then (n + 1)%float else n in
  if (quoteOf (Forex.pair item) =? currency)%string then (n + 1)%float else n.

Definition spec_pairCount (currency : string) (data : list Forex.t) : number :=
  fold_left (count_pair currency) data 0%float.

Definition spec_average (currency : string) (data : list Forex.t) : number :=
  if gt (spec_pairCount currency data) 0
  then (spec_contributions currency data / spec_pairCount currency data)%float
  else 0%float.

Definition spec_class (avg : number) : string :=
  if ge avg 0.3 then "Strong" else if le avg (-0.3) then "Weak" else "Neutral".

(* ------------------------------------------------------------------ *)
(** ** The South African composition: [GET /api/sa-markets] *)

(** The handler reads the bodies of three requests to its own server.  A
    body is JSON: [res.json] wrote every number that is not finite as
    [null] and both zeros as [0], so a number member is read back as a
    finite number or as [null], which is [None] here. *)
Definition reread (x : number) : option number :=
  match json_of_number x with
  | JNumber y => Some y
  | _ => None
  end.

Module IndexBody.
Record t := mk {
  name : string; symbol : string; change : string; latest : string;
  rawChange : option number
}.
End IndexBody.

Module ForexBody.
Record t := mk {
  pair : string; name : string; change : string; trend : string;
  price : option number; rawChange : option number
}.
End ForexBody.

Module CommodityBody.
Record t := mk {
  name : string; symbol : string; change : string; trend : string; price : string;
  rawChange : option number
}.
End CommodityBody.

(** The records of [/api/indices], [/api/forex] and [/api/commodities] as
    they are read from the bodies these endpoints send. *)
Definition indexRead (idx : Index.t) : IndexBody.t :=
  IndexBody.mk (Index.name idx) (Index.symbol idx) (Index.change idx) (Index.latest idx)
               (reread (Index.rawChange idx)).

Definition forexRead (fx : Forex.t) : ForexBody.t :=
  ForexBody.mk (Forex.pair fx) (Forex.name fx) (Forex.change fx) (Forex.trend fx)
               (reread (Forex.price fx)) (reread (Forex.rawChange fx)).

Definition commodityRead (comm : Commodity.t) : CommodityBody.t :=
  CommodityBody.mk (Commodity.name comm) (Commodity.symbol comm) (Commodity.change comm)
                   (Commodity.trend comm) (Commodity.price comm)
                   (reread (Commodity.rawChange comm)).

Module SaCommodity.
Record t := mk {
  name : string; priceZAR : string; change : string; rawChange : option number
}.
End SaCommodity.

Record next_event := { event_name : string; event_date : string }.

Record sa_markets := {
  indices : list IndexBody.t;
  forex : list ForexBody.t;
  commodities : list SaCommodity.t;
  nextEvent : next_event
}.

(** [s.replace(/\B(?=(\d{3})+(?!\d))/g, ",")]: a comma goes wherever the
    characters on both sides are both word characters or both not, and what
    follows is a run of digits whose length is a positive multiple of 3. *)
Definition is_word (c : ascii) : bool :=
  let n := nat_of_ascii c in
  is_digit c || ((65 <=? n)%nat && (n <=? 90)%nat) || ((97 <=? n)%nat && (n <=? 122)%nat)
  || (n =? 95)%nat.

Fixpoint digit_run (s : string) : nat :=
  match s with
  | String c s' => if is_digit c then S (digit_run s') else O
  | EmptyString => O
  end.

Fixpoint group_thousands (before_is_word : bool) (s : string) : string :=
  match s with
  | EmptyString => EmptyString
  | String c s' =>
      let d := digit_run s in
      let here :=
        Bool.eqb before_is_word (is_word c) && (3 <=? d)%nat && (d mod 3 =? 0)%nat in
      (if here then "," else "") ++ String c (group_thousands (is_word c) s')
  end.

(** The bodies of the three requests the handler makes to its own server;
    a failed request is caught and read as [[]]. *)
Record own_endpoints := {
  indicesBody : fetched (list IndexBody.t);
  forexBody : fetched (list ForexBody.t);
  commoditiesBody : fetched (list CommodityBody.t)
}.

(** What the handler reads when the three endpoints send these results. *)
Definition ownBodies (indices : list Index.t) (forex : list Forex.t)
  (commodities : list Commodity.t) : own_endpoints :=
  {| indicesBody := Got (map indexRead indices);
     forexBody := Got (map forexRead forex);
     commoditiesBody := Got (map commodityRead commodities) |}.

Definition body_or_empty {A} (r : fetched (list A)) : list A :=
  match r with Got data => data | Threw => [] end.

(** Lines 1125-1126: the price of the record found, which may be [null], or
    18.75. *)
Definition usdZarRate (zarForex : list ForexBody.t) : option number :=
  match find (fun fx => (ForexBody.pair fx =? "USD/ZAR")%string) zarForex with
  | Some usdZarPair => ForexBody.price usdZarPair
  | None => Some 18.75%float
  end.

(** [ToNumber(null)] is [+0]: [null] as an operand of [*]. *)
Definition null_as_number (v : option number) : number :=
  match v with Some x => x | None => 0%float end.

(** Lines 1128-1138. *)
Definition commodityInZAR (usdZarRate : option number) (comm : CommodityBody.t)
  : SaCommodity.t :=
  let priceUSD := parseFloat (CommodityBody.price comm) in
  let priceZAR := (priceUSD * null_as_number usdZarRate)%float in
  {| SaCommodity.name := CommodityBody.name comm;
     SaCommodity.priceZAR := "R " ++ group_thousands false (toFixed priceZAR 0);
     SaCommodity.change := CommodityBody.change comm;
     SaCommodity.rawChange := CommodityBody.rawChange comm |}.

Definition saMarkets (own : own_endpoints) : response sa_markets :=
  let allIndices := body_or_empty (indicesBody own) in
  let jseIndices :=
    filter (fun idx => includes (IndexBody.name idx) "JSE"
                       || includes (IndexBody.symbol idx) ".JO")
           allIndices in
  let allForex := body_or_empty (forexBody own) in
  let zarForex := filter (fun fx => includes (ForexBody.pair fx) "ZAR") allForex in
  let allCommodities := body_or_empty (commoditiesBody own) in
  let usdZarRate := usdZarRate zarForex in
  let commoditiesInZAR := map (commodityInZAR usdZarRate) allCommodities in
  Ok {| indices := jseIndices;
        forex := zarForex;
        commodities := commoditiesInZAR;
        nextEvent := {| event_name := "SARB Interest Rate Decision";
                        event_date := "March 27, 2026" |} |}.

(* ------------------------------------------------------------------ *)
(** ** The stock lists: [GET /api/jse-stocks], [GET /api/us-stocks] *)

Module Stock.
Record t := mk {
  name : string; symbol : string; price : string; change : string; trend : string;
  rawChange : number; currency : string
}.
End Stock.

Definition JSE_SYMBOLS : list (string * string) :=
  [("Naspers", "NPN.JO"); ("Prosus", "PRX.JO"); ("Anglo American", "AGL.JO");
   ("BHP Group", "BHP.JO"); ("Standard Bank", "SBK.JO"); ("FirstRand", "FSR.JO");
   ("MTN Group", "MTN.JO"); ("Sasol", "SOL.JO"); ("Shoprite", "SHP.JO");
   ("Capitec Bank", "CPI.JO"); ("Sanlam", "SLM.JO"); ("Nedbank", "NED.JO");
   ("Vodacom", "VOD.JO"); ("Impala Platinum", "IMP.JO"); ("Gold Fields", "GFI.JO")].

Definition US_SYMBOLS : list (string * string) :=
  [("Apple", "AAPL.US"); ("Microsoft", "MSFT.US"); ("Amazon", "AMZN.US");
   ("Google", "GOOGL.US"); ("Tesla", "TSLA.US"); ("NVIDIA", "NVDA.US");
   ("Meta", "META.US"); ("JPMorgan", "JPM.US"); ("Visa", "V.US");
   ("Coca-Cola", "KO.US"); ("Johnson & Johnson", "JNJ.US"); ("Walmart", "WMT.US");
   ("Mastercard", "MA.US"); ("Pfizer", "PFE.US"); ("Netflix", "NFLX.US")].

(** The comparison function [(a, b) => Math.abs(b.rawChange) -
    Math.abs(a.rawChange)] of lines 1003 and 1091. *)
Definition byStockMagnitude (a b : Stock.t) : number :=
  (Math_abs (Stock.rawChange b) - Math_abs (Stock.rawChange a))%float.

(** Lines 951-1001: one turn of the loop over [JSE_SYMBOLS]. *)
Definition jseEntry (p : providers) (entry : string * string) : list Stock.t :=
  let '(name, symbol) := entry in
  match dailyCloses p symbol with
  | None => []
  | Some (currentPrice, previousPrice) =>
      if isNaN currentPrice || isNaN previousPrice || strict_eq previousPrice 0 then []
      else
        let pct := percent_change currentPrice previousPrice in
        if isNaN pct then []
        else [Stock.mk name symbol ("R " ++ toFixed currentPrice 2) (signed_percent pct)
                       (trend_of pct) pct "ZAR"]
  end.

(** Lines 929-1013.  Nothing outside the inner [try] can throw, so the
    answer is always the sorted list. *)
Definition jseStocks (p : providers) : response (list Stock.t) :=
  let results := flat_map (jseEntry p) JSE_SYMBOLS in
  Ok (array_sort (fun a b => negative (byStockMagnitude a b)) results).

(** Lines 1044-1089: one turn of the loop over [US_SYMBOLS]. *)
Definition usEntry (p : providers) (entry : string * string) : list Stock.t :=
  let '(name, symbol) := entry in
  match eodhd_real_time p symbol with
  | Threw => []
  | Got None => []
  | Got (Some q) =>
      let close := parseFloat_of (close q) in
      let previousClose := parseFloat_of (previousClose q) in
      if isNaN close || isNaN previousClose || strict_eq previousClose 0 then []
      else
        let currentPrice := close in
        let previousPrice := previousClose in
        let pct := percent_change currentPrice previousPrice in
        if isNaN pct then []
        else [Stock.mk name symbol ("$" ++ toFixed currentPrice 2) (signed_percent pct)
                       (trend_of pct) pct "USD"]
  end.

(** Lines 1018-1101. *)
Definition usStocks (p : providers) : response (list Stock.t) :=
  if negb (EODHD_KEY p) then Error500 "EODHD API key not configured"
  else
    let results := flat_map (usEntry p) US_SYMBOLS in
    Ok (array_sort (fun a b => negative (byStockMagnitude a b)) results).

(* ------------------------------------------------------------------ *)
(** ** The properties the specification states, as predicates *)

Definition magnitude (r : Mover.t) : number := Math_abs (Mover.rawChange r).

(** No record of the list has [NaN] for its raw change. *)
Definition all_numbers (l : list Mover.t) : Prop :=
  Forall (fun r => isNaN (Mover.rawChange r) = false) l.

(** For every record of [combined], the record kept under its symbol is at
    least as large in magnitude. *)
Definition keeps_largest (combined : list Mover.t) : Prop :=
  forall r, In r combined ->
    exists kept,
      map_get (Mover.symbol r) (dedupMovers combined) = Some kept
      /\ le (magnitude r) (magnitude kept) = true.

(** What the [Map] holds after the records [seen]: under each symbol a
    record of [seen] with that symbol, than which none of its symbol is
    larger in magnitude. *)
Definition dedup_invariant (seen : list Mover.t) (map : list (string * Mover.t)) : Prop :=
  NoDup (Object_keys map)
  /\ (forall s kept, map_get s map = Some kept -> Mover.symbol kept = s /\ In kept seen)
  /\ (forall r, In r seen ->
        exists kept, map_get (Mover.symbol r) map = Some kept
                     /\ lt (magnitude kept) (magnitude r) = false).

(** Every record is at least as large in magnitude as those after it. *)
Definition descending (l : list Mover.t) : Prop :=
  StronglySorted (fun a b => le (magnitude b) (magnitude a) = true) l.

(** The lookback offset in the specification's words: the second-to-last
    sample, but the 13th, 17th or 8th from the end for 1h, 4h or 1w when
    the series has that many samples. *)
Definition spec_offset (tf : string) (length : Z) : Z :=
  if (tf =? "1h")%string && (13 <=? length) then 13
  else if (tf =? "4h")%string && (17 <=? length) then 17
  else if (tf =? "1w")%string && (8 <=? length) then 8
  else 2.

(** A cell that cannot be computed: the request failed or had no result,
    the filtered series has fewer than two closes, or the baseline close is
    zero or not finite. *)
Definition not_computable (tf : string) (answer : fetched chart) : Prop :=
  match answer with
  | Threw => True
  | Got NoResult => True
  | Got (Result close) =>
      let closes := numbers close in
      let length := Z.of_nat (List.length closes) in
      length < 2
      \/ (let previous := num_of (at_ closes (compareIndex tf length)) in
          strict_eq previous 0 = true \/ is_finite previous = false)
  end.

(** Every record's change reads as a number. *)
Definition changes_are_numbers (data : list Forex.t) : Prop :=
  Forall (fun item => isNaN (parseFloat (Forex.change item)) = false) data.

(** A number that is not the negative zero. *)
Definition not_negative_zero (x : number) : Prop := Prim2SF x <> S754_zero true.

(** Every event is no later than those after it. *)
Definition ascending (l : list CalendarEvent.t) : Prop :=
  StronglySorted
    (fun a b => CalendarEvent.rawDateTime a <= CalendarEvent.rawDateTime b) l.

(* ------------------------------------------------------------------ *)
(** ** Further predicates: digits, orders of magnitude, keys *)

(** Every character of the string is a decimal digit. *)
Fixpoint all_digits (s : string) : bool :=
  match s with
  | EmptyString => true
  | String c s' => is_digit c && all_digits s'
  end.

(** The first character of a string, when it has one. *)
Definition first_char (s : string) : option ascii :=
  match s with
  | String c _ => Some c
  | EmptyString => None
  end.

(** A digit or a point: what a number written in fixed notation begins
    with. *)
Definition digit_or_point (c : ascii) : bool := is_digit c || (c =? ".")%char.

(** Every record is at least as large in magnitude of [raw] as those after
    it. *)
Definition descending_by {A} (raw : A -> number) (l : list A) : Prop :=
  StronglySorted (fun a b => le (Math_abs (raw b)) (Math_abs (raw a)) = true) l.

(** No record has [NaN] for [raw]. *)
Definition numeric_by {A} (raw : A -> number) (l : list A) : Prop :=
  Forall (fun r => isNaN (raw r) = false) l.

(** Made of three digits. *)
Definition three_digits (g : string) : Prop :=
  all_digits g = true /\ String.length g = 3%nat.


(* ================================================================== *)
(** * Part II. Properties                                              *)
(* ================================================================== *)

(* ------------------------------------------------------------------ *)
(** ** Numbers: order, and the sign of a difference *)

Section Numbers.
Local Open Scope float_scope.

Lemma Prim2SF_zero : Prim2SF 0 = S754_zero false.
Proof. reflexivity. Qed.
Lemma Prim2SF_infinity : Prim2SF infinity = S754_infinity false.
Proof. reflexivity. Qed.
Lemma Prim2SF_hundred : Prim2SF 100 = S754_finite false 7036874417766400 (-46)%Z.
Proof. reflexivity. Qed.

Lemma SFcompare_refl X : X <> S754_nan -> SFcompare X X = Some Eq.
Proof.
  destruct X as [s|s| |s m e]; simpl; try congruence; intros _.
  - destruct s; reflexivity.
  - destruct s; rewrite Z.compare_refl, Pos.compare_cont_refl; reflexivity.
Qed.

Lemma is_nan_spec x : is_nan x = true <-> Prim2SF x = S754_nan.
Proof.
  unfold is_nan. rewrite FloatAxioms.eqb_spec. unfold SFeqb. split.
  - intros H. destruct (Prim2SF x) eqn:E; try reflexivity;
    rewrite SFcompare_refl in H by congruence; discriminate.
  - intros ->. reflexivity.
Qed.

Lemma SFcompare_key X Y :
  X <> S754_nan -> Y <> S754_nan ->
  exists c, SFcompare X Y = Some c /\
   (c = Lt <-> lexlt (SFkey X) (SFkey Y)) /\
   (c = Eq <-> SFkey X = SFkey Y) /\
   (c = Gt <-> lexlt (SFkey Y) (SFkey X)).
Proof.
  intros HX HY.
  destruct X as [s1|s1| |s1 m1 e1]; try congruence;
  destruct Y as [s2|s2| |s2 m2 e2]; try congruence;
  simpl; eexists; (split; [reflexivity|]);
  try (destruct s1); try (destruct s2); simpl;
  try (repeat split; intros; try discriminate; try reflexivity; try lia; try congruence; fail).
  all: rewrite Pos.compare_cont_spec; simpl;
    destruct (Z.compare_spec e1 e2); destruct (Pos.compare_spec m1 m2); simpl;
    repeat split; intros; try discriminate; try reflexivity; try lia; try congruence;
    try (f_equal; lia); try (match goal with H : (_, _, _) = (_, _, _) |- _ => inversion H; lia end).
Qed.

Lemma is_nan_false x : is_nan x = false <-> Prim2SF x <> S754_nan.
Proof.
  rewrite <- is_nan_spec. destruct (is_nan x); split; congruence.
Qed.

Lemma lexlt_trans a b c : lexlt a b -> lexlt b c -> lexlt a c.
Proof.
  destruct a as [[a1 a2] a3], b as [[b1 b2] b3], c as [[c1 c2] c3].
  unfold lexlt. lia.
Qed.

Lemma lexlt_irrefl a : ~ lexlt a a.
Proof. destruct a as [[a1 a2] a3]. unfold lexlt. lia. Qed.

Lemma lex_total a b : lexlt a b \/ a = b \/ lexlt b a.
Proof.
  destruct a as [[a1 a2] a3], b as [[b1 b2] b3]. unfold lexlt.
  destruct (Z.lt_total a1 b1) as [?|[?|?]]; try lia.
  destruct (Z.lt_total a2 b2) as [?|[?|?]]; try lia.
  destruct (Z.lt_total a3 b3) as [?|[?|?]]; try lia.
  right; left. congruence.
Qed.

Lemma ltb_key x y :
  (x <? y) = true <->
  (is_nan x = false /\ is_nan y = false /\ lexlt (SFkey (Prim2SF x)) (SFkey (Prim2SF y))).
Proof.
  rewrite ltb_spec, !is_nan_false. unfold SFltb. split.
  - intros H.
    assert (HX : Prim2SF x <> S754_nan) by (intros E; rewrite E in H; discriminate).
    assert (HY : Prim2SF y <> S754_nan)
      by (intros E; rewrite E in H; destruct (Prim2SF x); discriminate).
    destruct (SFcompare_key _ _ HX HY) as (c & Hc & Hlt & _).
    rewrite Hc in H. destruct c; try discriminate. intuition.
  - intros (HX & HY & Hl).
    destruct (SFcompare_key _ _ HX HY) as (c & Hc & Hlt & _).
    rewrite Hc. apply Hlt in Hl. now subst c.
Qed.

Lemma leb_key x y :
  (x <=? y) = true <->
  (is_nan x = false /\ is_nan y = false /\ lexle (SFkey (Prim2SF x)) (SFkey (Prim2SF y))).
Proof.
  rewrite leb_spec, !is_nan_false. unfold SFleb, lexle. split.
  - intros H.
    assert (HX : Prim2SF x <> S754_nan) by (intros E; rewrite E in H; discriminate).
    assert (HY : Prim2SF y <> S754_nan)
      by (intros E; rewrite E in H; destruct (Prim2SF x); discriminate).
    destruct (SFcompare_key _ _ HX HY) as (c & Hc & Hlt & Heq & _).
    rewrite Hc in H. destruct c; try discriminate; intuition.
  - intros (HX & HY & Hl).
    destruct (SFcompare_key _ _ HX HY) as (c & Hc & Hlt & Heq & _).
    rewrite Hc. destruct Hl as [Hl|Hl].
    + apply Hlt in Hl. now subst c.
    + apply Heq in Hl. now subst c.
Qed.

Lemma leb_trans x y z : (x <=? y) = true -> (y <=? z) = true -> (x <=? z) = true.
Proof.
  rewrite !leb_key. intros (Hx & Hy & H1) (_ & Hz & H2). repeat split; trivial.
  destruct H1 as [H1|H1], H2 as [H2|H2].
  - left. eapply lexlt_trans; eauto.
  - left. now rewrite <- H2.
  - left. now rewrite H1.
  - right. congruence.
Qed.

Lemma leb_refl x : is_nan x = false -> (x <=? x) = true.
Proof. intros H. apply leb_key. repeat split; trivial. now right. Qed.

Lemma ltb_leb x y : (x <? y) = true -> (x <=? y) = true.
Proof.
  rewrite ltb_key, leb_key. intros (? & ? & ?). repeat split; trivial. now left.
Qed.

Lemma ltb_false_leb x y :
  is_nan x = false -> is_nan y = false -> (x <? y) = false -> (y <=? x) = true.
Proof.
  intros Hx Hy H. apply leb_key. repeat split; trivial.
  destruct (lex_total (SFkey (Prim2SF x)) (SFkey (Prim2SF y))) as [L|[E|G]].
  - assert (C : (x <? y) = true) by (apply ltb_key; auto). congruence.
  - right. congruence.
  - now left.
Qed.

Lemma leb_ltb_false x y : (x <=? y) = true -> (y <? x) = false.
Proof.
  rewrite leb_key. intros (Hx & Hy & H).
  destruct (y <? x) eqn:E; trivial. apply ltb_key in E. destruct E as (_ & _ & L).
  destruct H as [H|H].
  - exfalso. eapply lexlt_irrefl, lexlt_trans; eauto.
  - rewrite H in L. exfalso. eapply lexlt_irrefl; eauto.
Qed.

Lemma abs_is_nan x : is_nan (abs x) = is_nan x.
Proof.
  destruct (is_nan x) eqn:E.
  - apply is_nan_spec. rewrite abs_spec. apply is_nan_spec in E. now rewrite E.
  - apply is_nan_false. rewrite abs_spec. apply is_nan_false in E.
    destruct (Prim2SF x); simpl; congruence.
Qed.

(** *** Rounding never turns a sum that is not zero into zero *)
Local Open Scope Z_scope.

Lemma digits2_pos_size m : digits2_pos m = Pos.size m.
Proof. induction m; simpl; congruence. Qed.

Lemma digits2_upper m : Zpos m < 2 ^ Zpos (digits2_pos m).
Proof.
  rewrite digits2_pos_size. pose proof (Pos.size_gt m) as H.
  rewrite <- Pos2Z.inj_pow. exact H.
Qed.

Lemma digits2_lower m : 2 ^ Zpos (digits2_pos m) <= 2 * Zpos m.
Proof.
  rewrite digits2_pos_size. pose proof (Pos.size_le m) as H.
  rewrite <- Pos2Z.inj_pow. exact H.
Qed.

Lemma shr_1_m mrs : 0 <= shr_m mrs -> shr_m (shr_1 mrs) = shr_m mrs / 2.
Proof.
  destruct mrs as [m r s]. simpl. intros H.
  destruct m as [|p|p]; try lia; simpl.
  - reflexivity.
  - destruct p; simpl.
    + rewrite Pos2Z.inj_xI. apply Z.div_unique with 1; lia.
    + rewrite Pos2Z.inj_xO. apply Z.div_unique with 0; lia.
    + reflexivity.
Qed.

Lemma iter_shr_1_m p : forall mrs, 0 <= shr_m mrs ->
  shr_m (iter_pos shr_1 p mrs) = shr_m mrs / 2 ^ Zpos p.
Proof.
  induction p as [p IH|p IH|]; intros mrs H; simpl iter_pos.
  - assert (H1 : 0 <= shr_m (shr_1 mrs))
      by (rewrite shr_1_m by trivial; apply Z.div_pos; lia).
    assert (H2 : 0 <= shr_m (iter_pos shr_1 p (shr_1 mrs)))
      by (rewrite IH by trivial; apply Z.div_pos; lia).
    rewrite IH, IH, shr_1_m by trivial.
    rewrite !Z.div_div by lia. f_equal.
    replace (Zpos p~1) with (1 + Zpos p + Zpos p) by lia.
    rewrite !Z.pow_add_r by lia. change (2 ^ 1) with 2. ring.
  - assert (H2 : 0 <= shr_m (iter_pos shr_1 p mrs))
      by (rewrite IH by trivial; apply Z.div_pos; lia).
    rewrite IH, IH by trivial. rewrite Z.div_div by lia. f_equal.
    replace (Zpos p~0) with (Zpos p + Zpos p) by lia.
    rewrite Z.pow_add_r by lia. reflexivity.
  - rewrite shr_1_m by trivial. reflexivity.
Qed.

Lemma shr_record_of_loc_m m l : shr_m (shr_record_of_loc m l) = m.
Proof. destruct l as [|[]]; reflexivity. Qed.

Lemma shr_fexp_nonneg m e l :
  0 <= m -> 0 <= shr_m (fst (shr_fexp prec emax m e l)).
Proof.
  intros H. unfold shr_fexp, shr.
  destruct (fexp prec emax (Zdigits2 m + e) - e) as [|p|p]; simpl;
    rewrite ?iter_shr_1_m, ?shr_record_of_loc_m; trivial.
  - apply Z.div_pos; lia.
  - rewrite shr_record_of_loc_m. trivial.
Qed.

Lemma shr_fexp_pos m e l :
  0 < m -> emin <= e ->
  0 < shr_m (fst (shr_fexp prec emax m e l)) /\ emin <= snd (shr_fexp prec emax m e l).
Proof.
  intros Hm He. unfold shr_fexp, shr.
  destruct (fexp prec emax (Zdigits2 m + e) - e) as [|p|p] eqn:En; simpl;
    rewrite ?shr_record_of_loc_m; try (split; lia).
  rewrite iter_shr_1_m by (rewrite shr_record_of_loc_m; lia).
  rewrite shr_record_of_loc_m. split; [|lia].
  destruct m as [|q|q]; try lia. simpl Zdigits2 in En.
  unfold fexp, SpecFloat.emin in *.
  assert (Hp : Zpos p = Zpos (digits2_pos q) - prec) by lia.
  pose proof (digits2_lower q) as HL.
  assert (Hd : Zpos (digits2_pos q) = Zpos p + prec) by lia.
  rewrite Hd in HL. rewrite Z.pow_add_r in HL by (unfold prec; lia).
  apply Z.div_str_pos. split; [lia|].
  assert (2 <= 2 ^ prec) by (unfold prec; change (2 ^ 1 <= 2 ^ 53); apply Z.pow_le_mono_r; lia).
  assert (0 < 2 ^ Zpos p) by (apply Z.pow_pos_nonneg; lia).
  nia.
Qed.

Lemma round_nearest_even_ge m l : m <= round_nearest_even m l.
Proof. destruct l as [|[]]; simpl; try lia. destruct (Z.even m); lia. Qed.

Lemma binary_round_aux_not_nan s m e l :
  0 <= m -> binary_round_aux prec emax s m e l <> S754_nan.
Proof.
  intros H. unfold binary_round_aux.
  pose proof (shr_fexp_nonneg m e l H) as H1.
  destruct (shr_fexp prec emax m e l) as [mrs' e'] eqn:E1. simpl in H1.
  pose proof (round_nearest_even_ge (shr_m mrs') (loc_of_shr_record mrs')) as H2.
  pose proof (shr_fexp_nonneg (round_nearest_even (shr_m mrs') (loc_of_shr_record mrs')) e' loc_Exact
                ltac:(lia)) as H3.
  destruct (shr_fexp prec emax (round_nearest_even _ _) e' loc_Exact) as [mrs'' e''].
  simpl in H3. destruct (shr_m mrs''); try lia; try discriminate.
  destruct (e'' <=? emax - prec); discriminate.
Qed.

Lemma binary_round_aux_pos s m e l :
  0 < m -> emin <= e ->
  (exists m' e', binary_round_aux prec emax s m e l = S754_finite s m' e')
  \/ binary_round_aux prec emax s m e l = S754_infinity s.
Proof.
  intros Hm He. unfold binary_round_aux.
  destruct (shr_fexp_pos m e l Hm He) as [H1 H1'].
  destruct (shr_fexp prec emax m e l) as [mrs' e'] eqn:E1. simpl in H1, H1'.
  pose proof (round_nearest_even_ge (shr_m mrs') (loc_of_shr_record mrs')) as H2.
  destruct (shr_fexp_pos (round_nearest_even (shr_m mrs') (loc_of_shr_record mrs')) e' loc_Exact
                ltac:(lia) H1') as [H3 _].
  destruct (shr_fexp prec emax (round_nearest_even _ _) e' loc_Exact) as [mrs'' e''].
  simpl in H3. destruct (shr_m mrs''); try lia.
  destruct (e'' <=? emax - prec); eauto.
Qed.

Lemma shl_align_exp m e e' : emin <= e -> emin <= e' -> emin <= snd (shl_align m e e').
Proof. unfold shl_align. destruct (e' - e); simpl; trivial. Qed.

Lemma binary_round_pos s m e :
  emin <= e ->
  (exists m' e', binary_round prec emax s m e = S754_finite s m' e')
  \/ binary_round prec emax s m e = S754_infinity s.
Proof.
  intros He. unfold binary_round.
  pose proof (shl_align_exp m e (fexp prec emax (Zpos (digits2_pos m) + e)) He) as H.
  destruct (shl_align m e _) as [mz ez]. simpl in H.
  apply binary_round_aux_pos; [lia|]. apply H. unfold fexp. lia.
Qed.

Lemma binary_round_not_nan s m e : binary_round prec emax s m e <> S754_nan.
Proof.
  unfold binary_round. destruct (shl_align m e _) as [mz ez].
  apply binary_round_aux_not_nan. lia.
Qed.

Lemma binary_normalize_not_nan m e sz : binary_normalize prec emax m e sz <> S754_nan.
Proof.
  destruct m; simpl; try discriminate; apply binary_round_not_nan.
Qed.

Lemma bounded_canonical m e :
  bounded prec emax m e = true ->
  emin <= e /\ Zpos (digits2_pos m) <= prec /\ (Zpos (digits2_pos m) = prec \/ e = emin).
Proof.
  unfold bounded, canonical_mantissa, fexp, SpecFloat.emin.
  rewrite andb_true_iff, Z.eqb_eq, Z.leb_le. lia.
Qed.

Lemma iter_xO m d : Zpos (Pos.iter xO m d) = Zpos m * 2 ^ Zpos d.
Proof.
  induction d using Pos.peano_ind.
  - simpl. lia.
  - rewrite Pos.iter_succ, Pos2Z.inj_xO, IHd, Pos2Z.inj_succ, Z.pow_succ_r by lia. ring.
Qed.

Lemma shl_align_fst m e e' :
  e' <= e -> Zpos (fst (shl_align m e e')) = Zpos m * 2 ^ (e - e').
Proof.
  intros H. unfold shl_align. destruct (e' - e) as [|d|d] eqn:E; cbn [fst]; try lia.
  - replace (e - e') with 0 by lia. rewrite Z.pow_0_r. lia.
  - rewrite iter_xO. replace (e - e') with (Zpos d) by lia. reflexivity.
Qed.

Lemma canonical_order m1 e1 m2 e2 :
  bounded prec emax m1 e1 = true -> bounded prec emax m2 e2 = true ->
  let ez := Z.min e1 e2 in
  let v1 := Zpos m1 * 2 ^ (e1 - ez) in
  let v2 := Zpos m2 * 2 ^ (e2 - ez) in
  (v1 < v2 <-> (e1 < e2 \/ (e1 = e2 /\ Zpos m1 < Zpos m2))) /\
  (v1 = v2 <-> (e1 = e2 /\ Zpos m1 = Zpos m2)).
Proof.
  intros B1 B2 ez v1 v2.
  apply bounded_canonical in B1, B2.
  destruct B1 as (L1 & D1 & C1), B2 as (L2 & D2 & C2).
  pose proof (digits2_upper m1) as U1. pose proof (digits2_lower m1) as W1.
  pose proof (digits2_upper m2) as U2. pose proof (digits2_lower m2) as W2.
  assert (P1 : 2 ^ Zpos (digits2_pos m1) <= 2 ^ prec) by (apply Z.pow_le_mono_r; lia).
  assert (P2 : 2 ^ Zpos (digits2_pos m2) <= 2 ^ prec) by (apply Z.pow_le_mono_r; lia).
  destruct (Z.lt_total e1 e2) as [Hlt|[Heq|Hgt]].
  - assert (Ez : ez = e1) by (unfold ez; lia).
    assert (Hd : Zpos (digits2_pos m2) = prec) by lia.
    assert (Hp : 2 <= 2 ^ (e2 - e1))
      by (change 2 with (2 ^ 1) at 1; apply Z.pow_le_mono_r; lia).
    subst v1 v2. rewrite Ez, Z.sub_diag, Z.pow_0_r, Z.mul_1_r. rewrite Hd in W2.
    split; split; intros; try nia; try lia.
  - assert (Ez : ez = e1) by (unfold ez; lia).
    subst v1 v2. rewrite Ez, <- Heq, Z.sub_diag, Z.pow_0_r, !Z.mul_1_r. lia.
  - assert (Ez : ez = e2) by (unfold ez; lia).
    assert (Hd : Zpos (digits2_pos m1) = prec) by lia.
    assert (Hp : 2 <= 2 ^ (e1 - e2))
      by (change 2 with (2 ^ 1) at 1; apply Z.pow_le_mono_r; lia).
    subst v1 v2. rewrite Ez, Z.sub_diag, Z.pow_0_r, Z.mul_1_r. rewrite Hd in W1.
    split; split; intros; try nia; try lia.
Qed.

Lemma SFsub_abs_sign X Y :
  valid_binary X = true -> valid_binary Y = true ->
  SFltb (SF64sub (SFabs X) (SFabs Y)) (S754_zero false) = SFltb (SFabs X) (SFabs Y).
Proof.
  intros VX VY.
  destruct X as [sx|sx| |sx mx ex], Y as [sy|sy| |sy my ey]; try reflexivity.
  simpl in VX, VY. simpl SFabs. unfold SF64sub, SFsub. simpl cond_Zopp.
  destruct (canonical_order mx ex my ey VX VY) as [Hlt Heq].
  destruct (bounded_canonical _ _ VX) as (LX & _), (bounded_canonical _ _ VY) as (LY & _).
  rewrite !shl_align_fst by lia.
  set (v1 := Zpos mx * 2 ^ (ex - Z.min ex ey)) in *.
  set (v2 := Zpos my * 2 ^ (ey - Z.min ex ey)) in *.
  unfold SFltb at 2. simpl SFcompare. rewrite Pos.compare_cont_spec. simpl.
  destruct (v1 - v2) as [|p|p] eqn:Ed; simpl binary_normalize.
  - assert (E : v1 = v2) by lia. apply Heq in E. destruct E as [E1 E2].
    rewrite E1, Z.compare_refl. injection E2 as ->. rewrite Pos.compare_refl. reflexivity.
  - assert (Hn : ~ v1 < v2) by lia. assert (Hne : v1 <> v2) by lia.
    destruct (binary_round_pos false p (Z.min ex ey) ltac:(lia)) as [(m' & e' & ->)| ->];
    unfold SFltb; simpl;
    destruct (Z.compare_spec ex ey); trivial; try lia;
    destruct (Pos.compare_spec mx my); trivial; try lia.
  - assert (Hl : v1 < v2) by lia. apply Hlt in Hl.
    destruct (binary_round_pos true p (Z.min ex ey) ltac:(lia)) as [(m' & e' & ->)| ->];
    unfold SFltb; simpl;
    destruct (Z.compare_spec ex ey); trivial; try lia;
    destruct (Pos.compare_spec mx my); trivial; try lia.
Qed.

(** *** The primitive operations read on [spec_float] *)
Local Open Scope float_scope.

Lemma sub_abs_sign x y : ((abs x - abs y) <? 0) = (abs x <? abs y).
Proof.
  rewrite !ltb_spec, sub_spec, !abs_spec, Prim2SF_zero.
  apply SFsub_abs_sign; apply Prim2SF_valid.
Qed.

Lemma is_zero_spec x : is_zero x = true <-> exists s, Prim2SF x = S754_zero s.
Proof.
  unfold is_zero. rewrite FloatAxioms.eqb_spec. change (Prim2SF zero) with (S754_zero false).
  unfold SFeqb. destruct (Prim2SF x) as [s|s| |s m e]; simpl; split;
    try discriminate; eauto; try (intros [s' H]; discriminate);
    destruct s; discriminate.
Qed.

Lemma is_infinity_spec x : is_infinity x = true <-> exists s, Prim2SF x = S754_infinity s.
Proof.
  unfold is_infinity. rewrite FloatAxioms.eqb_spec, abs_spec, Prim2SF_infinity.
  unfold SFeqb. destruct (Prim2SF x) as [s|s| |s m e]; simpl; split;
    try discriminate; eauto; intros [s' H]; discriminate.
Qed.

Lemma is_finite_spec x : is_finite x = SFfinite (Prim2SF x).
Proof.
  unfold is_finite.
  destruct (is_nan x) eqn:En.
  - apply is_nan_spec in En. now rewrite En.
  - apply is_nan_false in En. simpl.
    destruct (is_infinity x) eqn:Ei.
    + apply is_infinity_spec in Ei. destruct Ei as [s ->]. reflexivity.
    + destruct (Prim2SF x) as [s|s| |s m e] eqn:E; try reflexivity; try congruence.
      assert (C : is_infinity x = true) by (apply is_infinity_spec; eauto). congruence.
Qed.

Lemma Prim2SF_percent_change c p :
  Prim2SF (percent_change c p) =
  SF64mul (SF64div (SF64sub (Prim2SF c) (Prim2SF p)) (Prim2SF p)) (Prim2SF 100).
Proof. unfold percent_change. now rewrite mul_spec, div_spec, sub_spec. Qed.

Lemma SFsub_not_nan X Y :
  X <> S754_nan -> SFfinite Y = true -> SF64sub X Y <> S754_nan.
Proof.
  intros HX HY. destruct X as [sx|sx| |sx mx ex]; try congruence;
    destruct Y as [sy|sy| |sy my ey]; try discriminate; simpl; try discriminate.
  - destruct sx, sy; discriminate.
  - apply binary_normalize_not_nan.
Qed.

Lemma SFdiv_not_nan D s m e :
  D <> S754_nan -> SF64div D (S754_finite s m e) <> S754_nan.
Proof.
  intros HD. destruct D as [sd|sd| |sd md ed]; try congruence; simpl; try discriminate.
  unfold SF64div, SFdiv, SFdiv_core_binary.
  set (s' := (ed - e - _)%Z).
  set (m' := match s' with Z0 => Zpos md | Zpos _ => Z.shiftl (Zpos md) s' | Zneg _ => 0%Z end).
  assert (Hm : (0 <= m')%Z).
  { unfold m'. destruct s'; try lia. apply Z.shiftl_nonneg. lia. }
  pose proof (Z.div_pos m' (Zpos m) Hm ltac:(lia)) as Hq.
  unfold Z.div in Hq. destruct (Z.div_eucl m' (Zpos m)) as [q r]. simpl in Hq.
  apply binary_round_aux_not_nan. exact Hq.
Qed.

Lemma SFmul_hundred_not_nan Q : Q <> S754_nan -> SF64mul Q (Prim2SF 100) <> S754_nan.
Proof.
  intros HQ. rewrite Prim2SF_hundred.
  destruct Q as [sq|sq| |sq mq eq]; try congruence; simpl; try discriminate.
  apply binary_round_aux_not_nan. lia.
Qed.

(** The change against a previous value that is finite and not zero is a
    number whenever the current value is one. *)
Lemma percent_change_number c p :
  is_nan c = false -> is_finite p = true -> (p =? 0) = false ->
  is_nan (percent_change c p) = false.
Proof.
  intros Hc Hp Hz. apply is_nan_false. rewrite Prim2SF_percent_change.
  apply is_nan_false in Hc. rewrite is_finite_spec in Hp.
  apply SFmul_hundred_not_nan.
  destruct (Prim2SF p) as [s|s| |s m e] eqn:E; try discriminate.
  - assert (C : is_zero p = true) by (apply is_zero_spec; eauto).
    unfold is_zero in C. change zero with 0 in C. congruence.
  - apply SFdiv_not_nan. apply SFsub_not_nan; trivial.
Qed.

(** Against a previous value that is zero, infinite or [NaN] the change is
    not finite; against an infinite one it is [NaN]. *)
Lemma percent_change_of_infinite c p :
  is_infinity p = true -> is_nan (percent_change c p) = true.
Proof.
  intros Hp. apply is_nan_spec. rewrite Prim2SF_percent_change.
  apply is_infinity_spec in Hp. destruct Hp as [s ->].
  destruct (Prim2SF c) as [sc|sc| |sc mc ec]; try reflexivity.
  destruct sc, s; reflexivity.
Qed.

Lemma percent_change_not_finite c p :
  (p =? 0) = true \/ is_finite p = false -> is_finite (percent_change c p) = false.
Proof.
  rewrite !is_finite_spec, Prim2SF_percent_change, Prim2SF_hundred.
  intros [Hz|Hf].
  - assert (Hz' : is_zero p = true) by exact Hz.
    apply is_zero_spec in Hz'. destruct Hz' as [s ->].
    destruct (Prim2SF c) as [sc|sc| |sc mc ec]; try reflexivity.
    destruct sc, s; reflexivity.
  - destruct (Prim2SF p) as [s|s| |s m e]; try discriminate.
    + destruct (Prim2SF c) as [sc|sc| |sc mc ec]; try reflexivity.
      destruct sc, s; reflexivity.
    + destruct (Prim2SF c) as [sc|sc| |sc mc ec]; reflexivity.
Qed.

End Numbers.

(* ------------------------------------------------------------------ *)
(** ** The change calculator of the commodity quotes (C3) *)

(** A quote with an infinite close and a finite previous close is not
    skipped: the guards test [isNaN], and the change is infinite. *)
Lemma commodity_infinite_close_emitted :
  let q := {| close := Str "Infinity"; previousClose := Num 1 |} in
  let p := {| yahoo := fun _ _ _ => Threw;
              eodhd_real_time := fun _ => Got (Some q);
              eodhd_top := fun _ => Threw;
              twelvedata := Threw;
              fmp := Threw;
              EODHD_KEY := true |} in
  is_finite (parseFloat_of (close q)) = false
  /\ commodityChange (parseFloat_of (close q)) (parseFloat_of (previousClose q))
     = Some infinity
  /\ map Mover.rawChange (fetchCommodityMovers p) = [infinity; infinity; infinity; infinity].
Proof.
  cbv zeta. repeat split; vm_compute; reflexivity.
Qed.

(** C3, as amended.  For every current and previous value: when both are
    finite and the previous one is not zero the computation returns
    [(current - previous) / previous * 100]; it skips the symbol exactly
    when the previous value is zero, infinite or [NaN] or the current value
    is [NaN] (the cases in which a guard holds or the result is [NaN]), and
    otherwise returns the change, which is not [NaN]; it is a total
    function, so nothing is thrown; and the two callers emit no record for
    a skipped symbol and one record carrying the change otherwise. *)
Theorem commodity_change_contract (current previous : number) :
  (is_finite current = true -> is_finite previous = true ->
   strict_eq previous 0 = false ->
   commodityChange current previous = Some (percent_change current previous))
  /\ (commodityChange current previous = None <->
      isNaN current = true \/ isNaN previous = true
      \/ strict_eq previous 0 = true \/ is_infinity previous = true)
  /\ (forall pct, commodityChange current previous = Some pct ->
      pct = percent_change current previous /\ isNaN pct = false)
  /\ (forall p name symbol c pc,
      eodhd_real_time p symbol = Got (Some {| close := c; previousClose := pc |}) ->
      parseFloat_of c = current -> parseFloat_of pc = previous ->
      match commodityChange current previous with
      | None => commodityMover p (name, symbol) = []
                /\ commodityEntry p (name, symbol) = []
      | Some pct =>
          commodityMover p (name, symbol) = [formatMover name name pct "Commodity"]
          /\ map Commodity.rawChange (commodityEntry p (name, symbol)) = [pct]
      end).
Proof.
  assert (Hnum : isNaN current = false -> isNaN previous = false ->
                 strict_eq previous 0 = false -> is_infinity previous = false ->
                 isNaN (percent_change current previous) = false).
  { unfold isNaN, strict_eq. intros Hc Hp Hz Hi.
    apply percent_change_number; trivial.
    unfold is_finite. now rewrite Hp, Hi. }
  assert (Hfin : forall x, is_finite x = true -> isNaN x = false /\ is_infinity x = false).
  { unfold is_finite, isNaN. intros x H. apply negb_true_iff, orb_false_iff in H. exact H. }
  split; [|split; [|split]].
  - intros Hc Hp Hz. apply Hfin in Hc, Hp. destruct Hc as [Hc _], Hp as [Hp Hi].
    unfold commodityChange. now rewrite Hc, Hp, Hz, Hnum.
  - unfold commodityChange.
    destruct (isNaN current) eqn:Hc; [simpl; tauto|].
    destruct (isNaN previous) eqn:Hp; [simpl; tauto|].
    destruct (strict_eq previous 0) eqn:Hz; [simpl; tauto|]. simpl.
    destruct (is_infinity previous) eqn:Hi.
    + unfold isNaN. rewrite percent_change_of_infinite by trivial. tauto.
    + rewrite Hnum by trivial. split; [discriminate|].
      intros [H|[H|[H|H]]]; discriminate.
  - unfold commodityChange. intros pct.
    destruct (isNaN current || isNaN previous || strict_eq previous 0); [discriminate|].
    destruct (isNaN (percent_change current previous)) eqn:E; [discriminate|].
    intros H. injection H as <-. auto.
  - intros p name symbol c pc Hq Hcur Hprev.
    unfold commodityMover, commodityEntry. rewrite Hq. simpl close. simpl previousClose.
    rewrite Hcur, Hprev.
    destruct (commodityChange current previous); auto.
Qed.

(** A quote that passes every guard: 110 against 100 is a change of 10. *)
Lemma commodity_change_contract_witness :
  commodityChange 110 100 = Some (percent_change 110 100).
Proof.
  apply (proj1 (commodity_change_contract 110 100)); reflexivity.
Defined.

(* ------------------------------------------------------------------ *)
(** ** Maps in insertion order *)

Section Maps.
Context {V : Type}.
Implicit Types (m : list (string * V)) (k : string) (v : V).

Lemma map_get_set_same k v m : map_get k (map_set k v m) = Some v.
Proof.
  induction m as [|[k' v'] m IH]; simpl.
  - now rewrite String.eqb_refl.
  - destruct (k' =? k)%string eqn:E; simpl.
    + now rewrite String.eqb_refl.
    + now rewrite E.
Qed.

Lemma map_get_set_other k k' v m :
  k <> k' -> map_get k' (map_set k v m) = map_get k' m.
Proof.
  intros Hne. induction m as [|[k0 v0] m IH]; simpl.
  - apply String.eqb_neq in Hne. now rewrite Hne.
  - destruct (k0 =? k)%string eqn:E; simpl.
    + apply String.eqb_eq in E. subst k0.
      apply String.eqb_neq in Hne. now rewrite Hne.
    + now rewrite IH.
Qed.

Lemma map_set_keys k v m :
  Object_keys (map_set k v m) =
  if map_has k m then Object_keys m else (Object_keys m ++ [k])%list.
Proof.
  unfold Object_keys, map_has.
  induction m as [|[k' v'] m IH]; simpl; trivial.
  destruct (k' =? k)%string eqn:E; simpl.
  - apply String.eqb_eq in E. now subst.
  - rewrite IH. now destruct (map_get k m).
Qed.

Lemma map_get_In_keys k m : map_has k m = true <-> In k (Object_keys m).
Proof.
  unfold map_has, Object_keys.
  induction m as [|[k' v'] m IH]; simpl.
  - split; [discriminate|tauto].
  - destruct (k' =? k)%string eqn:E.
    + apply String.eqb_eq in E. tauto.
    + apply String.eqb_neq in E. rewrite IH. tauto.
Qed.

Lemma map_set_NoDup k v m :
  NoDup (Object_keys m) -> NoDup (Object_keys (map_set k v m)).
Proof.
  intros H. rewrite map_set_keys. destruct (map_has k m) eqn:E; trivial.
  apply NoDup_app; trivial.
  - constructor; [simpl; tauto|constructor].
  - intros x Hx [<-|[]]. apply map_get_In_keys in Hx. congruence.
Qed.

Lemma map_get_values k v m : map_get k m = Some v -> In v (map_values m).
Proof.
  unfold map_values. induction m as [|[k' v'] m IH]; simpl; [discriminate|].
  destruct (k' =? k)%string; [intros [= ->]; now left|auto].
Qed.

Lemma map_values_get v m :
  In v (map_values m) -> NoDup (Object_keys m) -> exists k, map_get k m = Some v.
Proof.
  unfold map_values, Object_keys.
  induction m as [|[k' v'] m IH]; simpl; [tauto|].
  intros [<-|Hin] Hnd.
  - exists k'. now rewrite String.eqb_refl.
  - inversion Hnd as [|? ? Hk Hnd']; subst.
    destruct (IH Hin Hnd') as [k Hk'].
    exists k. destruct (k' =? k)%string eqn:E; trivial.
    apply String.eqb_eq in E. subst k'. exfalso. apply Hk.
    assert (Hh : map_has k m = true) by (unfold map_has; now rewrite Hk').
    apply map_get_In_keys in Hh. exact Hh.
Qed.

End Maps.

(* ------------------------------------------------------------------ *)
(** ** Deduplication by symbol (C1) *)

Section Dedup.
Local Open Scope float_scope.

Lemma ltb_irrefl x : (x <? x) = false.
Proof.
  destruct (x <? x) eqn:E; trivial.
  apply ltb_key in E. destruct E as (_ & _ & L). now apply lexlt_irrefl in L.
Qed.

Lemma ltb_trans x y z : (x <? y) = true -> (y <? z) = true -> (x <? z) = true.
Proof.
  rewrite !ltb_key. intros (Hx & _ & H1) (_ & Hz & H2). repeat split; trivial.
  eapply lexlt_trans; eauto.
Qed.

Lemma dedupStep_invariant seen map item :
  dedup_invariant seen map -> dedup_invariant (seen ++ [item]) (dedupStep map item).
Proof.
  intros (Hnd & Hprov & Hmax). unfold dedup_invariant, lt in *.
  unfold dedupStep, map_has.
  destruct (map_get (Mover.symbol item) map) as [old|] eqn:Eold; simpl.
  - change (Math_abs (Mover.rawChange item)) with (magnitude item).
    change (Math_abs (Mover.rawChange old)) with (magnitude old).
    unfold gt. destruct (magnitude old <? magnitude item) eqn:Egt.
    + (* the item replaces the record kept so far *)
      split; [now apply map_set_NoDup|]. split.
      * intros s kept.
        destruct (string_dec (Mover.symbol item) s) as [<-|Hne].
        -- rewrite map_get_set_same. intros [= <-]. split; trivial.
           apply in_or_app. right. now left.
        -- rewrite map_get_set_other by trivial. intros H.
           destruct (Hprov _ _ H) as [? ?]. split; trivial. apply in_or_app. now left.
      * intros r Hr. apply in_app_or in Hr.
        destruct (string_dec (Mover.symbol item) (Mover.symbol r)) as [Heq|Hne].
        -- rewrite <- Heq, map_get_set_same. exists item. split; trivial.
           destruct Hr as [Hr|[<-|[]]]; [|apply ltb_irrefl].
           destruct (Hmax r Hr) as (kept & Hk & Hle).
           rewrite <- Heq, Eold in Hk. injection Hk as <-.
           destruct (magnitude item <? magnitude r) eqn:E; trivial.
           rewrite (ltb_trans _ _ _ Egt E) in Hle. discriminate.
        -- rewrite map_get_set_other by trivial.
           destruct Hr as [Hr|[<-|[]]]; [auto|congruence].
    + (* the record kept so far stays *)
      split; trivial. split.
      * intros s kept H. destruct (Hprov _ _ H) as [? ?]. split; trivial.
        apply in_or_app. now left.
      * intros r Hr. apply in_app_or in Hr. destruct Hr as [Hr|[<-|[]]]; [auto|].
        exists old. auto.
  - (* the symbol is new *)
    split; [now apply map_set_NoDup|]. split.
    + intros s kept.
      destruct (string_dec (Mover.symbol item) s) as [<-|Hne].
      * rewrite map_get_set_same. intros [= <-]. split; trivial.
        apply in_or_app. right. now left.
      * rewrite map_get_set_other by trivial. intros H.
        destruct (Hprov _ _ H) as [? ?]. split; trivial. apply in_or_app. now left.
    + intros r Hr. apply in_app_or in Hr.
      destruct (string_dec (Mover.symbol item) (Mover.symbol r)) as [Heq|Hne].
      * rewrite <- Heq, map_get_set_same. exists item. split; trivial.
        destruct Hr as [Hr|[<-|[]]]; [|apply ltb_irrefl].
        destruct (Hmax r Hr) as (kept & Hk & _). rewrite <- Heq in Hk. congruence.
      * rewrite map_get_set_other by trivial.
        destruct Hr as [Hr|[<-|[]]]; [auto|congruence].
Qed.

Lemma dedup_fold_invariant items : forall seen map,
  dedup_invariant seen map ->
  dedup_invariant (seen ++ items) (fold_left dedupStep items map).
Proof.
  induction items as [|item items IH]; intros seen map H; simpl.
  - now rewrite app_nil_r.
  - replace (seen ++ item :: items)%list with ((seen ++ [item]) ++ items)%list
      by (now rewrite <- app_assoc).
    apply IH. now apply dedupStep_invariant.
Qed.

Lemma dedupMovers_invariant combined : dedup_invariant combined (dedupMovers combined).
Proof.
  apply (dedup_fold_invariant combined [] []).
  split; [constructor|]. split; [discriminate|intros r []].
Qed.

End Dedup.

(** A symbol that the screener lists twice, first with a change that is no
    number and then with -5%: the record kept is the first, whose magnitude
    is not at least that of the second. *)
Lemma dedup_keeps_a_NaN_record :
  let listed change := {| stock_code := "AAA"; stock_name := None;
                          change_percent := Str change |} in
  let p := {| yahoo := fun _ _ _ => Threw;
              eodhd_real_time := fun _ => Threw;
              eodhd_top := fun side =>
                if (side =? "most_gainer_stocks")%string
                then Got (Entries [listed "N/A"])
                else Got (Entries [listed "-5"]);
              twelvedata := Threw;
              fmp := Threw;
              EODHD_KEY := true |} in
  map Mover.symbol (combinedMovers p) = ["AAA"; "AAA"]
  /\ map Mover.rawChange (combinedMovers p) = [nan; (-5)%float]
  /\ map Mover.rawChange (map_values (dedupMovers (combinedMovers p))) = [nan]
  /\ ~ keeps_largest (combinedMovers p).
Proof.
  cbv zeta. repeat split; try (vm_compute; reflexivity).
  intros H.
  destruct (H (formatMover "AAA" "AAA" (-5)%float "Stock")) as (kept & Hk & Hle).
  - vm_compute. right. now left.
  - vm_compute in Hk. injection Hk as <-. vm_compute in Hle. discriminate.
Qed.

(** C1, as amended.  For every combined list of mover records none of whose
    raw changes is [NaN]: the [Map] has one entry per symbol, each a record
    of the list with that symbol, and the record kept for a symbol is at
    least as large in magnitude as every record of the list with that
    symbol; and of two records with one symbol and raw changes +2.0 and
    -5.0 the one kept is the -5.0 one, in whichever order they come. *)
Theorem dedup_keeps_largest (combined : list Mover.t) :
  all_numbers combined ->
  NoDup (Object_keys (dedupMovers combined))
  /\ (forall s kept, map_get s (dedupMovers combined) = Some kept ->
        Mover.symbol kept = s /\ In kept combined)
  /\ keeps_largest combined
  /\ (forall a b : Mover.t,
        Mover.symbol a = Mover.symbol b ->
        Mover.rawChange a = 2%float -> Mover.rawChange b = (-5)%float ->
        map_values (dedupMovers [a; b]) = [b] /\ map_values (dedupMovers [b; a]) = [b]).
Proof.
  intros Hnum. destruct (dedupMovers_invariant combined) as (Hnd & Hprov & Hmax).
  split; [exact Hnd|]. split; [exact Hprov|]. split.
  - intros r Hr. destruct (Hmax r Hr) as (kept & Hk & Hlt).
    exists kept. split; trivial.
    destruct (Hprov _ _ Hk) as [_ Hin].
    unfold all_numbers in Hnum. rewrite Forall_forall in Hnum.
    unfold le, lt, magnitude, Math_abs in *.
    apply ltb_false_leb; trivial; rewrite abs_is_nan; apply Hnum; trivial.
  - intros a b Hsym Ha Hb. unfold dedupMovers, dedupStep, map_has, gt, Math_abs. simpl.
    rewrite <- Hsym. rewrite String.eqb_refl. simpl. rewrite Ha, Hb.
    change (abs 2 <? abs (-5))%float with true.
    change (abs (-5) <? abs 2)%float with false.
    simpl. auto.
Qed.

(** Two records of one symbol, +2% and -5%. *)
Lemma dedup_keeps_largest_witness :
  keeps_largest [formatMover "Gold" "GLD" 2 "Stock"; formatMover "Gold" "GLD" (-5) "Commodity"].
Proof.
  apply (dedup_keeps_largest
           [formatMover "Gold" "GLD" 2 "Stock"; formatMover "Gold" "GLD" (-5) "Commodity"]).
  repeat constructor.
Defined.

(* ------------------------------------------------------------------ *)
(** ** The sort (C2, C9) *)

Section InsertionSort.
Context {A : Type}.
Variable before : A -> A -> bool.

Lemma insert_by_perm x l : Permutation (insert_by before x l) (x :: l).
Proof.
  induction l as [|y l IH]; simpl; [reflexivity|].
  destruct (before x y); [reflexivity|].
  rewrite IH. apply perm_swap.
Qed.

Lemma fold_insert_perm l : forall acc,
  Permutation (fold_left (fun acc x => insert_by before x acc) l acc) (acc ++ l).
Proof.
  induction l as [|x l IH]; intros acc; simpl.
  - now rewrite app_nil_r.
  - rewrite IH, insert_by_perm. apply Permutation_middle.
Qed.

Lemma array_sort_perm l : Permutation (array_sort before l) l.
Proof. apply (fold_insert_perm l []). Qed.

(** On elements that satisfy [P], let [before] decide a total preorder [R]. *)
Variable P : A -> Prop.
Variable R : A -> A -> Prop.
Hypothesis R_trans : forall a b c, R a b -> R b c -> R a c.
Hypothesis before_true : forall a b, P a -> P b -> before a b = true -> R a b.
Hypothesis before_false : forall a b, P a -> P b -> before a b = false -> R b a.

Lemma insert_by_sorted x l :
  P x -> Forall P l -> StronglySorted R l -> StronglySorted R (insert_by before x l).
Proof.
  intros Hx Hl Hs. induction l as [|y l IH]; simpl.
  - repeat constructor.
  - inversion Hl as [|? ? Hy Hl']; subst. inversion Hs as [|? ? Hs' Hall]; subst.
    destruct (before x y) eqn:E.
    + constructor; trivial. constructor.
      * now apply before_true.
      * eapply Forall_impl; [|exact Hall]. intros z Hz.
        eapply R_trans; [|exact Hz]. now apply before_true.
    + constructor; [now apply IH|].
      eapply Permutation_Forall; [symmetry; apply insert_by_perm|].
      constructor; [now apply before_false|exact Hall].
Qed.

Lemma fold_insert_sorted l : forall acc,
  Forall P l -> Forall P acc -> StronglySorted R acc ->
  StronglySorted R (fold_left (fun acc x => insert_by before x acc) l acc).
Proof.
  induction l as [|x l IH]; intros acc Hl Hacc Hs; simpl; trivial.
  inversion Hl; subst. apply IH; trivial.
  - eapply Permutation_Forall; [symmetry; apply insert_by_perm|]. now constructor.
  - now apply insert_by_sorted.
Qed.

Lemma array_sort_sorted l : Forall P l -> StronglySorted R (array_sort before l).
Proof. intros H. apply fold_insert_sorted; trivial; constructor. Qed.

Lemma StronglySorted_prefix l1 l2 : StronglySorted R (l1 ++ l2) -> StronglySorted R l1.
Proof.
  induction l1 as [|x l1 IH]; simpl; intros H; [constructor|].
  inversion H as [|? ? Hs Hall]; subst. constructor; [auto|].
  apply Forall_app in Hall. tauto.
Qed.

End InsertionSort.

Section Ranking.
Local Open Scope float_scope.

Lemma negative_ltb v : negative v = (v <? 0).
Proof.
  unfold negative, lt, isNaN. destruct (is_nan v) eqn:E; trivial.
  destruct (v <? 0) eqn:L; [|reflexivity].
  apply ltb_key in L. destruct L as (L & _). congruence.
Qed.

Lemma before_magnitude a b :
  negative (byMagnitude a b) = (magnitude b <? magnitude a).
Proof. rewrite negative_ltb. apply sub_abs_sign. Qed.

Lemma rank_sorted deduped :
  all_numbers deduped ->
  descending (array_sort (fun a b => negative (byMagnitude a b)) deduped).
Proof.
  intros H. unfold descending.
  apply array_sort_sorted with (P := fun r => isNaN (Mover.rawChange r) = false); trivial.
  - intros a b c Hab Hbc. unfold le in *. eapply leb_trans; eauto.
  - intros a b _ _. rewrite before_magnitude. apply ltb_leb.
  - intros a b Ha Hb. rewrite before_magnitude. unfold le.
    apply ltb_false_leb; unfold magnitude, Math_abs; now rewrite abs_is_nan.
Qed.

End Ranking.

(** A set with a raw change that is no number has no descending order at
    all, so the ranking of it is not one. *)
Lemma ranking_with_NaN_not_descending :
  let a := formatMover "Alpha" "AAA" nan "Stock" in
  let b := formatMover "Beta" "BBB" 5 "Stock" in
  map Mover.symbol (rankMovers [a; b]) = ["AAA"; "BBB"]
  /\ ~ descending (rankMovers [a; b])
  /\ (forall l, Permutation l [a; b] -> ~ descending l).
Proof.
  cbv zeta.
  assert (H : forall l, Permutation l [formatMover "Alpha" "AAA" nan "Stock";
                                      formatMover "Beta" "BBB" 5 "Stock"] ->
                        ~ descending l).
  { intros l Hp Hd. apply Permutation_sym, Permutation_length_2_inv in Hp.
    destruct Hp as [-> | ->]; inversion Hd as [|? ? _ Hall]; subst;
      inversion Hall as [|? ? Hle _]; subst; vm_compute in Hle; discriminate. }
  split; [vm_compute; reflexivity|]. split; [|exact H].
  apply H. unfold rankMovers, slice0.
  rewrite firstn_all2; [apply array_sort_perm|].
  rewrite (Permutation_length (array_sort_perm _ _)). simpl. lia.
Qed.

(** C2, as amended.  For every deduplicated set of mover records: the
    output is the first ten records (all of them when there are fewer) of a
    rearrangement of the set, so it has ten records when the set has at
    least ten; and when no raw change in the set is [NaN], that
    rearrangement, and so the output, is in descending order of magnitude. *)
Theorem ranking_sorted_and_truncated (deduped : list Mover.t) :
  exists rest,
    Permutation (rankMovers deduped ++ rest)%list deduped
    /\ List.length (rankMovers deduped) = Nat.min 10 (List.length deduped)
    /\ (10 <= List.length deduped -> List.length (rankMovers deduped) = 10)%nat
    /\ (all_numbers deduped ->
        descending (rankMovers deduped ++ rest)%list /\ descending (rankMovers deduped)).
Proof.
  set (sorted := array_sort (fun a b => negative (byMagnitude a b)) deduped).
  assert (Hperm : Permutation sorted deduped) by apply array_sort_perm.
  exists (skipn 10 sorted). unfold rankMovers, slice0. fold sorted.
  rewrite firstn_skipn. split; trivial.
  assert (Hlen : List.length (firstn 10 sorted) = Nat.min 10 (List.length deduped)).
  { rewrite length_firstn. now rewrite (Permutation_length Hperm). }
  split; trivial. split.
  - intros H. rewrite Hlen. now apply Nat.min_l.
  - intros Hnum. assert (Hs : descending sorted) by now apply rank_sorted.
    split; trivial. unfold descending in *.
    apply StronglySorted_prefix with (l2 := skipn 10 sorted). now rewrite firstn_skipn.
Qed.

(** Magnitudes 1, 9, 3, 7 come out as 9, 7, 3, 1. *)
Lemma ranking_sorted_and_truncated_witness :
  let l := [formatMover "a" "A" 1 "Stock"; formatMover "b" "B" (-9) "Crypto";
            formatMover "c" "C" 3 "Forex"; formatMover "d" "D" (-7) "Index"] in
  all_numbers l /\ descending (rankMovers l).
Proof.
  cbv zeta. split; [repeat constructor|].
  destruct (ranking_sorted_and_truncated
              [formatMover "a" "A" 1 "Stock"; formatMover "b" "B" (-9) "Crypto";
               formatMover "c" "C" 3 "Forex"; formatMover "d" "D" (-7) "Index"])
    as (rest & _ & _ & _ & H).
  apply H. repeat constructor.
Defined.

(* ------------------------------------------------------------------ *)
(** ** The heatmap cells (C4, C5) *)

Lemma at_from_end {A} (l : list A) (k : Z) :
  0 < k <= Z.of_nat (List.length l) ->
  exists x, at_ l (- k) = Some x
            /\ nth_error l (Z.to_nat (Z.of_nat (List.length l) - k)) = Some x.
Proof.
  intros H. unfold at_.
  replace (- k <? 0) with true by (symmetry; apply Z.ltb_lt; lia).
  replace ((Z.of_nat (List.length l) + - k <? 0)
           || (Z.of_nat (List.length l) <=? Z.of_nat (List.length l) + - k)) with false.
  - replace (Z.of_nat (List.length l) + - k) with (Z.of_nat (List.length l) - k) by lia.
    destruct (nth_error l (Z.to_nat (Z.of_nat (List.length l) - k))) as [x|] eqn:E; eauto.
    apply nth_error_None in E. lia.
  - symmetry. apply orb_false_iff. split; [apply Z.ltb_ge|apply Z.leb_gt]; lia.
Qed.

Lemma compareIndex_spec tf length :
  compareIndex tf length = - spec_offset tf length
  /\ (2 <= length -> 0 < spec_offset tf length <= length).
Proof.
  unfold compareIndex, spec_offset.
  destruct (tf =? "1h")%string eqn:E1.
  - apply String.eqb_eq in E1. subst tf. simpl.
    destruct (13 <=? length) eqn:L; [apply Z.leb_le in L|]; split; trivial; lia.
  - simpl. destruct (tf =? "4h")%string eqn:E4.
    + apply String.eqb_eq in E4. subst tf. simpl.
      destruct (17 <=? length) eqn:L; [apply Z.leb_le in L|]; split; trivial; lia.
    + simpl. destruct (tf =? "1w")%string eqn:Ew; simpl.
      * destruct (8 <=? length) eqn:L; [apply Z.leb_le in L|]; split; trivial; lia.
      * split; trivial; lia.
Qed.

(** C4.  For every timeframe and every filtered series of at least two
    closes, the baseline is the close at the offset the specification
    gives, counted from the end, and the cell is the change of the last
    close against it. *)
Theorem heatmap_baseline (tf : string) (closes : list number) :
  2 <= Z.of_nat (List.length closes) ->
  let n := Z.of_nat (List.length closes) in
  exists last baseline,
    nth_error closes (Z.to_nat (n - 1)) = Some last
    /\ nth_error closes (Z.to_nat (n - spec_offset tf n)) = Some baseline
    /\ compareIndex tf n = - spec_offset tf n
    /\ cellOfCloses tf closes = Some (percent_change last baseline)
    /\ (forall p symbol interval range close,
          yahoo p symbol interval range = Got (Result close) ->
          numbers close = closes ->
          heatmapCell p symbol tf interval range = Some (percent_change last baseline)).
Proof.
  intros Hlen n. destruct (compareIndex_spec tf n) as [Hci Hrange].
  specialize (Hrange Hlen).
  destruct (at_from_end closes 1 ltac:(lia)) as (last & Hlast & Hnl).
  destruct (at_from_end closes (spec_offset tf n) Hrange) as (baseline & Hbase & Hnb).
  exists last, baseline. fold n in Hnl, Hnb.
  assert (Hcell : cellOfCloses tf closes = Some (percent_change last baseline)).
  { unfold cellOfCloses. fold n.
    replace (2 <=? n) with true by (symmetry; apply Z.leb_le; lia).
    rewrite Hci.
    replace (Z.abs (- spec_offset tf n) <=? n) with true
      by (symmetry; apply Z.leb_le; lia).
    change (-1) with (- (1)). now rewrite Hlast, Hbase. }
  repeat split; trivial.
  intros p symbol interval range close Hy Hn. unfold heatmapCell.
  now rewrite Hy, Hn.
Qed.

(** Twenty closes at one-hour granularity: the baseline is the 13th from
    the end. *)
Lemma heatmap_baseline_witness :
  cellOfCloses "1h" [1; 2; 3; 4; 5; 6; 7; 8; 9; 10; 11; 12; 13; 14; 15; 16; 17; 18; 19; 20]%float
  = Some (percent_change 20 8).
Proof.
  destruct (heatmap_baseline "1h"
              [1; 2; 3; 4; 5; 6; 7; 8; 9; 10; 11; 12; 13; 14; 15; 16; 17; 18; 19; 20]%float)
    as (last & baseline & Hl & Hb & _ & Hc & _).
  - simpl. lia.
  - injection Hl as <-. injection Hb as <-. exact Hc.
Defined.

Lemma cell_json_not_finite current previous :
  strict_eq previous 0 = true \/ is_finite previous = false ->
  cell_json (Some (percent_change current previous)) = JNull.
Proof.
  intros H. unfold cell_json, json_of_number.
  now rewrite percent_change_not_finite.
Qed.

Lemma cell_json_not_computable p symbol tf interval range :
  not_computable tf (yahoo p symbol interval range) ->
  cell_json (heatmapCell p symbol tf interval range) = JNull.
Proof.
  unfold not_computable, heatmapCell.
  destruct (yahoo p symbol interval range) as [|[|close]]; trivial.
  unfold cellOfCloses. intros [Hshort|Hprev].
  - replace (2 <=? Z.of_nat (List.length (numbers close))) with false; trivial.
    symmetry. apply Z.leb_gt. exact Hshort.
  - destruct (2 <=? Z.of_nat (List.length (numbers close))); trivial.
    destruct (Z.abs _ <=? _); trivial.
    now apply cell_json_not_finite.
Qed.

(** C5.  For every symbol, the row of the heatmap is sent with the four
    timeframe keys, whatever the provider answered; the member of a
    timeframe whose cell cannot be computed is [null], in particular when
    the filtered series has one close: [pct] stays [null] when the request
    fails, has no result or the series is short, and with a baseline that
    is zero or not finite it is an infinity or [NaN], which [res.json]
    writes as [null]; and the heatmap has a row for every symbol.  The
    builder is a total function: nothing is thrown. *)
Theorem heatmap_null_policy (p : providers) (symbol : string) :
  json_keys (row_json (heatmapRow p symbol)) = ["1h"; "4h"; "1d"; "1w"]
  /\ (forall tf interval range,
        In (tf, (interval, range)) timeframes ->
        not_computable tf (yahoo p symbol interval range) ->
        json_member tf (row_json (heatmapRow p symbol)) = Some JNull)
  /\ (forall tf interval range close,
        In (tf, (interval, range)) timeframes ->
        yahoo p symbol interval range = Got (Result close) ->
        List.length (numbers close) = 1%nat ->
        json_member tf (row_json (heatmapRow p symbol)) = Some JNull)
  /\ (forall symbols,
        json_keys (heatmap_json (buildHeatmap p symbols)) = map fst symbols).
Proof.
  assert (Hnull : forall tf interval range,
            In (tf, (interval, range)) timeframes ->
            not_computable tf (yahoo p symbol interval range) ->
            json_member tf (row_json (heatmapRow p symbol)) = Some JNull).
  { intros tf interval range Hin Hnc.
    pose proof (cell_json_not_computable p symbol tf interval range Hnc) as Hcell.
    simpl in Hin.
    destruct Hin as [E|[E|[E|[E|[]]]]]; injection E as <- <- <-;
      simpl; now rewrite Hcell. }
  split; [reflexivity|]. split; [exact Hnull|]. split.
  - intros tf interval range close Hin Hy Hlen. apply (Hnull tf interval range Hin).
    unfold not_computable. rewrite Hy. left. rewrite Hlen. simpl. lia.
  - intros symbols. unfold heatmap_json, buildHeatmap. simpl.
    rewrite !map_map. apply map_ext. now intros [label sym].
Qed.

(** A series of one close, for every request. *)
Lemma heatmap_null_policy_witness :
  let p := {| yahoo := fun _ _ _ => Got (Result [Some 1.5%float]);
              eodhd_real_time := fun _ => Threw;
              eodhd_top := fun _ => Threw;
              twelvedata := Threw;
              fmp := Threw;
              EODHD_KEY := false |} in
  json_member "4h" (row_json (heatmapRow p "EURUSD=X")) = Some JNull.
Proof.
  cbv zeta.
  refine (proj1 (proj2 (proj2 (heatmap_null_policy _ "EURUSD=X"))) "4h" "15m" "5d" _ _ _ _).
  - simpl. tauto.
  - reflexivity.
  - reflexivity.
Defined.

(* ------------------------------------------------------------------ *)
(** ** The cache layer (C6) *)

Lemma reusable_spec {P} (cache : option P) (cacheTime TTL now : Z) :
  match reusable cache cacheTime TTL now with
  | Some v => cache = Some v /\ now - cacheTime < TTL
  | None => cache = None \/ ~ now - cacheTime < TTL
  end.
Proof.
  unfold reusable. destruct cache as [v|]; [|now left].
  destruct (now - cacheTime <? TTL) eqn:E.
  - apply Z.ltb_lt in E. now split.
  - apply Z.ltb_ge in E. right. lia.
Qed.

(** The time-to-live the specification gives an endpoint is the constant
    its handler compares with. *)
Lemma spec_TTL_constants (e : endpoint) :
  spec_TTL e = match e with
               | Indices | ForexQuotes | Commodities | CryptoQuotes => GENERIC_TTL
               | AllMovers => MOVERS_CACHE_TTL
               | ForexHeatmap | CryptoHeatmap => HEATMAP_TTL
               | EconomicCalendar => CALENDAR_TTL
               end.
Proof. destruct e; reflexivity. Qed.

(** The handler of every endpoint decides by its entry and that constant. *)
Lemma handle_reuses (e : endpoint) (r : request) (c : caches) :
  match reusable (fst (entry e c)) (snd (entry e c)) (spec_TTL e) (now r) with
  | Some v => handle e r c = fromCache v c
  | None => fetched_again (handle e r c) = true
  end.
Proof.
  rewrite spec_TTL_constants.
  destruct e; cbn [handle entry fst snd payload];
    unfold indicesHandler, forexHandler, commoditiesHandler, cryptoHandler,
           allMoversHandler, forexHeatmapHandler, cryptoHeatmapHandler, calendarHandler;
    match goal with
    | |- context [reusable ?a ?b ?t ?n] => destruct (reusable a b t n)
    end; trivial.
  destruct (fmp (world r)) as [|[|[|d ds]]]; reflexivity.
Qed.

Ltac open_handler :=
  cbn [handle entry fst snd payload];
  unfold indicesHandler, forexHandler, commoditiesHandler, cryptoHandler,
         allMoversHandler, forexHeatmapHandler, cryptoHeatmapHandler, calendarHandler.

(** A request that runs the provider cycle sends the fresh result and, but
    for the calendar when the feed is no list or is empty, stores it under
    its endpoint with the time of writing. *)
Lemma handle_cycle (e : endpoint) (r : request) (c : caches) :
  reusable (fst (entry e c)) (snd (entry e c)) (spec_TTL e) (now r) = None ->
  fetched_again (handle e r c) = true
  /\ sent (handle e r c)
     = match e return response (payload e) with
       | Indices => Ok (fetchIndices (world r))
       | ForexQuotes => Ok (fetchForex (world r))
       | Commodities => Ok (fetchCommodities (world r))
       | CryptoQuotes => Ok (fetchCrypto (world r))
       | AllMovers => Ok (allMovers (world r))
       | ForexHeatmap => Ok (forexHeatmap (world r))
       | CryptoHeatmap => Ok (cryptoHeatmap (world r))
       | EconomicCalendar =>
           match fmp (world r) with
           | Threw => Error500 "Failed to fetch economic calendar"
           | Got NotAList => Ok []
           | Got (EventList data) =>
               Ok (calendarEvents (runtime r) (todayMidnight r) data)
           end
       end
  /\ ((e <> EconomicCalendar \/ exists d ds, fmp (world r) = Got (EventList (d :: ds))) ->
      exists v, sent (handle e r c) = Ok v
                /\ entry e (left (handle e r c)) = (Some v, stored_at r))
  /\ (~ (e <> EconomicCalendar \/ exists d ds, fmp (world r) = Got (EventList (d :: ds))) ->
      left (handle e r c) = c).
Proof.
  rewrite spec_TTL_constants.
  destruct e; open_handler; intros ->; cbn [sent left fetched_again];
    try (split; [reflexivity|]; split; [reflexivity|]; split;
         [intros _; eexists; split; reflexivity|intros H; exfalso; apply H; left; discriminate]).
  destruct (fmp (world r)) as [|[|[|d ds]]]; cbn [sent left fetched_again];
    (split; [reflexivity|]; split; [reflexivity|]; split;
     [intros [H|(d' & ds' & H)]; [congruence|try discriminate]|intros H; try reflexivity]).
  - eexists. split; reflexivity.
  - exfalso. apply H. right. eauto.
Qed.

(** A request leaves the entries of the other endpoints as they are. *)
Lemma handle_frame (e e' : endpoint) (r : request) (c : caches) :
  e' <> e -> entry e' (left (handle e r c)) = entry e' c.
Proof.
  intros Hne.
  destruct e; open_handler;
    match goal with
    | |- context [reusable ?a ?b ?t ?n] => destruct (reusable a b t n)
    end;
    try (destruct (fmp (world r)) as [|[|[|d ds]]]);
    cbn [left fromCache]; destruct e'; try reflexivity; congruence.
Qed.

(** The calendar answers an empty feed with [[]] and stores nothing: a
    second request one second later, within the six hours, asks the provider
    again and, the provider failing, is answered with status 500. *)
Lemma calendar_empty_feed_not_stored :
  let rt := {| parseDate := fun _ => None; toISOString := fun _ => "";
               getHours := fun _ => 0; getMinutes := fun _ => 0 |} in
  let answering feed :=
    {| yahoo := fun _ _ _ => Threw; eodhd_real_time := fun _ => Threw;
       eodhd_top := fun _ => Threw; twelvedata := Threw; fmp := feed;
       EODHD_KEY := false |} in
  let r1 := {| now := 1000; world := answering (Got (EventList [])); stored_at := 1500;
               runtime := rt; todayMidnight := 0 |} in
  let r2 := {| now := 2000; world := answering Threw; stored_at := 2500;
               runtime := rt; todayMidnight := 0 |} in
  let first := handle EconomicCalendar r1 emptyCaches in
  let second := handle EconomicCalendar r2 (left first) in
  sent first = Ok []
  /\ left first = emptyCaches
  /\ now r2 - now r1 < spec_TTL EconomicCalendar
  /\ sent second = Error500 "Failed to fetch economic calendar"
  /\ fetched_again second = true.
Proof.
  cbv zeta. repeat split.
Qed.

(** C6, as amended.  For every cached endpoint, request and state of the
    caches.  An entry that is stored is reused, without a provider cycle
    and leaving the caches as they are, if and only if [now - writtenAt]
    is less than the endpoint's time-to-live (60 s for the per-class
    quotes, commodities among them, 120 s for all-movers, 5 min for the
    heatmaps, 6 h for the calendar); with no entry the cycle runs.  A
    request that runs the cycle sends the fresh result and stores it under
    its endpoint with the time of writing, except a calendar request whose
    feed fails, is no list or is empty, which stores nothing; no request
    touches the entry of another endpoint.  So after a request that was
    answered from the cache or that stored its result, a second request
    within the time-to-live of the entry is sent the same payload, whatever
    the providers would answer, runs no provider cycle and leaves the
    caches unchanged. *)
Theorem cache_reuse (e : endpoint) (r : request) (c : caches) :
  let first := handle e r c in
  let stores :=
    e <> EconomicCalendar \/ exists d ds, fmp (world r) = Got (EventList (d :: ds)) in
  (forall v t, entry e c = (Some v, t) ->
     (fetched_again first = false <-> now r - t < spec_TTL e)
     /\ (now r - t < spec_TTL e -> first = fromCache v c))
  /\ (fst (entry e c) = None -> fetched_again first = true)
  /\ (fetched_again first = true ->
      sent first
      = match e return response (payload e) with
        | Indices => Ok (fetchIndices (world r))
        | ForexQuotes => Ok (fetchForex (world r))
        | Commodities => Ok (fetchCommodities (world r))
        | CryptoQuotes => Ok (fetchCrypto (world r))
        | AllMovers => Ok (allMovers (world r))
        | ForexHeatmap => Ok (forexHeatmap (world r))
        | CryptoHeatmap => Ok (cryptoHeatmap (world r))
        | EconomicCalendar =>
            match fmp (world r) with
            | Threw => Error500 "Failed to fetch economic calendar"
            | Got NotAList => Ok []
            | Got (EventList data) =>
                Ok (calendarEvents (runtime r) (todayMidnight r) data)
            end
        end)
  /\ (fetched_again first = true -> stores ->
      exists v, sent first = Ok v /\ entry e (left first) = (Some v, stored_at r))
  /\ (fetched_again first = true -> ~ stores -> left first = c)
  /\ (forall e', e' <> e -> entry e' (left first) = entry e' c)
  /\ (forall r2,
        stores \/ fetched_again first = false ->
        now r2 - snd (entry e (left first)) < spec_TTL e ->
        handle e r2 (left first)
        = {| sent := sent first; left := left first; fetched_again := false |})
  /\ spec_TTL e = match e with
                  | AllMovers => 120000
                  | ForexHeatmap | CryptoHeatmap => 300000
                  | EconomicCalendar => 21600000
                  | _ => 60000
                  end.
Proof.
  intros first stores. subst first.
  assert (Hhit : forall r' c' v t, entry e c' = (Some v, t) ->
            (fetched_again (handle e r' c') = false <-> now r' - t < spec_TTL e)
            /\ (now r' - t < spec_TTL e -> handle e r' c' = fromCache v c')).
  { intros r' c' v t He. pose proof (handle_reuses e r' c') as H.
    pose proof (reusable_spec (fst (entry e c')) (snd (entry e c')) (spec_TTL e) (now r')) as Hs.
    rewrite He in H, Hs. cbn [fst snd] in H, Hs.
    destruct (reusable (Some v) t (spec_TTL e) (now r')) as [v'|].
    - destruct Hs as [[= <-] Hlt]. rewrite H. simpl. tauto.
    - destruct Hs as [Hs|Hs]; [discriminate|]. rewrite H. split; [split|]; intros; try tauto.
      discriminate. }
  assert (Hcases :
    (exists v, reusable (fst (entry e c)) (snd (entry e c)) (spec_TTL e) (now r) = Some v
               /\ handle e r c = fromCache v c /\ fst (entry e c) = Some v
               /\ now r - snd (entry e c) < spec_TTL e)
    \/ reusable (fst (entry e c)) (snd (entry e c)) (spec_TTL e) (now r) = None).
  { pose proof (handle_reuses e r c) as H.
    pose proof (reusable_spec (fst (entry e c)) (snd (entry e c)) (spec_TTL e) (now r)) as Hs.
    destruct (reusable _ _ _ _) as [v|]; [left|now right].
    exists v. destruct Hs. auto. }
  split; [apply Hhit|]. split; [|split; [|split; [|split; [|split; [|split]]]]].
  - intros Hnone. pose proof (handle_reuses e r c) as H. rewrite Hnone in H. exact H.
  - intros Hf. destruct Hcases as [(v & _ & Hv & _)|Hmiss].
    + rewrite Hv in Hf. discriminate.
    + apply (handle_cycle e r c Hmiss).
  - intros Hf Hs. destruct Hcases as [(v & _ & Hv & _)|Hmiss].
    + rewrite Hv in Hf. discriminate.
    + apply (handle_cycle e r c Hmiss). exact Hs.
  - intros Hf Hs. destruct Hcases as [(v & _ & Hv & _)|Hmiss].
    + rewrite Hv in Hf. discriminate.
    + apply (handle_cycle e r c Hmiss). exact Hs.
  - intros e' Hne. now apply handle_frame.
  - intros r2 Hs Hlt. destruct Hcases as [(v & _ & Hv & Hsome & _)|Hmiss].
    + rewrite Hv in *. cbn [fromCache left sent] in *.
      destruct (entry e c) as [o t] eqn:He. cbn [fst snd] in *. subst o.
      now apply (Hhit r2 c v t).
    + destruct (handle_cycle e r c Hmiss) as (Hf & _ & Hstore & _).
      destruct Hs as [Hs|Hs]; [|congruence].
      destruct (Hstore Hs) as (v & Hsent & Hentry).
      rewrite Hentry in Hlt. cbn [snd] in Hlt.
      rewrite Hsent. now apply (Hhit r2 _ v (stored_at r)).
  - destruct e; reflexivity.
Qed.

(** Two requests for the movers, ten seconds apart, the providers failing
    at the second. *)
Lemma cache_reuse_witness :
  let failing := {| yahoo := fun _ _ _ => Threw;
                    eodhd_real_time := fun _ => Threw;
                    eodhd_top := fun _ => Threw;
                    twelvedata := Threw;
                    fmp := Threw;
                    EODHD_KEY := false |} in
  let gold := {| yahoo := fun _ _ _ => Threw;
                 eodhd_real_time := fun symbol =>
                   if (symbol =? "GLD.US")%string
                   then Got (Some {| close := Num 250; previousClose := Str "200" |})
                   else Threw;
                 eodhd_top := fun _ => Threw;
                 twelvedata := Threw;
                 fmp := Threw;
                 EODHD_KEY := false |} in
  let rt := {| parseDate := fun _ => None; toISOString := fun _ => "";
               getHours := fun _ => 0; getMinutes := fun _ => 0 |} in
  let r1 := {| now := 1000; world := gold; stored_at := 2000; runtime := rt;
               todayMidnight := 0 |} in
  let r2 := {| now := 12000; world := failing; stored_at := 13000; runtime := rt;
               todayMidnight := 0 |} in
  let first := handle AllMovers r1 emptyCaches in
  handle AllMovers r2 (left first)
  = {| sent := Ok [formatMover "Gold" "Gold" 25 "Commodity"];
       left := storeMovers [formatMover "Gold" "Gold" 25 "Commodity"] 2000 emptyCaches;
       fetched_again := false |}.
Proof.
  intros failing gold rt r1 r2 first.
  destruct (cache_reuse AllMovers r1 emptyCaches) as (_ & _ & _ & _ & _ & _ & H & _).
  unfold first. rewrite (H r2).
  - vm_compute. reflexivity.
  - left. left. discriminate.
  - vm_compute. reflexivity.
Defined.

(* ------------------------------------------------------------------ *)
(** ** The fail-tolerant join (C7) *)

Lemma settled_value_In {A} (res : settled (list A)) (x : A) :
  In x (settled_value res) <-> exists v, res = Fulfilled v /\ In x v.
Proof.
  destruct res as [v|]; simpl.
  - split; [eauto|]. now intros (v' & [= <-] & H).
  - split; [tauto|]. intros (v' & H & _). discriminate.
Qed.

Lemma stocks_value_In (res : settled stocks) (x : Mover.t) :
  In x (match res with Fulfilled value => items value | Rejected => [] end)
  <-> exists v, res = Fulfilled v /\ In x (items v).
Proof.
  destruct res as [v|]; simpl.
  - split; [eauto|]. now intros (v' & [= <-] & H).
  - split; [tauto|]. intros (v' & H & _). discriminate.
Qed.

(** C7.  For every combination of the four settled fetchers, the records
    joined are exactly those of the fulfilled ones, in the order stocks,
    crypto, forex, commodities, so a rejected fetcher adds none and takes
    none of the others away; the handler joins what the four fetchers
    resolve with and appends the index movers; and a fetcher all of whose
    requests fail resolves with the empty list (the stocks fetcher with an
    empty [items]), as the stocks fetcher does without an API key. *)
Theorem fail_tolerant_join :
  (forall stocksRes cryptoRes fxRes comRes r,
     In r (joinMovers stocksRes cryptoRes fxRes comRes) <->
     (exists v, stocksRes = Fulfilled v /\ In r (items v))
     \/ (exists v, cryptoRes = Fulfilled v /\ In r v)
     \/ (exists v, fxRes = Fulfilled v /\ In r v)
     \/ (exists v, comRes = Fulfilled v /\ In r v))
  /\ (forall s c f m,
        joinMovers (Fulfilled s) (Fulfilled c) (Fulfilled f) (Fulfilled m)
        = (items s ++ c ++ f ++ m)%list
        /\ joinMovers Rejected (Fulfilled c) (Fulfilled f) (Fulfilled m) = (c ++ f ++ m)%list
        /\ joinMovers (Fulfilled s) Rejected (Fulfilled f) (Fulfilled m)
           = (items s ++ f ++ m)%list
        /\ joinMovers (Fulfilled s) (Fulfilled c) Rejected (Fulfilled m)
           = (items s ++ c ++ m)%list
        /\ joinMovers (Fulfilled s) (Fulfilled c) (Fulfilled f) Rejected
           = (items s ++ c ++ f)%list
        /\ joinMovers Rejected Rejected Rejected Rejected = [])
  /\ (forall p,
        combinedMovers p
        = ((items (fetchEodTopStocks p) ++ fetchEodCryptoMovers p ++ fetchForexMovers p
            ++ fetchCommodityMovers p) ++ indexMovers p)%list)
  /\ (forall p, (forall symbol interval range, yahoo p symbol interval range = Threw) ->
        fetchEodCryptoMovers p = [] /\ indexMovers p = [])
  /\ (forall p, twelvedata p = Threw -> fetchForexMovers p = [])
  /\ (forall p, (forall symbol, eodhd_real_time p symbol = Threw) ->
        fetchCommodityMovers p = [])
  /\ (forall p, (forall side, eodhd_top p side = Threw) \/ EODHD_KEY p = false ->
        fetchEodTopStocks p = {| items := [] |}).
Proof.
  split; [|split; [|split; [|split; [|split; [|split]]]]].
  - intros stocksRes cryptoRes fxRes comRes r. unfold joinMovers.
    rewrite !in_app_iff, stocks_value_In, !settled_value_In. tauto.
  - intros s c f m. unfold joinMovers. simpl. rewrite !app_nil_r. repeat split.
  - reflexivity.
  - intros p H. unfold fetchEodCryptoMovers, indexMovers, chartMover. simpl.
    rewrite !H. split; reflexivity.
  - intros p H. unfold fetchForexMovers. now rewrite H.
  - intros p H. unfold fetchCommodityMovers, commodityMover. simpl. now rewrite !H.
  - intros p [H|H]; unfold fetchEodTopStocks, fetchSide; rewrite ?H; [|reflexivity].
    now destruct (EODHD_KEY p).
Qed.

(** The stocks fetcher rejected, the crypto fetcher fulfilled. *)
Lemma fail_tolerant_join_witness :
  let btc := formatMover "BTC" "BTC-USD" 4 "Crypto" in
  In btc (joinMovers Rejected (Fulfilled [btc]) Rejected (Fulfilled [])).
Proof.
  cbv zeta.
  apply (proj1 fail_tolerant_join). right. left.
  eexists. split; [reflexivity|]. now left.
Defined.

(* ------------------------------------------------------------------ *)
(** ** Currency strength (C8) *)

Section Strength.
Local Open Scope float_scope.

(** *** Adding and subtracting a zero, and sums that are not the negative zero *)

Lemma add_zero x z :
  not_negative_zero x -> is_zero z = true -> x + z = x /\ x - z = x.
Proof.
  unfold not_negative_zero. intros Hx Hz. apply is_zero_spec in Hz. destruct Hz as [sz Hz].
  split; apply Prim2SF_inj; rewrite ?add_spec, ?sub_spec, Hz;
    destruct (Prim2SF x) as [sx|sx| |sx mx ex]; trivial;
    destruct sx, sz; trivial; congruence.
Qed.

Lemma SFadd_not_negative_zero X Y :
  valid_binary X = true -> valid_binary Y = true ->
  SFfinite Y = false \/ (exists s m e, Y = S754_finite s m e) ->
  SF64add X Y <> S754_zero true /\ SF64sub X Y <> S754_zero true.
Proof.
  intros VX VY HY.
  destruct Y as [sy|sy| |sy my ey];
    [destruct HY as [HY|(s & m & e & HY)]; discriminate| | |].
  - destruct X as [sx|sx| |sx mx ex]; split; simpl; try discriminate;
      destruct sx, sy; discriminate.
  - destruct X; split; discriminate.
  - destruct X as [sx|sx| |sx mx ex]; try (split; discriminate).
    simpl in VX, VY.
    destruct (bounded_canonical _ _ VX) as (LX & _), (bounded_canonical _ _ VY) as (LY & _).
    assert (Hround : forall z, binary_normalize prec emax z (Z.min ex ey) false
                               <> S754_zero true).
    { intros [|p|p]; simpl; [discriminate| |].
      - destruct (binary_round_pos false p (Z.min ex ey) ltac:(lia))
          as [(m' & e' & ->)| ->]; discriminate.
      - destruct (binary_round_pos true p (Z.min ex ey) ltac:(lia))
          as [(m' & e' & ->)| ->]; discriminate. }
    split; apply Hround.
Qed.

Lemma add_not_negative_zero x y :
  (0 <? y) = true \/ (y <? 0) = true ->
  not_negative_zero (x + y) /\ not_negative_zero (x - y).
Proof.
  intros H. unfold not_negative_zero. rewrite add_spec, sub_spec.
  apply SFadd_not_negative_zero; try apply Prim2SF_valid.
  assert (Hk : Prim2SF y <> S754_nan /\ SFkey (Prim2SF y) <> (0, 0, 0)%Z).
  { destruct H as [H|H]; apply ltb_key in H; destruct H as (H1 & H2 & L);
      rewrite ?Prim2SF_zero in L; simpl SFkey in L.
    - split; [now apply is_nan_false|]. intros E. rewrite E in L.
      now apply lexlt_irrefl in L.
    - split; [now apply is_nan_false|]. intros E. rewrite E in L.
      now apply lexlt_irrefl in L. }
  destruct Hk as [Hn Hk].
  destruct (Prim2SF y) as [s|s| |s m e]; simpl in Hk; try congruence; eauto.
Qed.

Lemma neither_sign_is_zero y :
  is_nan y = false -> (0 <? y) = false -> (y <? 0) = false -> is_zero y = true.
Proof.
  intros Hn H1 H2. apply is_zero_spec.
  assert (H0 : is_nan 0 = false) by reflexivity.
  destruct (lex_total (SFkey (Prim2SF 0)) (SFkey (Prim2SF y))) as [L|[E|L]].
  - assert (C : (0 <? y) = true) by (apply ltb_key; auto). congruence.
  - rewrite Prim2SF_zero in E. simpl in E. apply is_nan_false in Hn.
    destruct (Prim2SF y) as [s|s| |s m e]; try congruence; eauto;
      destruct s; discriminate.
  - assert (C : (y <? 0) = true) by (apply ltb_key; auto). congruence.
Qed.

(** *** The two objects, currency by currency *)

Lemma prop_obj_set o k v c :
  c <> "__proto__"%string ->
  prop (obj_set k v o) c = if (k =? c)%string then v else prop o c.
Proof.
  intros Hc. unfold prop, obj_set.
  destruct (k =? "__proto__")%string eqn:Ep.
  - apply String.eqb_eq in Ep. subst k.
    replace ("__proto__" =? c)%string with false; trivial.
    symmetry. apply String.eqb_neq. congruence.
  - destruct (k =? c)%string eqn:E.
    + apply String.eqb_eq in E. subst k. now rewrite map_get_set_same.
    + apply String.eqb_neq in E. now rewrite map_get_set_other.
Qed.

Lemma obj_set_keys {V} (o : list (string * V)) k v c :
  In c (Object_keys o) -> In c (Object_keys (obj_set k v o)).
Proof.
  intros H. unfold obj_set. destruct (k =? "__proto__")%string; trivial.
  rewrite map_set_keys. destruct (map_has k o); trivial.
  apply in_or_app. now left.
Qed.

Lemma two_writes o base quote c (f g : number -> number) :
  c <> "__proto__"%string ->
  prop (obj_set quote (g (prop (obj_set base (f (prop o base)) o) quote))
                (obj_set base (f (prop o base)) o)) c
  = if (quote =? c)%string
    then g (if (base =? c)%string then f (prop o c) else prop o c)
    else if (base =? c)%string then f (prop o c) else prop o c.
Proof.
  intros Hc. rewrite prop_obj_set by trivial.
  destruct (quote =? c)%string eqn:Eq;
    [apply String.eqb_eq in Eq; subst quote|];
    rewrite prop_obj_set by trivial;
    (destruct (base =? c)%string eqn:Eb; [apply String.eqb_eq in Eb; subst base|]);
    reflexivity.
Qed.

Lemma strengthStep_currency c pairCount strength item :
  c <> "__proto__"%string ->
  isNaN (parseFloat (Forex.change item)) = false ->
  not_negative_zero (prop strength c) ->
  let st := strengthStep (pairCount, strength) item in
  prop (fst st) c = count_pair c (prop pairCount c) item
  /\ prop (snd st) c = contribute c (prop strength c) item
  /\ not_negative_zero (prop (snd st) c)
  /\ (In c (Object_keys strength) -> In c (Object_keys (snd st))).
Proof.
  intros Hc Hnum Hnz. unfold strengthStep, count_pair, contribute, gt, lt.
  generalize dependent (parseFloat (Forex.change item)). intros pct Hnum.
  generalize (baseOf (Forex.pair item)) (quoteOf (Forex.pair item)). intros base quote.
  cbv beta zeta iota.
  pose proof (two_writes pairCount base quote c (fun x => x + 1) (fun x => x + 1) Hc)
    as Hcount.
  pose proof (two_writes strength base quote c (fun x => x + pct) (fun x => x - pct) Hc)
    as Hsum.
  cbv beta in Hcount, Hsum.
  assert (Hmoved : (0 <? pct) = true \/ (pct <? 0) = true ->
    not_negative_zero
      (if (quote =? c)%string
       then (if (base =? c)%string then prop strength c + pct else prop strength c) - pct
       else if (base =? c)%string then prop strength c + pct else prop strength c)).
  { intros Hs. destruct (quote =? c)%string.
    - now apply add_not_negative_zero.
    - destruct (base =? c)%string; trivial. now apply add_not_negative_zero. }
  assert (Hkeys : In c (Object_keys strength) ->
    In c (Object_keys
            (obj_set quote (prop (obj_set base (prop strength base + pct) strength) quote - pct)
                     (obj_set base (prop strength base + pct) strength))))
    by (intros H; now do 2 apply obj_set_keys).
  destruct (0 <? pct) eqn:Epos; [|destruct (pct <? 0) eqn:Eneg]; cbn [fst snd].
  - rewrite Hcount, Hsum. repeat split; auto.
  - rewrite Hcount, Hsum. repeat split; auto.
  - rewrite Hcount. split; [reflexivity|].
    assert (Hz : is_zero pct = true) by now apply neither_sign_is_zero.
    destruct (add_zero _ pct Hnz Hz) as [Ha Hs].
    assert (E : (if (quote =? c)%string
                 then (if (base =? c)%string then prop strength c + pct
                       else prop strength c) - pct
                 else if (base =? c)%string then prop strength c + pct
                      else prop strength c) = prop strength c).
    { destruct (base =? c)%string; rewrite ?Ha; destruct (quote =? c)%string; trivial. }
    rewrite E. auto.
Qed.

Lemma strengthFold_currency c data : forall pairCount strength,
  c <> "__proto__"%string ->
  changes_are_numbers data ->
  not_negative_zero (prop strength c) ->
  let st := fold_left strengthStep data (pairCount, strength) in
  prop (fst st) c = fold_left (count_pair c) data (prop pairCount c)
  /\ prop (snd st) c = fold_left (contribute c) data (prop strength c)
  /\ (In c (Object_keys strength) -> In c (Object_keys (snd st))).
Proof.
  induction data as [|item data IH]; intros pairCount strength Hc Hnum Hnz;
    cbn [fold_left].
  - cbn [fst snd]. auto.
  - inversion Hnum as [|? ? Hitem Hrest]; subst.
    destruct (strengthStep_currency c pairCount strength item Hc Hitem Hnz)
      as (H1 & H2 & H3 & H4).
    destruct (strengthStep (pairCount, strength) item) as [pc st] eqn:E.
    cbn [fst snd] in *.
    destruct (IH pc st Hc Hrest H3) as (I1 & I2 & I3).
    cbv zeta. rewrite I1, I2, H1, H2. auto.
Qed.

Lemma map_get_tabulate {V} (f : string -> V) keys c :
  In c keys -> map_get c (map (fun k => (k, f k)) keys) = Some (f c).
Proof.
  induction keys as [|k keys IH]; simpl; [tauto|].
  intros H. destruct (k =? c)%string eqn:E.
  - apply String.eqb_eq in E. now subst.
  - apply String.eqb_neq in E. destruct H; [congruence|auto].
Qed.

Lemma forexStrength_currency data c :
  In c (Object_keys currencyTable) ->
  changes_are_numbers data ->
  map_get c (forexStrength (Got data)) = Some (spec_class (spec_average c data)).
Proof.
  intros Hc Hnum.
  assert (Hc' : c <> "__proto__"%string /\ prop currencyTable c = 0).
  { simpl in Hc. repeat (destruct Hc as [<-|Hc]; [split; [discriminate|reflexivity]|]).
    destruct Hc. }
  destruct Hc' as [Hproto H0].
  assert (Hnz : not_negative_zero (prop currencyTable c))
    by (rewrite H0; discriminate).
  destruct (strengthFold_currency c data currencyTable currencyTable Hproto Hnum Hnz)
    as (H1 & H2 & H3).
  unfold forexStrength.
  destruct (fold_left strengthStep data (currencyTable, currencyTable))
    as [pairCount strength].
  cbn [fst snd] in *. rewrite map_map.
  rewrite (map_get_tabulate
             (fun currency => classify (averageOf pairCount strength currency)))
    by auto.
  unfold averageOf, spec_average, spec_pairCount, spec_contributions.
  now rewrite H1, H2, H0.
Qed.


Lemma count_pair_absent c data : forall n,
  (forall item, In item data ->
     baseOf (Forex.pair item) <> c /\ quoteOf (Forex.pair item) <> c) ->
  fold_left (count_pair c) data n = n.
Proof.
  induction data as [|item data IH]; intros n H; simpl; trivial.
  destruct (H item (or_introl eq_refl)) as [Hb Hq].
  apply String.eqb_neq in Hb, Hq. unfold count_pair at 2. rewrite Hb, Hq.
  apply IH. intros it Hit. apply H. now right.
Qed.

(** A record whose change is no number is counted and adds nothing, where
    the sum of the changes would be [NaN]; a currency that the table lacks
    is reported Neutral whatever its pairs say.  The first record is the
    one [/api/forex] answers with when the last two closes are zero. *)
Lemma currency_strength_outside_its_domain :
  let p := {| yahoo := fun symbol _ _ =>
                if (symbol =? "EURUSD=X")%string then Got (Result [Some 0; Some 0])
                else Threw;
              eodhd_real_time := fun _ => Threw;
              eodhd_top := fun _ => Threw;
              twelvedata := Threw;
              fmp := Threw;
              EODHD_KEY := false |} in
  let stale := Forex.mk "EUR/USD" "EUR/USD" "NaN%" "negative" 0 nan in
  let rising := Forex.mk "EUR/ZAR" "EUR/ZAR" "+1.00%" "positive" 19.5 1 in
  let kiwi := Forex.mk "NZD/USD" "NZD/USD" "+1.00%" "positive" 0.6 1 in
  fetchForex p = [stale]
  /\ map_get "EUR"%string (forexStrength (Got [stale; rising])) = Some "Strong"%string
  /\ spec_class (spec_average "EUR" [stale; rising]) = "Neutral"%string
  /\ map_get "NZD"%string (forexStrength (Got [kiwi])) = Some "Neutral"%string
  /\ spec_class (spec_average "NZD" [kiwi]) = "Strong"%string.
Proof.
  cbv zeta. repeat split; vm_compute; reflexivity.
Qed.

(** C8, as amended.  For every list of forex pair records whose changes read
    as numbers, and every currency of the table: the class reported is that
    of the average, over the places the currency takes in the pairs, of the
    sum of each pair's change where the currency is the base and of its
    opposite where it is the quote, which is Strong from +0.3 up, Weak from
    -0.3 down and Neutral in between; a currency in no pair has average 0
    and is reported Neutral.  For EUR/USD at +1.00% and GBP/USD at -1.00%,
    USD is Neutral, EUR Strong and GBP Weak.  When the request for the
    forex records fails, all seven currencies are reported Neutral. *)
Theorem currency_strength (data : list Forex.t) :
  changes_are_numbers data ->
  (forall currency, In currency (Object_keys currencyTable) ->
     map_get currency (forexStrength (Got data))
     = Some (spec_class (spec_average currency data))
     /\ ((forall item, In item data ->
            baseOf (Forex.pair item) <> currency /\ quoteOf (Forex.pair item) <> currency) ->
         spec_average currency data = 0%float
         /\ map_get currency (forexStrength (Got data)) = Some "Neutral"%string))
  /\ (forall n1 t1 p1 r1 n2 t2 p2 r2,
        let records := [Forex.mk "EUR/USD" n1 "+1.00%" t1 p1 r1;
                        Forex.mk "GBP/USD" n2 "-1.00%" t2 p2 r2] in
        spec_average "USD" records = 0%float
        /\ map_get "USD"%string (forexStrength (Got records)) = Some "Neutral"%string
        /\ map_get "EUR"%string (forexStrength (Got records)) = Some "Strong"%string
        /\ map_get "GBP"%string (forexStrength (Got records)) = Some "Weak"%string)
  /\ forexStrength Threw
     = map (fun currency => (currency, "Neutral"%string)) (Object_keys currencyTable).
Proof.
  intros Hnum. split; [|split].
  - intros currency Hc.
    pose proof (forexStrength_currency data currency Hc Hnum) as Hcode.
    split; trivial. intros Habsent.
    assert (Havg : spec_average currency data = 0%float).
    { unfold spec_average, spec_pairCount. now rewrite count_pair_absent. }
    split; trivial. now rewrite Hcode, Havg.
  - intros. cbv zeta. repeat split; vm_compute; reflexivity.
  - vm_compute. reflexivity.
Qed.

(** The two records of the specification's example. *)
Lemma currency_strength_witness :
  let records := [Forex.mk "EUR/USD" "EUR/USD" "+1.00%" "positive" 1.1 1;
                  Forex.mk "GBP/USD" "GBP/USD" "-1.00%" "negative" 1.3 (-1)] in
  map_get "EUR"%string (forexStrength (Got records))
  = Some (spec_class (spec_average "EUR" records)).
Proof.
  cbv zeta.
  refine (proj1 (proj1 (currency_strength _ _) "EUR"%string _)).
  - repeat constructor.
  - simpl. tauto.
Defined.

End Strength.

(* ------------------------------------------------------------------ *)
(** ** The economic calendar (C9) *)

Lemma earlier_sorted (l : list CalendarEvent.t) : ascending (array_sort earlier l).
Proof.
  unfold ascending.
  apply array_sort_sorted with (P := fun _ => True).
  - intros a b c. lia.
  - intros a b _ _. unfold earlier. rewrite Z.ltb_lt. lia.
  - intros a b _ _. unfold earlier. rewrite Z.ltb_ge. lia.
  - apply Forall_forall. trivial.
Qed.

Lemma In_firstn {A} (n : nat) (l : list A) (x : A) : In x (firstn n l) -> In x l.
Proof.
  intros H. rewrite <- (firstn_skipn n l). apply in_or_app. now left.
Qed.

(** An upcoming event of a major country is sent with a tenth member, the
    date-time it was sorted by; and an event of Argentina, which the list
    of major countries lacks, is kept, because its name contains IN. *)
Lemma calendar_event_has_rawDateTime :
  let rt := {| parseDate := fun _ => Some 1767273000000;
               toISOString := fun _ => "2026-01-01T13:10:00.000Z";
               getHours := fun _ => 13;
               getMinutes := fun _ => 10 |} in
  let e := Fmp.mk (Some "GDP Growth Rate") (Some "US") (Some "2026-01-01 13:10:00")
                  None (Some "USD") (Some (JNumber 2.5)) None (Some JNull) in
  let a := Fmp.mk (Some "Balance of Trade") (Some "Argentina") (Some "2026-01-01 13:10:00")
                  (Some "Low") (Some "ARS") None None None in
  calendar_json rt (calendarEvents rt 1767225600000 [e])
  = JArray [JObject [("date", JString "2026-01-01"); ("time", JString "13:10");
                     ("country", JString "US"); ("event", JString "GDP Growth Rate");
                     ("actual", JNumber 2.5); ("forecast", JNull); ("previous", JNull);
                     ("importance", JString "High"); ("currency", JString "USD");
                     ("rawDateTime", JString "2026-01-01T13:10:00.000Z")]]
  /\ (forall ev, In ev (calendarEvents rt 1767225600000 [e]) ->
        json_keys (event_json rt ev)
        <> ["date"; "time"; "country"; "event"; "actual"; "forecast"; "previous";
            "importance"; "currency"])
  /\ map CalendarEvent.country (calendarEvents rt 1767225600000 [a]) = ["Argentina"]
  /\ ~ In "Argentina" majorCountries.
Proof.
  cbv zeta. split; [vm_compute; reflexivity|]. split; [intros ev _; discriminate|].
  split; [vm_compute; reflexivity|].
  simpl. intros H. repeat (destruct H as [H|H]; [discriminate|]). exact H.
Qed.

Lemma filter_of_map {A B} (f : A -> B) (keep : B -> bool) (l : list A) :
  filter keep (map f l) = map f (filter (fun x => keep (f x)) l).
Proof.
  induction l as [|x l IH]; simpl; trivial.
  destruct (keep (f x)); simpl; now rewrite IH.
Qed.

Lemma filter_twice {A} (f g : A -> bool) (l : list A) :
  filter g (filter f l) = filter (fun x => f x && g x) l.
Proof.
  induction l as [|x l IH]; simpl; trivial.
  destruct (f x); simpl; [destruct (g x)|]; now rewrite IH.
Qed.

Lemma present_text (o : option string) :
  (if present o then text o else "") = text o.
Proof.
  destruct o as [s|]; unfold present, truthy, text; simpl; trivial.
  destruct (s =? "")%string eqn:E; trivial. now apply String.eqb_eq in E.
Qed.

(** C9, as amended.  For every list of provider events.  The events that
    qualify are those with a title, a country and a date that is valid and
    not before today's midnight, whose country, in upper case, contains or
    is contained in an entry of the list of major countries.  The events
    returned are the first 100 (all of them when there are fewer) of the
    qualifying events in ascending order of date-time.  Each is sent with
    the members date, time, country, event, actual, forecast, previous,
    importance, currency and rawDateTime, whose values are those of the
    provider event: the importance is the provider's impact when that is
    high, medium or low in any letter case, and otherwise High or Medium by
    the first keyword list with a keyword in the lower-cased title, and Low
    with none.  The handler sends these events when the cache cannot be
    reused. *)
Theorem calendar_contract (rt : dates) (midnight : Z) (data : list Fmp.t) :
  let events := calendarEvents rt midnight data in
  let time_of e := match eventTime rt e with Some t => t | None => 0 end in
  let qualifies e :=
    present (Fmp.event e) && present (Fmp.country e) && present (Fmp.date e)
    && match eventTime rt e with Some t => midnight <=? t | None => false end
    && existsb (fun c => includes (toUpperCase (text (Fmp.country e))) (toUpperCase c)
                         || includes (toUpperCase c) (toUpperCase (text (Fmp.country e))))
               majorCountries in
  let importance e :=
    let impact := toLowerCase (text (Fmp.impact e)) in
    let title := toLowerCase (text (Fmp.event e)) in
    if (impact =? "high")%string then "High"
    else if (impact =? "medium")%string then "Medium"
    else if (impact =? "low")%string then "Low"
    else if existsb (includes title) highKeywords then "High"
    else if existsb (includes title) mediumKeywords then "Medium"
    else "Low" in
  let figure v := match v with Some j => j | None => JNull end in
  let sent_for e :=
    {| CalendarEvent.date := hd "" (split "T" (toISOString rt (time_of e)));
       CalendarEvent.time :=
         padStart2 (digits_of (getHours rt (time_of e))) ++ ":"
         ++ padStart2 (digits_of (getMinutes rt (time_of e)));
       CalendarEvent.country := text (Fmp.country e);
       CalendarEvent.event := text (Fmp.event e);
       CalendarEvent.actual := figure (Fmp.actual e);
       CalendarEvent.forecast := figure (Fmp.estimate e);
       CalendarEvent.previous := figure (Fmp.previous e);
       CalendarEvent.importance := importance e;
       CalendarEvent.currency :=
         if present (Fmp.currency e) then text (Fmp.currency e) else text (Fmp.country e);
       CalendarEvent.rawDateTime := time_of e |} in
  let qualifying := map sent_for (filter qualifies data) in
  List.length events = Nat.min 100 (List.length qualifying)
  /\ (exists rest,
        Permutation (events ++ rest)%list qualifying /\ ascending (events ++ rest)%list)
  /\ ascending events
  /\ ((List.length qualifying <= 100)%nat -> Permutation events qualifying)
  /\ (forall ev, In ev events ->
        exists e, In e data /\ qualifies e = true /\ ev = sent_for e
                  /\ eventTime rt e = Some (CalendarEvent.rawDateTime ev)
                  /\ midnight <= CalendarEvent.rawDateTime ev)
  /\ (forall ev,
        json_keys (event_json rt ev)
        = ["date"; "time"; "country"; "event"; "actual"; "forecast"; "previous";
           "importance"; "currency"; "rawDateTime"])
  /\ majorCountries
     = ["US"; "GB"; "UK"; "EU"; "JP"; "CN"; "CA"; "AU"; "NZ"; "CH"; "ZA";
        "DE"; "FR"; "IT"; "ES"; "BR"; "MX"; "IN";
        "United States"; "United Kingdom"; "Euro Area"; "Germany";
        "France"; "Japan"; "China"; "Canada"; "Australia"; "South Africa"]
  /\ highKeywords
     = ["gdp"; "interest rate"; "nfp"; "non-farm"; "payroll";
        "cpi"; "unemployment"; "inflation"; "fed"; "fomc";
        "central bank"; "rate decision"; "ppi"; "retail sales"]
  /\ mediumKeywords
     = ["pmi"; "trade balance"; "consumer confidence";
        "manufacturing"; "industrial production"; "sentiment"]
  /\ (forall r c,
        runtime r = rt -> todayMidnight r = midnight ->
        reusable (calendarCache c) (calendarCacheTime c) CALENDAR_TTL (now r) = None ->
        fmp (world r) = Got (EventList data) ->
        sent (calendarHandler r c) = Ok events).
Proof.
  intros events time_of qualifies importance figure sent_for qualifying.
  set (kept := filter majorCountry (map (toEvent rt) (filter (upcoming rt midnight) data))).
  set (sorted := array_sort earlier kept).
  assert (Hev : events = firstn 100 sorted) by reflexivity.
  assert (Hsorted : ascending sorted) by apply earlier_sorted.
  assert (Hperm : Permutation sorted kept) by apply array_sort_perm.
  assert (Hto : forall e, toEvent rt e = sent_for e).
  { intros e. unfold toEvent, sent_for, importance, figure, time_of, importanceOf, or_null.
    rewrite !present_text.
    destruct (Fmp.actual e) as [[]|], (Fmp.estimate e) as [[]|], (Fmp.previous e) as [[]|];
      reflexivity. }
  assert (Hq : forall e, upcoming rt midnight e && majorCountry (toEvent rt e) = qualifies e).
  { intros e. unfold upcoming, majorCountry, qualifies. rewrite Hto.
    cbn [sent_for CalendarEvent.country].
    destruct (present (Fmp.event e)), (present (Fmp.country e)), (present (Fmp.date e));
      trivial. }
  assert (Hkept : kept = qualifying).
  { unfold kept, qualifying. rewrite filter_of_map, filter_twice.
    rewrite (filter_ext _ _ Hq). apply map_ext. exact Hto. }
  rewrite <- Hkept. clear Hkept.
  assert (Hlen : List.length events = Nat.min 100 (List.length kept)).
  { rewrite Hev, length_firstn. now rewrite (Permutation_length Hperm). }
  split; [exact Hlen|]. split; [|split; [|split; [|split]]].
  - exists (skipn 100 sorted). rewrite Hev, firstn_skipn. now split.
  - rewrite Hev. unfold ascending in *.
    apply StronglySorted_prefix with (l2 := skipn 100 sorted). now rewrite firstn_skipn.
  - intros Hle. rewrite Hev, firstn_all2; trivial.
    now rewrite (Permutation_length Hperm).
  - intros ev Hin. rewrite Hev in Hin. apply In_firstn in Hin.
    apply (Permutation_in _ Hperm) in Hin. unfold kept in Hin.
    apply filter_In in Hin. destruct Hin as [Hin Hmajor].
    apply in_map_iff in Hin. destruct Hin as (e & <- & Hin).
    apply filter_In in Hin. destruct Hin as [Hin Hup].
    exists e. split; trivial. split; [now rewrite <- Hq, Hup, Hmajor|].
    split; [apply Hto|]. unfold upcoming in Hup.
    destruct (negb _ || negb _ || negb _); [discriminate|].
    destruct (eventTime rt e) as [t|] eqn:Et; [|discriminate].
    apply Z.leb_le in Hup.
    assert (Hraw : CalendarEvent.rawDateTime (toEvent rt e) = t)
      by (unfold toEvent; simpl; now rewrite Et).
    rewrite Hraw. now split.
  - split; [reflexivity|]. split; [reflexivity|]. split; [reflexivity|].
    split; [reflexivity|].
    intros r c Hrt Hmid Hmiss Hfeed. unfold calendarHandler.
    rewrite Hmiss, Hfeed, Hrt, Hmid. now destruct data.
Qed.

(** A feed of six events on the first of January 2026 (UTC): two are
    returned, the earlier first.  The others are a past event, an event of
    a country that is not a major one, an event without a title and an
    event whose date does not parse. *)
Lemma calendar_contract_witness :
  let rt := {| parseDate := fun s =>
                 if (s =? "2026-01-02 13:30:00")%string then Some 1767360600000
                 else if (s =? "2026-01-01 09:00:00")%string then Some 1767258000000
                 else if (s =? "2025-12-30 10:00:00")%string then Some 1767088800000
                 else None;
               toISOString := fun t =>
                 if t =? 1767360600000 then "2026-01-02T13:30:00.000Z"
                 else if t =? 1767258000000 then "2026-01-01T09:00:00.000Z"
                 else "2025-12-30T10:00:00.000Z";
               getHours := fun t => (t / 3600000) mod 24;
               getMinutes := fun t => (t / 60000) mod 60 |} in
  let payrolls := Fmp.mk (Some "Non-Farm Payrolls") (Some "US") (Some "2026-01-02 13:30:00")
                         None (Some "USD") None (Some (JNumber 180)) (Some (JNumber 175)) in
  let pmi := Fmp.mk (Some "Manufacturing PMI") (Some "Germany") (Some "2026-01-01 09:00:00")
                    (Some "LOW") None (Some (JNumber 48.5)) (Some JNull) None in
  let past := Fmp.mk (Some "CPI") (Some "US") (Some "2025-12-30 10:00:00")
                     (Some "High") (Some "USD") None None None in
  let kenya := Fmp.mk (Some "Interest Rate Decision") (Some "Kenya")
                      (Some "2026-01-01 09:00:00") None (Some "KES") None None None in
  let untitled := Fmp.mk None (Some "US") (Some "2026-01-01 09:00:00")
                         None None None None None in
  let undated := Fmp.mk (Some "GDP") (Some "US") (Some "soon") None None None None None in
  let p := {| yahoo := fun _ _ _ => Threw;
              eodhd_real_time := fun _ => Threw;
              eodhd_top := fun _ => Threw;
              twelvedata := Threw;
              fmp := Got (EventList [payrolls; past; kenya; pmi; untitled; undated]);
              EODHD_KEY := false |} in
  let r := {| now := 1767230000000; world := p; stored_at := 1767230001000;
              runtime := rt; todayMidnight := 1767225600000 |} in
  sent (calendarHandler r emptyCaches)
  = Ok [CalendarEvent.mk "2026-01-01" "09:00" "Germany" "Manufacturing PMI"
                         (JNumber 48.5) JNull JNull "Low" "Germany" 1767258000000;
        CalendarEvent.mk "2026-01-02" "13:30" "US" "Non-Farm Payrolls"
                         JNull (JNumber 180) (JNumber 175) "High" "USD" 1767360600000].
Proof.
  intros rt payrolls pmi past kenya untitled undated p r.
  destruct (calendar_contract rt 1767225600000
              [payrolls; past; kenya; pmi; untitled; undated])
    as (_ & _ & _ & _ & _ & _ & _ & _ & _ & H).
  rewrite (H r emptyCaches) by reflexivity.
  vm_compute. reflexivity.
Defined.

(* ------------------------------------------------------------------ *)
(** ** The South African composition (C10) *)

Lemma find_filter {A} (f g : A -> bool) (l : list A) :
  (forall x, f x = true -> g x = true) -> find f (filter g l) = find f l.
Proof.
  intros H. induction l as [|x l IH]; simpl; trivial.
  destruct (g x) eqn:Eg; simpl.
  - now rewrite IH.
  - destruct (f x) eqn:Ef; trivial. apply H in Ef. congruence.
Qed.

Lemma find_absent {A} (f : A -> bool) (l : list A) :
  (forall x, In x l -> f x = false) -> find f l = None.
Proof.
  intros H. induction l as [|x l IH]; simpl; trivial.
  rewrite (H x (or_introl eq_refl)). apply IH. intros y Hy. apply H. now right.
Qed.

Lemma find_first {A} (f : A -> bool) (l : list A) :
  match find f l with
  | Some x => exists before after,
                l = (before ++ x :: after)%list /\ f x = true
                /\ forall y, In y before -> f y = false
  | None => forall y, In y l -> f y = false
  end.
Proof.
  induction l as [|a l IH]; simpl; [tauto|].
  destruct (f a) eqn:Ea.
  - exists [], l. repeat split; trivial. intros y [].
  - destruct (find f l) as [x|].
    + destruct IH as (before & after & -> & Hx & Hb).
      exists (a :: before), after. repeat split; trivial.
      intros y [<-|Hy]; auto.
    + intros y [<-|Hy]; auto.
Qed.

Lemma usdZarRate_of_all (allForex : list ForexBody.t) :
  usdZarRate (filter (fun fx => includes (ForexBody.pair fx) "ZAR") allForex)
  = match find (fun fx => (ForexBody.pair fx =? "USD/ZAR")%string) allForex with
    | Some usdZarPair => ForexBody.price usdZarPair
    | None => Some 18.75%float
    end.
Proof.
  unfold usdZarRate. rewrite find_filter; trivial.
  intros fx H. apply String.eqb_eq in H. now rewrite H.
Qed.

(** The record of the pair USD/ZAR in what [/api/forex] sends: the one its
    chart gives, if it gives one. *)
Lemma find_usdZar_sent (p : providers) :
  find (fun fx => (ForexBody.pair fx =? "USD/ZAR")%string) (map forexRead (fetchForex p))
  = match dailyCloses p "USDZAR=X" with
    | Some (last, prev) =>
        Some (forexRead (Forex.mk "USD/ZAR" "USD/ZAR"
                           (signed_percent (percent_change last prev))
                           (trend_of (percent_change last prev)) last
                           (percent_change last prev)))
    | None => None
    end.
Proof.
  unfold fetchForex, YAHOO_FOREX_SYMBOLS. cbn [flat_map]. unfold forexEntry.
  destruct (dailyCloses p "EURUSD=X") as [[? ?]|];
  destruct (dailyCloses p "GBPUSD=X") as [[? ?]|];
  destruct (dailyCloses p "USDJPY=X") as [[? ?]|];
  destruct (dailyCloses p "USDZAR=X") as [[last prev]|];
  destruct (dailyCloses p "EURZAR=X") as [[? ?]|];
  destruct (dailyCloses p "GBPZAR=X") as [[? ?]|];
  destruct (dailyCloses p "AUDUSD=X") as [[? ?]|];
  destruct (dailyCloses p "USDCHF=X") as [[? ?]|];
  reflexivity.
Qed.

(** C10.  For every three bodies the handler reads from its own server, it
    answers with the four members indices, forex, commodities and
    nextEvent.  Each commodity is sent with its name, change and raw change
    and with the price [R ] followed by the dollar price times the rate,
    rounded to an integer and with its thousands grouped; the rate is 18.75
    when no forex record has the pair USD/ZAR, as when the forex request
    failed or its body is empty, and otherwise the price of the first record
    with that pair, a price that is [null] counting as 0.  When the forex
    body is the one [/api/forex] sends, the rate is the last close of the
    chart of USDZAR=X as it is read back, and 18.75 when that chart gave no
    record. *)
Theorem sa_markets_rate (own : own_endpoints) :
  let allForex := body_or_empty (forexBody own) in
  let allCommodities := body_or_empty (commoditiesBody own) in
  let inZAR (rate : number) (comm : CommodityBody.t) :=
    {| SaCommodity.name := CommodityBody.name comm;
       SaCommodity.priceZAR :=
         "R " ++ group_thousands false
                   (toFixed (parseFloat (CommodityBody.price comm) * rate)%float 0);
       SaCommodity.change := CommodityBody.change comm;
       SaCommodity.rawChange := CommodityBody.rawChange comm |} in
  exists body,
    saMarkets own = Ok body
    /\ indices body
       = filter (fun idx => includes (IndexBody.name idx) "JSE"
                            || includes (IndexBody.symbol idx) ".JO")
                (body_or_empty (indicesBody own))
    /\ forex body = filter (fun fx => includes (ForexBody.pair fx) "ZAR") allForex
    /\ nextEvent body = {| event_name := "SARB Interest Rate Decision";
                           event_date := "March 27, 2026" |}
    /\ ((forall fx, In fx allForex -> ForexBody.pair fx <> "USD/ZAR"%string) ->
        commodities body = map (inZAR 18.75%float) allCommodities)
    /\ (forexBody own = Threw \/ forexBody own = Got [] ->
        commodities body = map (inZAR 18.75%float) allCommodities)
    /\ ((exists fx, In fx allForex /\ ForexBody.pair fx = "USD/ZAR"%string) ->
        exists before usdZarPair after,
          allForex = (before ++ usdZarPair :: after)%list
          /\ (forall fx, In fx before -> ForexBody.pair fx <> "USD/ZAR"%string)
          /\ ForexBody.pair usdZarPair = "USD/ZAR"%string
          /\ commodities body
             = map (inZAR match ForexBody.price usdZarPair with
                          | Some price => price
                          | None => 0%float
                          end) allCommodities)
    /\ (forall p, forexBody own = Got (map forexRead (fetchForex p)) ->
        commodities body
        = map (inZAR match dailyCloses p "USDZAR=X" with
                     | Some (last, _) =>
                         if is_finite last then (if is_zero last then 0%float else last)
                         else 0%float
                     | None => 18.75%float
                     end) allCommodities).
Proof.
  intros allForex allCommodities inZAR.
  assert (Hmap : forall rate, map (commodityInZAR rate) allCommodities
                              = map (inZAR (null_as_number rate)) allCommodities).
  { intros rate. apply map_ext. intros comm. unfold commodityInZAR, inZAR.
    generalize (parseFloat (CommodityBody.price comm)). intros priceUSD.
    generalize toFixed, (group_thousands false). intros fixed grouped. reflexivity. }
  eexists. split; [reflexivity|].
  cbn [indices forex commodities nextEvent]. fold allForex. fold allCommodities.
  rewrite usdZarRate_of_all, Hmap.
  pose proof (find_first (fun fx => (ForexBody.pair fx =? "USD/ZAR")%string) allForex)
    as Hfind.
  assert (Hnone : (forall fx, In fx allForex -> ForexBody.pair fx <> "USD/ZAR"%string) ->
                  find (fun fx => (ForexBody.pair fx =? "USD/ZAR")%string) allForex = None).
  { intros H. apply find_absent. intros fx Hin. apply String.eqb_neq. now apply H. }
  split; [reflexivity|]. split; [reflexivity|]. split; [reflexivity|].
  split; [|split; [|split]].
  - intros H. now rewrite Hnone.
  - intros H. rewrite Hnone; trivial. intros fx Hin. exfalso. unfold allForex in Hin.
    destruct H as [H|H]; rewrite H in Hin; destruct Hin.
  - intros (fx & Hin & Hfx).
    destruct (find _ allForex) as [usdZarPair|].
    + destruct Hfind as (before & after & Hsplit & Hpair & Hbefore).
      exists before, usdZarPair, after. split; trivial. split.
      * intros y Hy. apply String.eqb_neq. now apply Hbefore.
      * split; [now apply String.eqb_eq|reflexivity].
    + apply Hfind in Hin. apply String.eqb_neq in Hin. contradiction.
  - intros p Hp. unfold allForex. rewrite Hp. cbn [body_or_empty].
    rewrite find_usdZar_sent.
    destruct (dailyCloses p "USDZAR=X") as [[last prev]|]; [|reflexivity].
    cbn [forexRead ForexBody.price Forex.price]. unfold reread, json_of_number.
    destruct (is_finite last); [destruct (is_zero last)|]; reflexivity.
Qed.

(** Gold at 2650.50 dollars: 49,697 rand when the forex request failed,
    48,239 rand at a rate of 18.2, and 0 rand when the price of the pair
    was not finite and was sent as [null]. *)
Lemma sa_markets_rate_witness :
  let gold := CommodityBody.mk "Gold" "Gold" "+0.40%" "positive" "2650.50" (Some 0.4%float) in
  let usdZar price := ForexBody.mk "USD/ZAR" "USD/ZAR" "+0.10%" "positive" price (Some 0.1%float) in
  let eurUsd := ForexBody.mk "EUR/USD" "EUR/USD" "-0.20%" "negative" (Some 1.08%float)
                             (Some (-0.2)%float) in
  let sent forexBody :=
    match saMarkets {| indicesBody := Threw; forexBody := forexBody;
                       commoditiesBody := Got [gold] |} with
    | Ok body => map SaCommodity.priceZAR (commodities body)
    | Error500 _ => []
    end in
  sent Threw = ["R 49,697"]
  /\ sent (Got [eurUsd; usdZar (Some 18.2%float)]) = ["R 48,239"]
  /\ sent (Got [eurUsd; usdZar None]) = ["R 0"].
Proof.
  intros gold usdZar eurUsd sent. unfold sent. split; [|split].
  - destruct (sa_markets_rate
                {| indicesBody := Threw; forexBody := Threw; commoditiesBody := Got [gold] |})
      as (body & -> & _ & _ & _ & _ & Hrate & _).
    rewrite Hrate by (now left). vm_compute. reflexivity.
  - destruct (sa_markets_rate
                {| indicesBody := Threw; forexBody := Got [eurUsd; usdZar (Some 18.2%float)];
                   commoditiesBody := Got [gold] |})
      as (body & -> & _ & _ & _ & _ & _ & Hrate & _).
    destruct Hrate as (before & usdZarPair & after & Hsplit & Hbefore & Hpair & ->).
    { exists (usdZar (Some 18.2%float)). split; [right; now left|reflexivity]. }
    destruct before as [|fx [|fx' before]].
    + injection Hsplit as <- _. discriminate.
    + injection Hsplit as _ <- _. vm_compute. reflexivity.
    + injection Hsplit as <- <- Hnil. destruct before; discriminate.
  - destruct (sa_markets_rate
                {| indicesBody := Threw; forexBody := Got [eurUsd; usdZar None];
                   commoditiesBody := Got [gold] |})
      as (body & -> & _ & _ & _ & _ & _ & Hrate & _).
    destruct Hrate as (before & usdZarPair & after & Hsplit & Hbefore & Hpair & ->).
    { exists (usdZar None). split; [right; now left|reflexivity]. }
    destruct before as [|fx [|fx' before]].
    + injection Hsplit as <- _. discriminate.
    + injection Hsplit as _ <- _. vm_compute. reflexivity.
    + injection Hsplit as <- <- Hnil. destruct before; discriminate.
Defined.

(* ------------------------------------------------------------------ *)
(** ** The aggregated response: deduplication and ranking together *)

(* ---------- helpers ---------- *)

Lemma map_set_fresh {V} (k : string) (v : V) (m : list (string * V)) :
  map_has k m = false -> map_set k v m = (m ++ [(k, v)])%list.
Proof.
  unfold map_has. induction m as [|[k' v'] m IH]; simpl; trivial.
  destruct (k' =? k)%string; [discriminate|].
  intros H. now rewrite IH.
Qed.

Lemma keyed_values (m : list (string * Mover.t)) :
  NoDup (Object_keys m) ->
  (forall s kept, map_get s m = Some kept -> Mover.symbol kept = s) ->
  map (fun r => (Mover.symbol r, r)) (map_values m) = m.
Proof.
  unfold Object_keys, map_values.
  induction m as [|[k v] m IH]; simpl; intros Hnd Hkey; trivial.
  inversion Hnd as [|? ? Hk Hnd']; subst.
  rewrite (Hkey k v) by now rewrite String.eqb_refl.
  f_equal. apply IH; trivial.
  intros s kept Hs. apply Hkey.
  destruct (k =? s)%string eqn:E; trivial.
  apply String.eqb_eq in E. subst s. exfalso. apply Hk.
  apply (proj1 (map_get_In_keys k m)). unfold map_has. now rewrite Hs.
Qed.

Lemma dedup_fold_distinct (l : list Mover.t) : forall m,
  NoDup (Object_keys m ++ map Mover.symbol l)%list ->
  fold_left dedupStep l m = (m ++ map (fun r => (Mover.symbol r, r)) l)%list.
Proof.
  induction l as [|r l IH]; intros m Hnd; simpl.
  - now rewrite app_nil_r.
  - assert (Hfresh : map_has (Mover.symbol r) m = false).
    { destruct (map_has (Mover.symbol r) m) eqn:E; trivial.
      apply map_get_In_keys in E. exfalso.
      apply NoDup_remove_2 in Hnd. apply Hnd. apply in_or_app. now left. }
    unfold dedupStep at 2. rewrite Hfresh. simpl.
    rewrite map_set_fresh by trivial.
    rewrite IH.
    + now rewrite <- app_assoc.
    + unfold Object_keys in *. rewrite map_app. simpl. rewrite <- app_assoc. exact Hnd.
Qed.

Lemma dedup_distinct (l : list Mover.t) :
  NoDup (map Mover.symbol l) ->
  dedupMovers l = map (fun r => (Mover.symbol r, r)) l.
Proof. intros H. apply (dedup_fold_distinct l []). exact H. Qed.

Lemma dedup_values_symbols (combined : list Mover.t) :
  map Mover.symbol (map_values (dedupMovers combined)) = Object_keys (dedupMovers combined).
Proof.
  destruct (dedupMovers_invariant combined) as (Hnd & Hprov & _).
  rewrite <- (keyed_values (dedupMovers combined)) at 2; trivial.
  - unfold Object_keys. rewrite map_map. simpl. reflexivity.
  - intros s kept H. now destruct (Hprov _ _ H).
Qed.

(** Deduplicating the values of a deduplicated [Map] changes nothing, and
    a list whose symbols are pairwise distinct is kept whole and in order,
    whatever its raw changes are. *)
Theorem dedup_is_idempotent (combined : list Mover.t) :
  dedupMovers (map_values (dedupMovers combined)) = dedupMovers combined
  /\ (NoDup (map Mover.symbol combined) ->
      map_values (dedupMovers combined) = combined).
Proof.
  destruct (dedupMovers_invariant combined) as (Hnd & Hprov & _).
  split.
  - rewrite dedup_distinct.
    + apply keyed_values; trivial. intros s kept H. now destruct (Hprov _ _ H).
    + now rewrite dedup_values_symbols.
  - intros H. rewrite dedup_distinct by trivial.
    unfold map_values. rewrite map_map. simpl. apply map_id.
Qed.

Lemma dedup_is_idempotent_witness :
  let l := [formatMover "Gold" "Gold" 2 "Commodity"; formatMover "Bitcoin" "BTC-USD" nan "Crypto"] in
  map_values (dedupMovers l) = l.
Proof.
  cbv zeta.
  apply (proj2 (dedup_is_idempotent _)).
  simpl. repeat constructor; simpl; intuition discriminate.
Defined.

(** Lines 612-625, for every combined list: the response has at most ten
    records, no symbol twice, and every record of it is a record of the
    combined list; when the [Map] holds at most ten symbols, every symbol
    of the combined list is in the response. *)
Theorem all_movers_response (combined : list Mover.t) :
  let response := rankMovers (map_values (dedupMovers combined)) in
  (List.length response <= 10)%nat
  /\ NoDup (map Mover.symbol response)
  /\ (forall r, In r response -> In r combined)
  /\ ((List.length (dedupMovers combined) <= 10)%nat ->
      forall r, In r combined -> In (Mover.symbol r) (map Mover.symbol response)).
Proof.
  intros response.
  set (values := map_values (dedupMovers combined)).
  set (sorted := array_sort (fun a b => negative (byMagnitude a b)) values).
  assert (Hresp : response = firstn 10 sorted) by reflexivity.
  assert (Hperm : Permutation sorted values) by apply array_sort_perm.
  destruct (dedupMovers_invariant combined) as (Hnd & Hprov & Hmax).
  split; [rewrite Hresp; apply firstn_le_length|]. split; [|split].
  - assert (Hs : NoDup (map Mover.symbol sorted)).
    { eapply Permutation_NoDup; [apply Permutation_map, Permutation_sym, Hperm|].
      unfold values. now rewrite dedup_values_symbols. }
    rewrite <- (firstn_skipn 10 sorted), map_app in Hs.
    rewrite Hresp. now apply NoDup_app_remove_r in Hs.
  - intros r Hr. rewrite Hresp in Hr. apply In_firstn in Hr.
    apply (Permutation_in _ Hperm) in Hr.
    destruct (map_values_get _ _ Hr Hnd) as [k Hk].
    now destruct (Hprov _ _ Hk).
  - intros Hlen r Hr. rewrite Hresp, firstn_all2.
    + destruct (Hmax r Hr) as (kept & Hk & _).
      destruct (Hprov _ _ Hk) as [Hsym _].
      apply map_get_values in Hk.
      apply (Permutation_in _ (Permutation_sym Hperm)) in Hk.
      rewrite <- Hsym. now apply in_map.
    + rewrite (Permutation_length Hperm). unfold values, map_values.
      now rewrite length_map.
Qed.

Lemma response_from_combined (combined : list Mover.t) (r : Mover.t) :
  In r (rankMovers (map_values (dedupMovers combined))) -> In r combined.
Proof.
  intros Hr. unfold rankMovers, slice0 in Hr. apply In_firstn in Hr.
  apply (Permutation_in _ (array_sort_perm _ _)) in Hr.
  destruct (dedupMovers_invariant combined) as (Hnd & Hprov & _).
  destruct (map_values_get _ _ Hr Hnd) as [k Hk].
  now destruct (Hprov _ _ Hk).
Qed.

Lemma chartMover_record type p entry r :
  In r (chartMover type p entry) ->
  r = formatMover (fst entry) (snd entry) (Mover.rawChange r) type.
Proof.
  destruct entry as [name symbol]. unfold chartMover.
  destruct (yahoo p symbol "1d" "5d") as [|[|close]]; try (intros []).
  destruct (Z.of_nat (List.length (numbers close)) <? 2); [intros []|].
  intros [<-|[]]. reflexivity.
Qed.

Lemma commodityMover_record p entry r :
  In r (commodityMover p entry) ->
  r = formatMover (fst entry) (fst entry) (Mover.rawChange r) "Commodity"
  /\ isNaN (Mover.rawChange r) = false.
Proof.
  destruct entry as [name symbol]. unfold commodityMover.
  destruct (eodhd_real_time p symbol) as [|[q|]]; try (intros []).
  destruct (commodityChange _ _) as [pct|] eqn:E; [|intros []].
  intros [<-|[]]. split; [reflexivity|]. simpl.
  unfold commodityChange in E.
  destruct (isNaN _ || isNaN _ || strict_eq _ 0); [discriminate|].
  destruct (isNaN (percent_change _ _)) eqn:En; [discriminate|].
  now injection E as <-.
Qed.

Lemma forexMover_record data pair_ r :
  In r (forexMover data pair_) ->
  r = formatMover pair_ pair_ (Mover.rawChange r) "Forex".
Proof.
  unfold forexMover. destruct (negb (scalar_truthy (data pair_))); [intros []|].
  intros [<-|[]]. reflexivity.
Qed.

(** Every record of the response of [/api/all-movers] came out of
    [formatMover]: its performance and its trend are those of its raw
    change, and its type is that of the fetcher that made it, whose table
    its name and symbol are from (a stock's are the screener's); the raw
    change of a commodity is a number. *)
Theorem mover_records_formed (p : providers) (r : Mover.t) :
  In r (allMovers p) ->
  Mover.performance r = signed_percent (Mover.rawChange r)
  /\ Mover.trend r = trend_of (Mover.rawChange r)
  /\ (Mover.type r = "Stock"
      \/ (Mover.type r = "Crypto" /\ In (Mover.name r, Mover.symbol r) cryptoMoverSymbols)
      \/ (Mover.type r = "Forex" /\ Mover.name r = Mover.symbol r
          /\ In (Mover.symbol r) FOREX_PAIRS)
      \/ (Mover.type r = "Commodity" /\ Mover.name r = Mover.symbol r
          /\ In (Mover.name r) (Object_keys EODHD_COMMODITIES)
          /\ isNaN (Mover.rawChange r) = false)
      \/ (Mover.type r = "Index" /\ In (Mover.name r, Mover.symbol r) INDEX_SYMBOLS)).
Proof.
  intros Hr. apply response_from_combined in Hr.
  unfold combinedMovers, joinMovers, settled_value in Hr.
  rewrite !in_app_iff in Hr.
  destruct Hr as [[Hr|[Hr|[Hr|Hr]]]|Hr].
  - (* stocks *)
    assert (Hs : exists it, r = stockMover it).
    { unfold fetchEodTopStocks, fetchSide in Hr.
      destruct (EODHD_KEY p); simpl in Hr; [|destruct Hr].
      apply in_app_or in Hr.
      destruct Hr as [Hr|Hr];
        [destruct (eodhd_top p "most_gainer_stocks") as [|[|l]]
        |destruct (eodhd_top p "most_loser_stocks") as [|[|l]]];
        simpl in Hr; try destruct Hr;
        apply in_map_iff in Hr; destruct Hr as (it & <- & _); eauto. }
    destruct Hs as [it ->]. split; [reflexivity|]. split; [reflexivity|]. now left.
  - (* crypto *)
    unfold fetchEodCryptoMovers in Hr. apply in_flat_map in Hr.
    destruct Hr as ([name symbol] & Hin & Hr).
    apply chartMover_record in Hr. rewrite Hr. simpl.
    split; trivial. split; trivial. right. left. now split.
  - (* forex *)
    unfold fetchForexMovers in Hr. destruct (twelvedata p) as [|data]; [destruct Hr|].
    apply in_flat_map in Hr. destruct Hr as (pair_ & Hin & Hr).
    apply forexMover_record in Hr. rewrite Hr. simpl.
    split; trivial. split; trivial. do 2 right. left. now repeat split.
  - (* commodities *)
    unfold fetchCommodityMovers in Hr. apply in_flat_map in Hr.
    destruct Hr as ([name symbol] & Hin & Hr).
    apply commodityMover_record in Hr. destruct Hr as [Hr Hn].
    assert (Hname : In name (Object_keys EODHD_COMMODITIES))
      by (change name with (fst (name, symbol)); now apply in_map).
    rewrite Hr. cbn [formatMover Mover.performance Mover.trend Mover.type Mover.name
                     Mover.symbol Mover.rawChange fst snd].
    split; trivial. split; trivial. do 3 right. left.
    rewrite Hr in Hn. now repeat split.
  - (* indices *)
    unfold indexMovers in Hr. apply in_flat_map in Hr.
    destruct Hr as ([name symbol] & Hin & Hr).
    apply chartMover_record in Hr. rewrite Hr. simpl.
    split; trivial. split; trivial. do 4 right. now split.
Qed.

Lemma mover_records_formed_witness :
  let p := {| yahoo := fun _ _ _ => Threw;
              eodhd_real_time := fun symbol =>
                if (symbol =? "GLD.US")%string
                then Got (Some {| close := Num 250; previousClose := Str "200" |})
                else Threw;
              eodhd_top := fun _ => Threw;
              twelvedata := Threw;
              fmp := Threw;
              EODHD_KEY := false |} in
  let gold := formatMover "Gold" "Gold" 25 "Commodity" in
  allMovers p = [gold] /\ Mover.performance gold = "+25.00%".
Proof.
  cbv zeta. split; [vm_compute; reflexivity|].
  destruct (mover_records_formed
              {| yahoo := fun _ _ _ => Threw;
                 eodhd_real_time := fun symbol =>
                   if (symbol =? "GLD.US")%string
                   then Got (Some {| close := Num 250; previousClose := Str "200" |})
                   else Threw;
                 eodhd_top := fun _ => Threw;
                 twelvedata := Threw;
                 fmp := Threw;
                 EODHD_KEY := false |}
              (formatMover "Gold" "Gold" 25 "Commodity")) as (H & _).
  - vm_compute. left. reflexivity.
  - rewrite H. vm_compute. reflexivity.
Defined.

(* ------------------------------------------------------------------ *)
(** ** The sign of a performance string *)

Section Digits.

Lemma all_digits_app a b : all_digits (a ++ b) = all_digits a && all_digits b.
Proof.
  induction a as [|c a IH]; simpl; trivial. rewrite IH. now rewrite andb_assoc.
Qed.

Lemma all_digits_zeros n : all_digits (zeros n) = true.
Proof. induction n; simpl; trivial. Qed.

Lemma all_digits_uint d : all_digits (NilEmpty.string_of_uint d) = true.
Proof. induction d; simpl; trivial. Qed.

Lemma all_digits_of n : all_digits (digits_of n) = true /\ digits_of n <> "".
Proof.
  unfold digits_of, NilZero.string_of_uint.
  destruct (N.to_uint (Z.to_N n)) eqn:E; split; try discriminate;
    try reflexivity; rewrite <- E; try apply all_digits_uint.
Qed.


Lemma first_char_app a b :
  first_char (a ++ b) = match first_char a with Some c => Some c | None => first_char b end.
Proof. now destruct a. Qed.

Lemma first_char_digits s c : all_digits s = true -> first_char s = Some c -> is_digit c = true.
Proof. destruct s; simpl; [discriminate|]. intros H [= <-]. now apply andb_prop in H. Qed.

Lemma first_char_substring j s c :
  first_char (substring 0 j s) = Some c -> first_char s = Some c.
Proof. destruct j, s; simpl; congruence. Qed.

Lemma first_char_fixed_digits n f :
  exists c, first_char (fixed_digits n f) = Some c /\ digit_or_point c = true.
Proof.
  unfold fixed_digits, digit_or_point. destruct (all_digits_of n) as [Hd Hne].
  destruct f as [|f].
  - destruct (digits_of n) as [|c r] eqn:E; [congruence|]. exists c. split; trivial.
    simpl in Hd. apply andb_prop in Hd. now rewrite (proj1 Hd).
  - set (m := zeros (S (S f) - String.length (digits_of n)) ++ digits_of n).
    assert (Hm : all_digits m = true)
      by (unfold m; now rewrite all_digits_app, all_digits_zeros).
    rewrite first_char_app.
    destruct (first_char (substring 0 (String.length m - S f) m)) as [c|] eqn:E.
    + exists c. split; trivial. apply first_char_substring in E.
      now rewrite (first_char_digits _ _ Hm E).
    + exists "."%char. split; reflexivity.
Qed.

Lemma first_char_exponential v x :
  match first_char (exponential_string v x) with
  | Some c => is_digit c = true
  | None => True
  end.
Proof.
  unfold exponential_string.
  destruct (shortest_digits 17 1 v _ x =? 10).
  - destruct (all_digits_of 1) as [Hd _]. 
    destruct (digits_of 1) as [|d [|d' r]]; simpl; trivial; simpl in Hd;
      apply andb_prop in Hd; tauto.
  - destruct (all_digits_of (shortest_digits 17 1 v (Z.of_nat (String.length (digits_of v))) x))
      as [Hd _].
    destruct (digits_of _) as [|d [|d' r]]; simpl; trivial; simpl in Hd;
      apply andb_prop in Hd; tauto.
Qed.

(** [x.toFixed(f)] never begins with a plus sign. *)
Lemma toFixed_first_char x f :
  match first_char (toFixed x f) with
  | Some c => c <> "+"%char
  | None => True
  end.
Proof.
  unfold toFixed. destruct (Prim2SF x) as [s|s| |s m e].
  - destruct (first_char_fixed_digits 0 f) as (c & -> & Hc).
    intros ->. discriminate.
  - destruct s; cbn; discriminate.
  - cbn. discriminate.
  - destruct s.
    { destruct ((0 <=? e) && (10 ^ 21 <=? Z.pos m * 2 ^ e)); cbn [append first_char];
        discriminate. }
    cbn [append].
    destruct ((0 <=? e) && (10 ^ 21 <=? Z.pos m * 2 ^ e)).
    + pose proof (first_char_exponential (Z.pos m * 2 ^ e) (S754_finite false m e)) as H.
      destruct (first_char _) as [c|]; trivial. intros ->. discriminate.
    + match goal with |- context [fixed_digits ?n f] =>
        destruct (first_char_fixed_digits n f) as (c & -> & Hc) end.
      intros ->. discriminate.
Qed.

End Digits.

(** The template of lines 128 and 131, for every number: the string begins
    with a plus sign exactly when the trend is positive, which is exactly
    when the change is at least 0; a change that is no number is written
    [NaN%] with a negative trend. *)
Theorem performance_sign (pct : number) :
  (first_char (signed_percent pct) = Some "+"%char <-> trend_of pct = "positive")
  /\ (trend_of pct = "positive" <-> ge pct 0 = true)
  /\ (isNaN pct = true -> signed_percent pct = "NaN%" /\ trend_of pct = "negative")
  /\ (forall name symbol type,
        let r := formatMover name symbol pct type in
        first_char (Mover.performance r) = Some "+"%char <-> Mover.trend r = "positive").
Proof.
  assert (H : first_char (signed_percent pct) = Some "+"%char <-> trend_of pct = "positive").
  { unfold signed_percent, trend_of. destruct (ge pct 0).
    - simpl. tauto.
    - cbn [append]. rewrite first_char_app.
      pose proof (toFixed_first_char pct 2) as Hc.
      destruct (first_char (toFixed pct 2)) as [c|]; simpl;
        split; try discriminate; intros [= ->]; congruence. }
  split; [exact H|]. split; [|split].
  - unfold trend_of. destruct (ge pct 0); split; trivial; discriminate.
  - intros Hnan. unfold isNaN in Hnan. apply is_nan_spec in Hnan.
    assert (Hge : ge pct 0 = false).
    { unfold ge. rewrite leb_spec, Hnan. reflexivity. }
    unfold signed_percent, trend_of, toFixed. now rewrite Hge, Hnan.
  - intros name symbol type. exact H.
Qed.

(* ------------------------------------------------------------------ *)
(** ** Listings: commodities and stocks *)

Section Listings.
Context {A B : Type}.
Variable g : A -> list B.
Variable key : B -> string.
Variable k : A -> string.
Hypothesis g_key : forall e r, In r (g e) -> key r = k e.
Hypothesis g_one : forall e, (List.length (g e) <= 1)%nat.

Lemma listing_keys l x : In x (map key (flat_map g l)) -> In x (map k l).
Proof.
  intros H. apply in_map_iff in H. destruct H as (r & <- & Hr).
  apply in_flat_map in Hr. destruct Hr as (e & He & Hr).
  rewrite (g_key _ _ Hr). now apply in_map.
Qed.

Lemma listing_NoDup l : NoDup (map k l) -> NoDup (map key (flat_map g l)).
Proof.
  induction l as [|e l IH]; simpl; intros H; [constructor|].
  inversion H as [|? ? Hk Hnd]; subst. rewrite map_app. apply NoDup_app; auto.
  - pose proof (g_one e) as H1. destruct (g e) as [|r [|r' t]]; simpl in *; try lia;
      repeat constructor; simpl; tauto.
  - intros x Hx Hx'. apply listing_keys in Hx'. apply in_map_iff in Hx.
    destruct Hx as (r & <- & Hr). rewrite (g_key _ _ Hr) in Hx'. contradiction.
Qed.

Lemma listing_length l : (List.length (flat_map g l) <= List.length l)%nat.
Proof.
  induction l as [|e l IH]; simpl; trivial. rewrite length_app.
  pose proof (g_one e). lia.
Qed.

End Listings.

Section Magnitudes.
Local Open Scope float_scope.
Context {A : Type}.
Variable raw : A -> number.

Lemma sorted_by_magnitude (l : list A) :
  numeric_by raw l ->
  descending_by raw
    (array_sort (fun a b => negative (Math_abs (raw b) - Math_abs (raw a))) l).
Proof.
  intros H. unfold descending_by.
  apply array_sort_sorted with (P := fun r => isNaN (raw r) = false); trivial.
  - intros a b c Hab Hbc. unfold le in *. eapply leb_trans; eauto.
  - intros a b _ _. rewrite negative_ltb. unfold Math_abs. rewrite sub_abs_sign.
    apply ltb_leb.
  - intros a b Ha Hb. rewrite negative_ltb. unfold Math_abs, le. rewrite sub_abs_sign.
    apply ltb_false_leb; now rewrite abs_is_nan.
Qed.

Lemma numeric_sorted before (l : list A) :
  numeric_by raw l -> numeric_by raw (array_sort before l).
Proof.
  unfold numeric_by. intros H.
  eapply Permutation_Forall; [apply Permutation_sym, array_sort_perm|exact H].
Qed.

End Magnitudes.

Lemma commodityEntry_record p name symbol c :
  In c (commodityEntry p (name, symbol)) ->
  exists q,
    eodhd_real_time p symbol = Got (Some q)
    /\ isNaN (Commodity.rawChange c) = false
    /\ c = let close := parseFloat_of (close q) in
           let pct := percent_change close (parseFloat_of (previousClose q)) in
           Commodity.mk name name (signed_percent pct) (trend_of pct)
             (toFixed (if (name =? "Gold")%string then (close * 10)%float
                       else if (name =? "Silver")%string then (close * 10)%float
                       else if (name =? "Platinum")%string then (close * 10)%float
                       else close) 2) pct.
Proof.
  unfold commodityEntry.
  destruct (eodhd_real_time p symbol) as [|[q|]]; try (intros []).
  unfold commodityChange.
  destruct (isNaN _ || isNaN _ || strict_eq _ 0); [intros []|].
  destruct (isNaN (percent_change _ _)) eqn:En; [intros []|].
  intros [<-|[]]. exists q. repeat split. exact En.
Qed.

Lemma commodityEntry_one p entry : (List.length (commodityEntry p entry) <= 1)%nat.
Proof.
  destruct entry as [name symbol]. unfold commodityEntry.
  destruct (eodhd_real_time p symbol) as [|[q|]]; simpl; try lia.
  destruct (commodityChange _ _); simpl; lia.
Qed.

Lemma display_price (name : string) (close : number) :
  In name (Object_keys EODHD_COMMODITIES) ->
  (if (name =? "Gold")%string then (close * 10)%float
   else if (name =? "Silver")%string then (close * 10)%float
   else if (name =? "Platinum")%string then (close * 10)%float
   else close)
  = (if (name =? "Crude Oil")%string then close else (close * 10)%float).
Proof.
  simpl. intros [<-|[<-|[<-|[<-|[]]]]]; reflexivity.
Qed.

(** [GET /api/commodities], for every state of the provider: no raw change
    in the response is [NaN], so the response is in descending order of
    magnitude; it has at most four records, no commodity twice; each record
    has its name for symbol, the change and the trend of its raw change,
    which is the change of the quote's close against its previous close,
    and for price the close with two decimals, times ten but for oil. *)
Theorem commodities_listing (p : providers) :
  let results := fetchCommodities p in
  numeric_by Commodity.rawChange results
  /\ descending_by Commodity.rawChange results
  /\ NoDup (map Commodity.name results)
  /\ (List.length results <= 4)%nat
  /\ (forall c, In c results ->
        Commodity.symbol c = Commodity.name c
        /\ Commodity.change c = signed_percent (Commodity.rawChange c)
        /\ Commodity.trend c = trend_of (Commodity.rawChange c)
        /\ exists symbol q,
             In (Commodity.name c, symbol) EODHD_COMMODITIES
             /\ eodhd_real_time p symbol = Got (Some q)
             /\ Commodity.rawChange c
                = percent_change (parseFloat_of (close q)) (parseFloat_of (previousClose q))
             /\ Commodity.price c
                = toFixed (if (Commodity.name c =? "Crude Oil")%string
                           then parseFloat_of (close q)
                           else (parseFloat_of (close q) * 10)%float) 2).
Proof.
  intros results.
  set (entries := flat_map (commodityEntry p) EODHD_COMMODITIES).
  assert (Hperm : Permutation results entries) by apply array_sort_perm.
  assert (Hrec : forall c, In c entries ->
            exists name symbol, In (name, symbol) EODHD_COMMODITIES
                                /\ In c (commodityEntry p (name, symbol))).
  { intros c Hc. apply in_flat_map in Hc. destruct Hc as ([name symbol] & He & Hc). eauto. }
  assert (Hnum : numeric_by Commodity.rawChange entries).
  { apply Forall_forall. intros c Hc. destruct (Hrec c Hc) as (name & symbol & _ & Hin).
    destruct (commodityEntry_record _ _ _ _ Hin) as (q & _ & Hn & _). exact Hn. }
  split; [exact (numeric_sorted _ _ _ Hnum)|].
  split; [exact (sorted_by_magnitude Commodity.rawChange entries Hnum)|].
  split; [|split].
  - eapply Permutation_NoDup; [apply Permutation_map, Permutation_sym, Hperm|].
    apply listing_NoDup with (k := fst).
    + intros [name symbol] c Hc.
      destruct (commodityEntry_record _ _ _ _ Hc) as (q & _ & _ & Hc').
      rewrite Hc'. reflexivity.
    + apply commodityEntry_one.
    + unfold EODHD_COMMODITIES. cbn [map fst].
      repeat (constructor; [cbn [In]; intuition discriminate|]). constructor.
  - rewrite (Permutation_length Hperm).
    apply (listing_length (commodityEntry p) (commodityEntry_one p) EODHD_COMMODITIES).
  - intros c Hc. apply (Permutation_in _ Hperm) in Hc.
    destruct (Hrec c Hc) as (name & symbol & Hin & Hce).
    destruct (commodityEntry_record _ _ _ _ Hce) as (q & Hq & _ & Hc').
    cbv zeta in Hc'. rewrite Hc'.
    cbn [Commodity.symbol Commodity.name Commodity.change Commodity.trend
         Commodity.rawChange Commodity.price].
    split; [reflexivity|]. split; [reflexivity|]. split; [reflexivity|].
    exists symbol, q. split; [exact Hin|]. split; [exact Hq|]. split; [reflexivity|].
    f_equal. apply display_price.
    change name with (fst (name, symbol)). now apply in_map.
Qed.

Lemma usEntry_record p name symbol s :
  In s (usEntry p (name, symbol)) ->
  exists q,
    eodhd_real_time p symbol = Got (Some q)
    /\ isNaN (Stock.rawChange s) = false
    /\ strict_eq (parseFloat_of (previousClose q)) 0 = false
    /\ s = Stock.mk name symbol ("$" ++ toFixed (parseFloat_of (close q)) 2)
             (signed_percent
                (percent_change (parseFloat_of (close q)) (parseFloat_of (previousClose q))))
             (trend_of
                (percent_change (parseFloat_of (close q)) (parseFloat_of (previousClose q))))
             (percent_change (parseFloat_of (close q)) (parseFloat_of (previousClose q)))
             "USD".
Proof.
  unfold usEntry.
  destruct (eodhd_real_time p symbol) as [|[q|]]; try (intros []).
  cbv zeta.
  destruct (isNaN (parseFloat_of (close q))); [intros []|].
  destruct (isNaN (parseFloat_of (previousClose q))); [intros []|].
  destruct (strict_eq (parseFloat_of (previousClose q)) 0) eqn:E0; [intros []|].
  cbn [orb].
  destruct (isNaN (percent_change _ _)) eqn:En; [intros []|].
  intros [<-|[]]. exists q. split; [reflexivity|]. split; [exact En|].
  split; [exact E0|reflexivity].
Qed.

Lemma usEntry_listed p name symbol q :
  eodhd_real_time p symbol = Got (Some q) ->
  isNaN (parseFloat_of (close q)) = false ->
  isNaN (parseFloat_of (previousClose q)) = false ->
  strict_eq (parseFloat_of (previousClose q)) 0 = false ->
  isNaN (percent_change (parseFloat_of (close q)) (parseFloat_of (previousClose q))) = false ->
  exists s, usEntry p (name, symbol) = [s] /\ Stock.symbol s = symbol.
Proof.
  intros Hq H1 H2 H3 H4. unfold usEntry. rewrite Hq. cbv zeta. rewrite H1, H2, H3, H4.
  cbn [orb]. eexists. split; reflexivity.
Qed.

Lemma usEntry_one p entry : (List.length (usEntry p entry) <= 1)%nat.
Proof.
  destruct entry as [name symbol]. unfold usEntry.
  destruct (eodhd_real_time p symbol) as [|[q|]]; cbn [List.length]; try lia.
  cbv zeta. destruct (_ || _ || _); cbn [List.length]; try lia.
  destruct (isNaN _); cbn [List.length]; lia.
Qed.

Lemma US_SYMBOLS_distinct : NoDup (map snd US_SYMBOLS).
Proof.
  unfold US_SYMBOLS. cbn [map snd].
  repeat (constructor; [cbn [In]; intuition discriminate|]). constructor.
Qed.

(** [GET /api/us-stocks]: without a key the answer is status 500 and no
    request is made; with one, the answer is a list in which no raw change
    is [NaN], in descending order of magnitude, of at most fifteen records,
    no symbol twice; each record is of a stock of the table, in dollars,
    with the change of its quote's close against the previous close and the
    close for price; and every stock whose quote passes the guards is
    listed. *)
Theorem us_stocks_listing (p : providers) :
  (EODHD_KEY p = false -> usStocks p = Error500 "EODHD API key not configured")
  /\ (EODHD_KEY p = true ->
      exists results,
        usStocks p = Ok results
        /\ numeric_by Stock.rawChange results
        /\ descending_by Stock.rawChange results
        /\ NoDup (map Stock.symbol results)
        /\ (List.length results <= 15)%nat
        /\ (forall s, In s results ->
              In (Stock.name s, Stock.symbol s) US_SYMBOLS
              /\ Stock.currency s = "USD"
              /\ Stock.change s = signed_percent (Stock.rawChange s)
              /\ Stock.trend s = trend_of (Stock.rawChange s)
              /\ exists q,
                   eodhd_real_time p (Stock.symbol s) = Got (Some q)
                   /\ Stock.rawChange s
                      = percent_change (parseFloat_of (close q))
                                       (parseFloat_of (previousClose q))
                   /\ Stock.price s = "$" ++ toFixed (parseFloat_of (close q)) 2)
        /\ (forall name symbol q,
              In (name, symbol) US_SYMBOLS ->
              eodhd_real_time p symbol = Got (Some q) ->
              isNaN (parseFloat_of (close q)) = false ->
              isNaN (parseFloat_of (previousClose q)) = false ->
              strict_eq (parseFloat_of (previousClose q)) 0 = false ->
              isNaN (percent_change (parseFloat_of (close q))
                                    (parseFloat_of (previousClose q))) = false ->
              In symbol (map Stock.symbol results))).
Proof.
  unfold usStocks. split; [intros ->; reflexivity|]. intros ->. cbn [negb].
  set (entries := flat_map (usEntry p) US_SYMBOLS).
  set (results := array_sort (fun a b => negative (byStockMagnitude a b)) entries).
  assert (Hperm : Permutation results entries) by apply array_sort_perm.
  assert (Hrec : forall s, In s entries ->
            exists name symbol, In (name, symbol) US_SYMBOLS
                                /\ In s (usEntry p (name, symbol))).
  { intros s Hs. apply in_flat_map in Hs. destruct Hs as ([name symbol] & He & Hs). eauto. }
  assert (Hnum : numeric_by Stock.rawChange entries).
  { apply Forall_forall. intros s Hs. destruct (Hrec s Hs) as (name & symbol & _ & Hin).
    destruct (usEntry_record _ _ _ _ Hin) as (q & _ & Hn & _). exact Hn. }
  exists results. split; [reflexivity|].
  split; [exact (numeric_sorted _ _ _ Hnum)|].
  split; [exact (sorted_by_magnitude Stock.rawChange entries Hnum)|].
  split; [|split; [|split]].
  - eapply Permutation_NoDup; [apply Permutation_map, Permutation_sym, Hperm|].
    apply listing_NoDup with (k := snd).
    + intros [name symbol] s Hs.
      destruct (usEntry_record _ _ _ _ Hs) as (q & _ & _ & _ & Hs'). rewrite Hs'. reflexivity.
    + apply usEntry_one.
    + apply US_SYMBOLS_distinct.
  - rewrite (Permutation_length Hperm).
    apply (listing_length (usEntry p) (usEntry_one p) US_SYMBOLS).
  - intros s Hs. apply (Permutation_in _ Hperm) in Hs.
    destruct (Hrec s Hs) as (name & symbol & Hin & Hse).
    destruct (usEntry_record _ _ _ _ Hse) as (q & Hq & _ & _ & Hs').
    rewrite Hs'.
    cbn [Stock.name Stock.symbol Stock.price Stock.change Stock.trend Stock.rawChange
         Stock.currency].
    split; [exact Hin|]. split; [reflexivity|]. split; [reflexivity|].
    split; [reflexivity|]. exists q. split; [exact Hq|]. split; reflexivity.
  - intros name symbol q Hin Hq H1 H2 H3 H4.
    destruct (usEntry_listed p name symbol q Hq H1 H2 H3 H4) as (s & Hs & Hsym).
    rewrite <- Hsym. apply in_map. apply (Permutation_in _ (Permutation_sym Hperm)).
    apply in_flat_map. exists (name, symbol). split; trivial. rewrite Hs. now left.
Qed.

(** Apple up 5% and Tesla down 10%, Microsoft without data, no answer for
    the others: Tesla comes first. *)
Lemma us_stocks_listing_witness :
  let p := {| yahoo := fun _ _ _ => Threw;
              eodhd_real_time := fun symbol =>
                if (symbol =? "AAPL.US")%string
                then Got (Some {| close := Num 210; previousClose := Str "200" |})
                else if (symbol =? "TSLA.US")%string
                then Got (Some {| close := Str "90"; previousClose := Num 100 |})
                else if (symbol =? "MSFT.US")%string then Got None
                else Threw;
              eodhd_top := fun _ => Threw;
              twelvedata := Threw;
              fmp := Threw;
              EODHD_KEY := true |} in
  exists results,
    usStocks p = Ok results
    /\ descending_by Stock.rawChange results
    /\ results = [Stock.mk "Tesla" "TSLA.US" "$90.00" "-10.00%" "negative" (-10) "USD";
                  Stock.mk "Apple" "AAPL.US" "$210.00" "+5.00%" "positive" 5 "USD"].
Proof.
  intros p.
  destruct (proj2 (us_stocks_listing p) eq_refl) as (results & Hr & _ & Hd & _).
  exists results. split; [exact Hr|]. split; [exact Hd|].
  assert (H : usStocks p
              = Ok [Stock.mk "Tesla" "TSLA.US" "$90.00" "-10.00%" "negative" (-10) "USD";
                    Stock.mk "Apple" "AAPL.US" "$210.00" "+5.00%" "positive" 5 "USD"])
    by (vm_compute; reflexivity).
  rewrite Hr in H. now injection H.
Defined.

Lemma jseEntry_record p name symbol s :
  In s (jseEntry p (name, symbol)) ->
  exists currentPrice previousPrice,
    dailyCloses p symbol = Some (currentPrice, previousPrice)
    /\ isNaN (Stock.rawChange s) = false
    /\ strict_eq previousPrice 0 = false
    /\ s = Stock.mk name symbol ("R " ++ toFixed currentPrice 2)
             (signed_percent (percent_change currentPrice previousPrice))
             (trend_of (percent_change currentPrice previousPrice))
             (percent_change currentPrice previousPrice)
             "ZAR".
Proof.
  unfold jseEntry.
  destruct (dailyCloses p symbol) as [[currentPrice previousPrice]|]; [|intros []].
  destruct (isNaN currentPrice); [intros []|].
  destruct (isNaN previousPrice); [intros []|].
  destruct (strict_eq previousPrice 0) eqn:E0; [intros []|].
  cbn [orb]. cbv zeta.
  destruct (isNaN (percent_change _ _)) eqn:En; [intros []|].
  intros [<-|[]]. exists currentPrice, previousPrice.
  split; [reflexivity|]. split; [exact En|]. split; [exact E0|reflexivity].
Qed.

Lemma jseEntry_listed p name symbol currentPrice previousPrice :
  dailyCloses p symbol = Some (currentPrice, previousPrice) ->
  isNaN currentPrice = false ->
  isNaN previousPrice = false ->
  strict_eq previousPrice 0 = false ->
  isNaN (percent_change currentPrice previousPrice) = false ->
  exists s, jseEntry p (name, symbol) = [s] /\ Stock.symbol s = symbol.
Proof.
  intros Hq H1 H2 H3 H4. unfold jseEntry. rewrite Hq, H1, H2, H3. cbn [orb]. cbv zeta.
  rewrite H4. eexists. split; reflexivity.
Qed.

Lemma jseEntry_one p entry : (List.length (jseEntry p entry) <= 1)%nat.
Proof.
  destruct entry as [name symbol]. unfold jseEntry.
  destruct (dailyCloses p symbol) as [[currentPrice previousPrice]|];
    cbn [List.length]; try lia.
  destruct (_ || _ || _); cbn [List.length]; try lia.
  cbv zeta. destruct (isNaN _); cbn [List.length]; lia.
Qed.

Lemma JSE_SYMBOLS_distinct : NoDup (map snd JSE_SYMBOLS).
Proof.
  unfold JSE_SYMBOLS. cbn [map snd].
  repeat (constructor; [cbn [In]; intuition discriminate|]). constructor.
Qed.

(** The last two numeric closes of a chart, as [dailyCloses] gives them. *)
Lemma dailyCloses_spec p symbol last prev :
  dailyCloses p symbol = Some (last, prev) <->
  exists close before,
    yahoo p symbol "1d" "5d" = Got (Result close)
    /\ numbers close = (before ++ [prev; last])%list.
Proof.
  unfold dailyCloses. split.
  - destruct (yahoo p symbol "1d" "5d") as [|[|close]]; try discriminate.
    destruct (Z.of_nat (List.length (numbers close)) <? 2) eqn:E; [discriminate|].
    apply Z.ltb_ge in E. intros [= Hl Hp]. exists close.
    destruct (rev (numbers close)) as [|y [|x t]] eqn:Er;
      try (apply (f_equal (@List.length _)) in Er; rewrite length_rev in Er;
           simpl in Er; lia).
    assert (Hn : numbers close = (rev t ++ [x; y])%list).
    { rewrite <- (rev_involutive (numbers close)), Er. simpl.
      now rewrite <- app_assoc. }
    exists (rev t). split; trivial. rewrite Hn in *. clear Hn Er.
    rewrite length_app in E. cbn [List.length] in E.
    destruct (at_from_end (rev t ++ [x; y]) 1) as (v1 & H1 & N1);
      [rewrite length_app; cbn [List.length]; lia|].
    destruct (at_from_end (rev t ++ [x; y]) 2) as (v2 & H2 & N2);
      [rewrite length_app; cbn [List.length]; lia|].
    cbn [Z.opp] in H1, H2. rewrite H1 in Hl. rewrite H2 in Hp. cbn [num_of] in Hl, Hp.
    subst v1 v2.
    rewrite length_app in N1, N2. cbn [List.length] in N1, N2.
    rewrite nth_error_app2 in N1, N2 by lia.
    replace (Z.to_nat (Z.of_nat (List.length (rev t) + 2) - 1) - List.length (rev t))%nat
      with 1%nat in N1 by lia.
    replace (Z.to_nat (Z.of_nat (List.length (rev t) + 2) - 2) - List.length (rev t))%nat
      with 0%nat in N2 by lia.
    cbn [nth_error] in N1, N2. congruence.
  - intros (close & before & -> & Hn). rewrite Hn.
    assert (Hlen : List.length (before ++ [prev; last]) = (List.length before + 2)%nat)
      by (rewrite length_app; reflexivity).
    replace (Z.of_nat (List.length (before ++ [prev; last])) <? 2) with false
      by (symmetry; apply Z.ltb_ge; lia).
    destruct (at_from_end (before ++ [prev; last]) 1) as (v1 & H1 & N1); [lia|].
    destruct (at_from_end (before ++ [prev; last]) 2) as (v2 & H2 & N2); [lia|].
    cbn [Z.opp] in H1, H2. rewrite H1, H2. cbn [num_of].
    rewrite Hlen in N1, N2. rewrite nth_error_app2 in N1, N2 by lia.
    replace (Z.to_nat (Z.of_nat (List.length before + 2) - 1) - List.length before)%nat
      with 1%nat in N1 by lia.
    replace (Z.to_nat (Z.of_nat (List.length before + 2) - 2) - List.length before)%nat
      with 0%nat in N2 by lia.
    cbn [nth_error] in N1, N2. congruence.
Qed.

(** [GET /api/jse-stocks], for every state of the provider: the answer is a
    list in which no raw change is [NaN], in descending order of magnitude,
    of at most fifteen records, no symbol twice; each record is of a stock
    of the table, in rand, with the change of the last numeric close of its
    chart against the one before, which is not 0, and the last close for
    price; and every stock whose chart passes the guards is listed. *)
Theorem jse_stocks_listing (p : providers) :
  exists results,
    jseStocks p = Ok results
    /\ numeric_by Stock.rawChange results
    /\ descending_by Stock.rawChange results
    /\ NoDup (map Stock.symbol results)
    /\ (List.length results <= 15)%nat
    /\ (forall s, In s results ->
          In (Stock.name s, Stock.symbol s) JSE_SYMBOLS
          /\ Stock.currency s = "ZAR"
          /\ Stock.change s = signed_percent (Stock.rawChange s)
          /\ Stock.trend s = trend_of (Stock.rawChange s)
          /\ exists close before prev last,
               yahoo p (Stock.symbol s) "1d" "5d" = Got (Result close)
               /\ numbers close = (before ++ [prev; last])%list
               /\ strict_eq prev 0 = false
               /\ Stock.rawChange s = percent_change last prev
               /\ Stock.price s = "R " ++ toFixed last 2)
    /\ (forall name symbol close before prev last,
          In (name, symbol) JSE_SYMBOLS ->
          yahoo p symbol "1d" "5d" = Got (Result close) ->
          numbers close = (before ++ [prev; last])%list ->
          isNaN last = false -> isNaN prev = false -> strict_eq prev 0 = false ->
          isNaN (percent_change last prev) = false ->
          In symbol (map Stock.symbol results)).
Proof.
  unfold jseStocks.
  set (entries := flat_map (jseEntry p) JSE_SYMBOLS).
  set (results := array_sort (fun a b => negative (byStockMagnitude a b)) entries).
  assert (Hperm : Permutation results entries) by apply array_sort_perm.
  assert (Hrec : forall s, In s entries ->
            exists name symbol, In (name, symbol) JSE_SYMBOLS
                                /\ In s (jseEntry p (name, symbol))).
  { intros s Hs. apply in_flat_map in Hs. destruct Hs as ([name symbol] & He & Hs). eauto. }
  assert (Hnum : numeric_by Stock.rawChange entries).
  { apply Forall_forall. intros s Hs. destruct (Hrec s Hs) as (name & symbol & _ & Hin).
    destruct (jseEntry_record _ _ _ _ Hin) as (c & q & _ & Hn & _). exact Hn. }
  exists results. split; [reflexivity|].
  split; [exact (numeric_sorted _ _ _ Hnum)|].
  split; [exact (sorted_by_magnitude Stock.rawChange entries Hnum)|].
  split; [|split; [|split]].
  - eapply Permutation_NoDup; [apply Permutation_map, Permutation_sym, Hperm|].
    apply listing_NoDup with (k := snd).
    + intros [name symbol] s Hs.
      destruct (jseEntry_record _ _ _ _ Hs) as (c & q & _ & _ & _ & Hs').
      rewrite Hs'. reflexivity.
    + apply jseEntry_one.
    + apply JSE_SYMBOLS_distinct.
  - rewrite (Permutation_length Hperm).
    apply (listing_length (jseEntry p) (jseEntry_one p) JSE_SYMBOLS).
  - intros s Hs. apply (Permutation_in _ Hperm) in Hs.
    destruct (Hrec s Hs) as (name & symbol & Hin & Hse).
    destruct (jseEntry_record _ _ _ _ Hse) as (last & prev & Hq & _ & H0 & Hs').
    apply dailyCloses_spec in Hq. destruct Hq as (close & before & Hy & Hn).
    rewrite Hs'.
    cbn [Stock.name Stock.symbol Stock.price Stock.change Stock.trend Stock.rawChange
         Stock.currency].
    split; [exact Hin|]. split; [reflexivity|]. split; [reflexivity|].
    split; [reflexivity|]. exists close, before, prev, last.
    split; [exact Hy|]. split; [exact Hn|]. split; [exact H0|]. split; reflexivity.
  - intros name symbol close before prev last Hin Hy Hn H1 H2 H3 H4.
    assert (Hq : dailyCloses p symbol = Some (last, prev))
      by (apply dailyCloses_spec; eauto).
    destruct (jseEntry_listed p name symbol last prev Hq H1 H2 H3 H4) as (s & Hs & Hsym).
    rewrite <- Hsym. apply in_map. apply (Permutation_in _ (Permutation_sym Hperm)).
    apply in_flat_map. exists (name, symbol). split; trivial. rewrite Hs. now left.
Qed.

(** Naspers up 2%, Sasol down 4% after a day without a close, Prosus with
    a single close, no answer for the others: Sasol comes first. *)
Lemma jse_stocks_listing_witness :
  let p := {| yahoo := fun symbol _ _ =>
                if (symbol =? "NPN.JO")%string
                then Got (Result [Some 5000%float; Some 5100%float])
                else if (symbol =? "SOL.JO")%string
                then Got (Result [Some 110%float; Some 100%float; None; Some 96%float])
                else if (symbol =? "PRX.JO")%string then Got (Result [None; Some 700%float])
                else Threw;
              eodhd_real_time := fun _ => Threw;
              eodhd_top := fun _ => Threw;
              twelvedata := Threw;
              fmp := Threw;
              EODHD_KEY := false |} in
  exists results,
    jseStocks p = Ok results
    /\ descending_by Stock.rawChange results
    /\ results = [Stock.mk "Sasol" "SOL.JO" "R 96.00" "-4.00%" "negative" (-4) "ZAR";
                  Stock.mk "Naspers" "NPN.JO" "R 5100.00" "+2.00%" "positive" 2 "ZAR"].
Proof.
  intros p.
  destruct (jse_stocks_listing p) as (results & Hr & _ & Hd & _).
  exists results. split; [exact Hr|]. split; [exact Hd|].
  assert (H : jseStocks p
              = Ok [Stock.mk "Sasol" "SOL.JO" "R 96.00" "-4.00%" "negative" (-4) "ZAR";
                    Stock.mk "Naspers" "NPN.JO" "R 5100.00" "+2.00%" "positive" 2 "ZAR"])
    by (vm_compute; reflexivity).
  rewrite Hr in H. now injection H.
Defined.

(* ------------------------------------------------------------------ *)
(** ** The forex quotes and the keys of the strength response *)

Section ListingOrder.
Context {A B : Type}.
Variable g : A -> list B.
Variable key : B -> string.
Variable k : A -> string.
Hypothesis g_key : forall e r, In r (g e) -> key r = k e.
Hypothesis g_one : forall e, (List.length (g e) <= 1)%nat.

Lemma listing_order l :
  map key (flat_map g l)
  = map k (filter (fun e => match g e with [] => false | _ :: _ => true end) l).
Proof.
  induction l as [|e l IH]; simpl; trivial. rewrite map_app, IH.
  pose proof (g_one e) as H1. pose proof (g_key e) as Hk.
  destruct (g e) as [|r [|r' t]]; simpl in *; try lia; trivial.
  now rewrite (Hk r (or_introl eq_refl)).
Qed.

End ListingOrder.

(** Whether the daily chart of a symbol gives two numeric closes. *)
Lemma dailyCloses_listed p symbol :
  match dailyCloses p symbol with Some _ => true | None => false end
  = match yahoo p symbol "1d" "5d" with
    | Got (Result close) => 2 <=? Z.of_nat (List.length (numbers close))
    | _ => false
    end.
Proof.
  unfold dailyCloses. destruct (yahoo p symbol "1d" "5d") as [|[|close]]; trivial.
  destruct (Z.of_nat (List.length (numbers close)) <? 2) eqn:E.
  - apply Z.ltb_lt in E. symmetry. apply Z.leb_gt. lia.
  - apply Z.ltb_ge in E. symmetry. apply Z.leb_le. lia.
Qed.

Lemma forexEntry_record p pair_ symbol fx :
  In fx (forexEntry p (pair_, symbol)) ->
  exists last prev,
    dailyCloses p symbol = Some (last, prev)
    /\ fx = Forex.mk pair_ pair_ (signed_percent (percent_change last prev))
              (trend_of (percent_change last prev)) last (percent_change last prev).
Proof.
  unfold forexEntry. destruct (dailyCloses p symbol) as [[last prev]|]; [|intros []].
  intros [<-|[]]. eauto.
Qed.

Lemma forexEntry_one p entry : (List.length (forexEntry p entry) <= 1)%nat.
Proof.
  destruct entry as [pair_ symbol]. unfold forexEntry.
  destruct (dailyCloses p symbol) as [[last prev]|]; simpl; lia.
Qed.

(** [GET /api/forex], for every state of the provider: the pairs of the
    response are those of the table, in its order, whose chart has at least
    two numeric closes; no pair comes twice; the base and the quote of each
    are currencies of the strength table; each record is named by its pair
    and has the last numeric close for price and its change against the one
    before for raw change. *)
Theorem forex_listing (p : providers) :
  let results := fetchForex p in
  map Forex.pair results
  = map fst (filter (fun '(pair_, symbol) =>
                       match yahoo p symbol "1d" "5d" with
                       | Got (Result close) => 2 <=? Z.of_nat (List.length (numbers close))
                       | _ => false
                       end) YAHOO_FOREX_SYMBOLS)
  /\ NoDup (map Forex.pair results)
  /\ (forall fx, In fx results ->
        Forex.name fx = Forex.pair fx
        /\ In (Forex.pair fx) FOREX_PAIRS
        /\ In (baseOf (Forex.pair fx)) (Object_keys currencyTable)
        /\ In (quoteOf (Forex.pair fx)) (Object_keys currencyTable)
        /\ Forex.change fx = signed_percent (Forex.rawChange fx)
        /\ Forex.trend fx = trend_of (Forex.rawChange fx)
        /\ exists symbol close before prev,
             In (Forex.pair fx, symbol) YAHOO_FOREX_SYMBOLS
             /\ yahoo p symbol "1d" "5d" = Got (Result close)
             /\ numbers close = (before ++ [prev; Forex.price fx])%list
             /\ Forex.rawChange fx = percent_change (Forex.price fx) prev).
Proof.
  intros results. unfold results, fetchForex.
  split; [|split].
  - rewrite (listing_order (forexEntry p) Forex.pair fst).
    + f_equal. apply filter_ext. intros [pair_ symbol].
      rewrite <- dailyCloses_listed. unfold forexEntry.
      now destruct (dailyCloses p symbol) as [[last prev]|].
    + intros [pair_ symbol] fx Hfx.
      destruct (forexEntry_record _ _ _ _ Hfx) as (last & prev & _ & ->). reflexivity.
    + apply forexEntry_one.
  - apply listing_NoDup with (k := fst).
    + intros [pair_ symbol] fx Hfx.
      destruct (forexEntry_record _ _ _ _ Hfx) as (last & prev & _ & ->). reflexivity.
    + apply forexEntry_one.
    + unfold YAHOO_FOREX_SYMBOLS. cbn [map fst].
      repeat (constructor; [cbn [In]; intuition discriminate|]). constructor.
  - intros fx Hfx. apply in_flat_map in Hfx. destruct Hfx as ([pair_ symbol] & Hin & Hfx).
    destruct (forexEntry_record _ _ _ _ Hfx) as (last & prev & Hq & ->).
    apply dailyCloses_spec in Hq. destruct Hq as (close & before & Hy & Hn).
    cbn [Forex.pair Forex.name Forex.change Forex.trend Forex.price Forex.rawChange].
    split; [reflexivity|].
    assert (Hpair : In pair_ FOREX_PAIRS
                    /\ In (baseOf pair_) (Object_keys currencyTable)
                    /\ In (quoteOf pair_) (Object_keys currencyTable)).
    { clear -Hin. unfold YAHOO_FOREX_SYMBOLS in Hin. cbn [In] in Hin.
      repeat (destruct Hin as [[= <- <-]|Hin];
              [split; [|split]; vm_compute; tauto|]).
      destruct Hin. }
    destruct Hpair as (H1 & H2 & H3).
    split; [exact H1|]. split; [exact H2|]. split; [exact H3|].
    split; [reflexivity|]. split; [reflexivity|].
    exists symbol, close, before, prev. repeat split; trivial.
Qed.

Section StrengthKeys.
Local Open Scope float_scope.













End StrengthKeys.



(* ------------------------------------------------------------------ *)
(** ** Thousands separators, and the composition on the server's own answers *)

Section Thousands.
Local Open Scope nat_scope.

Lemma append_assoc (a b c : string) : (a ++ b) ++ c = a ++ (b ++ c).
Proof. induction a as [|x a IH]; simpl; [reflexivity|now rewrite IH]. Qed.

Lemma append_nil_r (a : string) : a ++ "" = a.
Proof. induction a as [|x a IH]; simpl; [reflexivity|now rewrite IH]. Qed.

Lemma length_append (a b : string) :
  String.length (a ++ b) = String.length a + String.length b.
Proof. induction a as [|x a IH]; simpl; [reflexivity|now rewrite IH]. Qed.

Lemma digit_is_word c : is_digit c = true -> is_word c = true.
Proof. intros H. unfold is_word. now rewrite H. Qed.

Lemma digit_run_digits s : all_digits s = true -> digit_run s = String.length s.
Proof.
  induction s as [|c s IH]; simpl; trivial.
  intros H. apply andb_prop in H. destruct H as [Hc Hs]. rewrite Hc. now rewrite IH.
Qed.

Lemma concat_cons sep g groups :
  concat sep (g :: groups)
  = g ++ match groups with [] => "" | _ :: _ => sep ++ concat sep groups end.
Proof. destruct groups; simpl; [now rewrite append_nil_r|reflexivity]. Qed.

Lemma groups_digits groups :
  Forall three_digits groups ->
  all_digits (concat "" groups) = true
  /\ String.length (concat "" groups) = 3 * List.length groups.
Proof.
  induction 1 as [|g groups [Hd Hl] _ [IHd IHl]]; [now split|].
  assert (E : concat "" (g :: groups) = g ++ concat "" groups)
    by (rewrite concat_cons; now destruct groups).
  rewrite E. split.
  - rewrite all_digits_app. now rewrite Hd, IHd.
  - rewrite length_append, Hl, IHl. simpl. lia.
Qed.

Lemma all_digits_cons c s :
  all_digits (String c s) = true -> is_digit c = true /\ all_digits s = true.
Proof. cbn [all_digits]. apply andb_prop. Qed.

(** One character of a run of digits: a comma goes before it when it
    follows a word character and a multiple of three digits begins here. *)
Lemma group_digit before c rest :
  is_digit c = true -> all_digits rest = true ->
  group_thousands before (String c rest)
  = (if before && (String.length rest mod 3 =? 2) then "," else "")
    ++ String c (group_thousands true rest).
Proof.
  intros Hc Hr. cbn [group_thousands digit_run]. rewrite Hc, (digit_is_word c Hc).
  rewrite (digit_run_digits rest Hr).
  set (n := String.length rest).
  assert (E : Bool.eqb before true && (3 <=? S n) && (S n mod 3 =? 0)
              = before && (n mod 3 =? 2)).
  { destruct before; cbn [Bool.eqb andb]; trivial.
    pose proof (Nat.mod_upper_bound n 3 ltac:(lia)) as Hb.
    pose proof (Nat.div_mod_eq n 3) as Hn.
    pose proof (Nat.mod_upper_bound (S n) 3 ltac:(lia)) as Hb'.
    pose proof (Nat.div_mod_eq (S n) 3) as Hn'.
    destruct (n mod 3 =? 2) eqn:E2.
    - apply Nat.eqb_eq in E2.
      replace (3 <=? S n) with true by (symmetry; apply Nat.leb_le; lia).
      cbn [andb]. apply Nat.eqb_eq. lia.
    - apply Nat.eqb_neq in E2.
      replace (S n mod 3 =? 0) with false; [apply andb_false_r|].
      symmetry. apply Nat.eqb_neq. lia. }
  now rewrite E.
Qed.

Lemma groups_grouped groups :
  Forall three_digits groups ->
  group_thousands true (concat "" groups)
  = concat "" (map (fun g => "," ++ g) groups).
Proof.
  induction 1 as [|g groups [Hd Hl] Hrest IH]; [reflexivity|].
  destruct (groups_digits groups Hrest) as [Gd Gl].
  assert (E : concat "" (g :: groups) = g ++ concat "" groups)
    by (rewrite concat_cons; now destruct groups).
  assert (E' : concat "" (map (fun g => "," ++ g) (g :: groups))
               = ("," ++ g) ++ concat "" (map (fun g => "," ++ g) groups))
    by (cbn [map]; rewrite concat_cons; now destruct (map _ groups)).
  rewrite E, E'. clear E E'.
  destruct g as [|c1 [|c2 [|c3 [|c4 g]]]]; try discriminate.
  apply all_digits_cons in Hd. destruct Hd as [H1 Hd].
  apply all_digits_cons in Hd. destruct Hd as [H2 Hd].
  apply all_digits_cons in Hd. destruct Hd as [H3 _].
  cbn [append].
  set (rest := concat "" groups) in *.
  assert (M : forall k, k < 3 -> (k + String.length rest) mod 3 = k).
  { intros k Hk. rewrite Gl, (Nat.mul_comm 3), Nat.Div0.mod_add.
    now apply Nat.mod_small. }
  rewrite (group_digit true c1 (String c2 (String c3 rest)))
    by (trivial; cbn [all_digits]; now rewrite H2, H3).
  rewrite (group_digit true c2 (String c3 rest)) by (trivial; cbn [all_digits]; now rewrite H3).
  rewrite (group_digit true c3 rest) by trivial.
  cbn [String.length].
  change (S (S (String.length rest))) with (2 + String.length rest).
  change (S (String.length rest)) with (1 + String.length rest).
  rewrite (M 2), (M 1) by lia.
  pose proof (M 0 ltac:(lia)) as M0. cbn [Nat.add] in M0. rewrite M0.
  cbn [Nat.eqb andb append]. now rewrite IH.
Qed.

Lemma head_grouped head rest :
  all_digits head = true -> 1 <= String.length head <= 3 ->
  all_digits rest = true -> String.length rest mod 3 = 0 ->
  group_thousands false (head ++ rest) = head ++ group_thousands true rest.
Proof.
  intros Hd Hl Hr Hm.
  assert (M : forall k, k < 3 -> (k + String.length rest) mod 3 = k).
  { intros k Hk. rewrite Nat.Div0.add_mod, Hm, Nat.add_0_r, Nat.Div0.mod_mod.
    now apply Nat.mod_small. }
  pose proof (M 0 ltac:(lia)) as M0. pose proof (M 1 ltac:(lia)) as M1.
  cbn [Nat.add] in M0.
  destruct head as [|c1 [|c2 [|c3 [|c4 head]]]]; cbn [String.length] in Hl; try lia;
    cbn [append].
  - apply all_digits_cons in Hd. destruct Hd as [H1 _].
    rewrite group_digit by trivial. reflexivity.
  - apply all_digits_cons in Hd. destruct Hd as [H1 Hd].
    apply all_digits_cons in Hd. destruct Hd as [H2 _].
    rewrite (group_digit false) by (trivial; cbn [all_digits]; now rewrite H2, Hr).
    rewrite (group_digit true) by trivial.
    rewrite M0. reflexivity.
  - apply all_digits_cons in Hd. destruct Hd as [H1 Hd].
    apply all_digits_cons in Hd. destruct Hd as [H2 Hd].
    apply all_digits_cons in Hd. destruct Hd as [H3 _].
    rewrite (group_digit false)
      by (trivial; cbn [all_digits]; now rewrite H2, H3, Hr).
    rewrite (group_digit true c2) by (trivial; cbn [all_digits]; now rewrite H3, Hr).
    rewrite (group_digit true c3) by trivial.
    cbn [String.length]. change (S (String.length rest)) with (1 + String.length rest).
    rewrite M1, M0. reflexivity.
Qed.

End Thousands.

(** The replacement of line 1134 on a string of digits, with or without a
    minus sign: one to three digits followed by groups of three digits come
    out with a comma before each group. *)
Theorem thousands_grouped (head : string) (groups : list string) :
  all_digits head = true -> (1 <= String.length head <= 3)%nat ->
  Forall three_digits groups ->
  group_thousands false (head ++ concat "" groups) = concat "," (head :: groups)
  /\ group_thousands false ("-" ++ head ++ concat "" groups)
     = "-" ++ concat "," (head :: groups).
Proof.
  intros Hd Hl Hg.
  destruct (groups_digits groups Hg) as [Gd Gl].
  assert (E : group_thousands false (head ++ concat "" groups)
              = concat "," (head :: groups)).
  { rewrite head_grouped; trivial.
    - rewrite groups_grouped by trivial. clear. revert head.
      induction groups as [|g groups IH]; intros head;
        [cbn [map concat]; apply append_nil_r|].
      assert (E' : concat "" (map (fun g => "," ++ g) (g :: groups))
                   = ("," ++ g) ++ concat "" (map (fun g => "," ++ g) groups))
        by (cbn [map]; rewrite concat_cons; now destruct (map _ groups)).
      rewrite E', append_assoc, (IH g). reflexivity.
    - rewrite Gl, Nat.mul_comm. apply Nat.Div0.mod_mul. }
  split; [exact E|].
  change ("-" ++ head ++ concat "" groups) with (String "-" (head ++ concat "" groups)).
  cbn [group_thousands digit_run].
  change (is_digit "-") with false. change (is_word "-") with false.
  cbv iota. rewrite E. reflexivity.
Qed.

Lemma thousands_grouped_witness :
  group_thousands false "49697" = "49,697"
  /\ group_thousands false "-1234567" = "-1,234,567".
Proof.
  assert (H : three_digits "697" /\ three_digits "234" /\ three_digits "567")
    by (repeat split).
  destruct H as (H1 & H2 & H3). split.
  - apply (thousands_grouped "49" ["697"]); [reflexivity|simpl; lia|now constructor].
  - apply (thousands_grouped "1" ["234"; "567"]);
      [reflexivity|simpl; lia|now repeat constructor].
Defined.

Lemma jse_indices_sent (p : providers) :
  map IndexBody.name
      (filter (fun idx => includes (IndexBody.name idx) "JSE"
                          || includes (IndexBody.symbol idx) ".JO")
              (map indexRead (fetchIndices p)))
  = if match dailyCloses p "^J200.JO" with Some _ => true | None => false end
    then ["JSE Top 40"] else [].
Proof.
  unfold fetchIndices, INDEX_SYMBOLS. cbn [flat_map]. unfold indexEntry.
  destruct (dailyCloses p "^GSPC") as [[? ?]|];
  destruct (dailyCloses p "^NDX") as [[? ?]|];
  destruct (dailyCloses p "^DJI") as [[? ?]|];
  destruct (dailyCloses p "^J200.JO") as [[? ?]|];
  reflexivity.
Qed.

Lemma zar_forex_sent (p : providers) :
  map ForexBody.pair
      (filter (fun fx => includes (ForexBody.pair fx) "ZAR") (map forexRead (fetchForex p)))
  = map fst
      (filter (fun '(_, symbol) =>
                 match dailyCloses p symbol with Some _ => true | None => false end)
              [("USD/ZAR", "USDZAR=X"); ("EUR/ZAR", "EURZAR=X"); ("GBP/ZAR", "GBPZAR=X")]).
Proof.
  unfold fetchForex, YAHOO_FOREX_SYMBOLS. cbn [flat_map filter]. unfold forexEntry.
  destruct (dailyCloses p "EURUSD=X") as [[? ?]|];
  destruct (dailyCloses p "GBPUSD=X") as [[? ?]|];
  destruct (dailyCloses p "USDJPY=X") as [[? ?]|];
  destruct (dailyCloses p "USDZAR=X") as [[? ?]|];
  destruct (dailyCloses p "EURZAR=X") as [[? ?]|];
  destruct (dailyCloses p "GBPZAR=X") as [[? ?]|];
  destruct (dailyCloses p "AUDUSD=X") as [[? ?]|];
  destruct (dailyCloses p "USDCHF=X") as [[? ?]|];
  reflexivity.
Qed.

(** [GET /api/sa-markets] on what the server's own endpoints send: the
    indices are the JSE Top 40 alone, when its chart gave a record; the
    forex pairs are USD/ZAR, EUR/ZAR and GBP/ZAR, in this order, those
    whose chart gave a record; the commodities are those of
    [/api/commodities], in its order, with their changes. *)
Theorem sa_markets_of_own_endpoints (pi pf pc : providers) :
  let listed (p : providers) symbol :=
    match yahoo p symbol "1d" "5d" with
    | Got (Result close) => 2 <=? Z.of_nat (List.length (numbers close))
    | _ => false
    end in
  exists body,
    saMarkets (ownBodies (fetchIndices pi) (fetchForex pf) (fetchCommodities pc)) = Ok body
    /\ map IndexBody.name (indices body)
       = (if listed pi "^J200.JO" then ["JSE Top 40"] else [])
    /\ map ForexBody.pair (forex body)
       = map fst (filter (fun '(_, symbol) => listed pf symbol)
                         [("USD/ZAR", "USDZAR=X"); ("EUR/ZAR", "EURZAR=X");
                          ("GBP/ZAR", "GBPZAR=X")])
    /\ map SaCommodity.name (commodities body) = map Commodity.name (fetchCommodities pc)
    /\ map SaCommodity.change (commodities body) = map Commodity.change (fetchCommodities pc)
    /\ map SaCommodity.rawChange (commodities body)
       = map (fun comm => reread (Commodity.rawChange comm)) (fetchCommodities pc).
Proof.
  intros listed. eexists. split; [reflexivity|].
  cbn [indices forex commodities ownBodies body_or_empty indicesBody forexBody
       commoditiesBody].
  split; [|split; [|split; [|split]]].
  - rewrite jse_indices_sent. unfold listed. now rewrite dailyCloses_listed.
  - rewrite zar_forex_sent. f_equal. apply filter_ext. intros [pair_ symbol].
    unfold listed. apply dailyCloses_listed.
  - rewrite !map_map. reflexivity.
  - rewrite !map_map. reflexivity.
  - rewrite !map_map. reflexivity.
Qed.
